(** * Share-link converter (converter.js): a shallow embedding

    The development follows the layout of [converter.js]:

    - [JS]: the fragment of the JavaScript run time the converter calls
      (string methods, [parseInt], [decodeURIComponent], [URLSearchParams],
      [Buffer.from(_, 'base64').toString('utf8')], values and their
      coercions);
    - [Config]: the record the four parsers build;
    - the parsers [parseVLESS], [parseVMess], [parseTrojan], [parseSS] and
      the dispatcher [parseAnyLink];
    - the serialisers [toClash], [toSurge], [toQuantumult], [toSingBox];
    - [extractLinks] and [processLinks];
    - [TemplateSystem.loadTemplate].

    Conventions.  A JavaScript string is represented by the Rocq [string] of
    its UTF-8 bytes.  Every separator the converter searches for is an ASCII
    character, so splitting and searching commute with that encoding;
    positions are byte offsets and are only ever obtained from [indexOf] of
    an ASCII character; [.length] is [JS.length], which counts UTF-16 code
    units.  A JavaScript number is an integer or NaN ([JS.jsnum]); this is
    exact for every integer below 2^53 in absolute value.  Exceptions are
    values of [JS.exn] and a computation that may throw returns a
    [JS.result].  Calls to [console] are not modelled. *)

From Stdlib Require Import ZArith String Ascii List Lia Bool.
From stdpp Require Import gmap strings list.

Open Scope string_scope.

(* ================================================================== *)
(** * The JavaScript run time used by the converter                    *)
(* ================================================================== *)

Module JS.

(** ** Exceptions *)

Inductive exn : Type :=
| Error (message : string)
| TypeError (message : string)
| URIError (message : string)
| SyntaxError (message : string).

(** [e.message] *)
Definition message (e : exn) : string :=
  match e with
  | Error m | TypeError m | URIError m | SyntaxError m => m
  end.

Inductive result (A : Type) : Type :=
| Ok (a : A)
| Throw (e : exn).
Arguments Ok {A} a.
Arguments Throw {A} e.

#[export] Instance result_ret : MRet result := fun _ a => Ok a.
#[export] Instance result_bind : MBind result := fun _ _ f r =>
  match r with
  | Ok a => f a
  | Throw e => Throw e
  end.

(** [try { body } catch (e) { handler }] *)
Definition try_catch {A} (body : result A) (handler : exn → result A) : result A :=
  match body with
  | Ok a => Ok a
  | Throw e => handler e
  end.

Definition is_Ok {A} (r : result A) : bool :=
  match r with Ok _ => true | Throw _ => false end.

(** ** Strings *)

Definition code (c : ascii) : nat := nat_of_ascii c.

Definition between (lo hi : nat) (c : ascii) : bool :=
  (lo <=? code c)%nat && (code c <=? hi)%nat.

(** [s.length]: the number of UTF-16 code units of the string whose UTF-8
    bytes are [s].  A continuation byte adds nothing, the lead byte of a
    four-byte sequence stands for a surrogate pair. *)
Fixpoint length (s : string) : nat :=
  match s with
  | EmptyString => 0
  | String c r =>
      (if between 128 191 c then 0 else if between 240 255 c then 2 else 1)
      + length r
  end.

(** [s.startsWith(p)] *)
Definition startsWith (s p : string) : bool := String.prefix p s.

Fixpoint indexOf_from (c : ascii) (s : string) (i : Z) : Z :=
  match s with
  | EmptyString => (-1)%Z
  | String a r => if Ascii.eqb a c then i else indexOf_from c r (i + 1)%Z
  end.

(** [s.indexOf(c)] for a one-character needle; [-1] when absent. *)
Definition indexOf (s : string) (c : ascii) : Z := indexOf_from c s 0%Z.

(** [s.substring(a, b)]: both ends are clamped to the string and swapped
    when out of order. *)
Definition substring (s : string) (a b : Z) : string :=
  let len := Z.of_nat (String.length s) in
  let a' := Z.max 0 (Z.min a len) in
  let b' := Z.max 0 (Z.min b len) in
  let lo := Z.min a' b' in
  let hi := Z.max a' b' in
  String.substring (Z.to_nat lo) (Z.to_nat (hi - lo)) s.

(** [s.substring(a)] *)
Definition substring_from (s : string) (a : Z) : string :=
  substring s a (Z.of_nat (String.length s)).

(** [s.includes(c)] for a one-character needle. *)
Fixpoint includes (s : string) (c : ascii) : bool :=
  match s with
  | EmptyString => false
  | String a r => Ascii.eqb a c || includes r c
  end.

(** [s.split(sep)] for a one-character separator: never empty, and
    [''.split(sep)] is [['']]. *)
Fixpoint split (s : string) (sep : ascii) : list string :=
  match s with
  | EmptyString => [EmptyString]
  | String c r =>
      if Ascii.eqb c sep then EmptyString :: split r sep
      else match split r sep with
           | h :: t => String c h :: t
           | [] => [String c EmptyString]
           end
  end.

(** [s.split(sep, limit)] *)
Definition split_limit (s : string) (sep : ascii) (limit : nat) : list string :=
  take limit (split s sep).

(** [parts.join(sep)] *)
Fixpoint join (sep : string) (l : list string) : string :=
  match l with
  | [] => EmptyString
  | [x] => x
  | x :: r => x +:+ sep +:+ join sep r
  end.

Fixpoint drop_chars (n : nat) (s : string) : string :=
  match n, s with
  | O, _ => s
  | S _, EmptyString => EmptyString
  | S m, String _ r => drop_chars m r
  end.

(** [s.replace(pat, rep)] with a non-empty string pattern: the first
    occurrence only.  The converter always passes [rep = ''], so the
    [$]-patterns of the replacement text play no part. *)
Fixpoint replace (s pat rep : string) : string :=
  if String.prefix pat s then rep +:+ drop_chars (String.length pat) s
  else match s with
       | EmptyString => EmptyString
       | String c r => String c (replace r pat rep)
       end.

(** White space and line terminators, on UTF-8 bytes: U+0009..U+000D and
    U+0020; U+00A0; U+1680, U+2000..U+200A, U+2028, U+2029, U+202F, U+205F,
    U+3000 and U+FEFF. *)
Definition ws1 (c : ascii) : bool := between 9 13 c || (code c =? 32)%nat.

Definition ws2 (c1 c2 : ascii) : bool :=
  (code c1 =? 194)%nat && (code c2 =? 160)%nat.

Definition ws3 (c1 c2 c3 : ascii) : bool :=
  let a := code c1 in let b := code c2 in let c := code c3 in
  ((a =? 225) && (b =? 154) && (c =? 128))%nat
  || ((a =? 226) && (b =? 128)
      && (between 128 138 c3 || between 168 169 c3 || (c =? 175)))%nat
  || ((a =? 226) && (b =? 129) && (c =? 159))%nat
  || ((a =? 227) && (b =? 128) && (c =? 128))%nat
  || ((a =? 239) && (b =? 187) && (c =? 191))%nat.

(** [s.trimStart()] *)
Fixpoint trimStart (s : string) : string :=
  match s with
  | EmptyString => s
  | String c1 r1 =>
      if ws1 c1 then trimStart r1
      else match r1 with
           | EmptyString => s
           | String c2 r2 =>
               if ws2 c1 c2 then trimStart r2
               else match r2 with
                    | EmptyString => s
                    | String c3 r3 => if ws3 c1 c2 c3 then trimStart r3 else s
                    end
           end
  end.

Fixpoint rev_onto (s acc : string) : string :=
  match s with
  | EmptyString => acc
  | String c r => rev_onto r (String c acc)
  end.

Definition rev (s : string) : string := rev_onto s EmptyString.

(** [trimStart] on a reversed string: the multi-byte marks are met last
    byte first. *)
Fixpoint trimStart_rev (s : string) : string :=
  match s with
  | EmptyString => s
  | String c1 r1 =>
      if ws1 c1 then trimStart_rev r1
      else match r1 with
           | EmptyString => s
           | String c2 r2 =>
               if ws2 c2 c1 then trimStart_rev r2
               else match r2 with
                    | EmptyString => s
                    | String c3 r3 =>
                        if ws3 c3 c2 c1 then trimStart_rev r3 else s
                    end
           end
  end.

(** [s.trimEnd()] *)
Definition trimEnd (s : string) : string := rev (trimStart_rev (rev s)).

(** [s.trim()] *)
Definition trim (s : string) : string := trimEnd (trimStart s).

(** ** Numbers *)

(** The numbers of the converter are ports and counters: [NaN] or an
    integer.  The model is that of the run time for the safe integers
    (magnitude below 2^53), which [parseInt] reads and [String] prints
    exactly; beyond them the run time rounds to a double, and the
    statements that assert a port value stay within them. *)
Inductive jsnum : Type :=
| NaN
| Int (z : Z).

Definition digit_val (c : ascii) : option Z :=
  if between 48 57 c then Some (Z.of_nat (code c) - 48)%Z else None.

Fixpoint digits_from (s : string) (acc : Z) : Z :=
  match s with
  | EmptyString => acc
  | String c r =>
      match digit_val c with
      | Some d => digits_from r (10 * acc + d)%Z
      | None => acc
      end
  end.

Definition starts_with_digit (s : string) : bool :=
  match s with
  | String c _ => bool_decide (is_Some (digit_val c))
  | EmptyString => false
  end.

(** [parseInt(s, 10)] on a string: leading white space is skipped, one sign
    is read, then the longest run of decimal digits; NaN when that run is
    empty. *)
Definition parseInt_string (s : string) : jsnum :=
  let s := trimStart s in
  let '(sign, s) :=
    match s with
    | String "-" r => ((-1)%Z, r)
    | String "+" r => (1%Z, r)
    | _ => (1%Z, s)
    end in
  if starts_with_digit s then Int (sign * digits_from s 0) else NaN.

Fixpoint decimal_fuel (fuel : nat) (n : N) (acc : string) : string :=
  match fuel with
  | O => acc
  | S f =>
      let d := String (ascii_of_N (48 + n mod 10)) acc in
      if (n <? 10)%N then d else decimal_fuel f (n / 10)%N d
  end.

(** Decimal digits of a natural number. *)
Definition decimal (n : N) : string :=
  decimal_fuel (S (N.to_nat (N.log2 n))) n EmptyString.

(** [String(n)] *)
Definition Number_toString (n : jsnum) : string :=
  match n with
  | NaN => "NaN"
  | Int z =>
      if (z <? 0)%Z then "-" +:+ decimal (Z.to_N (- z)) else decimal (Z.to_N z)
  end.

(** [isNaN(n)] *)
Definition isNaN (n : jsnum) : bool :=
  match n with NaN => true | Int _ => false end.

(** ** Buffers and UTF-8 *)

(** U+FFFD REPLACEMENT CHARACTER *)
Definition FFFD : string :=
  String (ascii_of_nat 239) (String (ascii_of_nat 191)
    (String (ascii_of_nat 189) EmptyString)).

Definition lower_bound (lead : ascii) : nat :=
  if (code lead =? 224)%nat then 160
  else if (code lead =? 240)%nat then 144 else 128.

Definition upper_bound (lead : ascii) : nat :=
  if (code lead =? 237)%nat then 159
  else if (code lead =? 244)%nat then 143 else 191.

(** [buf.toString('utf8')]: a well-formed sequence is kept, every maximal
    ill-formed part becomes U+FFFD.  It never throws. *)
Fixpoint toString_utf8 (buf : string) : string :=
  match buf with
  | EmptyString => EmptyString
  | String b r =>
      if between 0 127 b then String b (toString_utf8 r)
      else if between 194 223 b then
        match r with
        | String c1 r1 =>
            if between 128 191 c1 then String b (String c1 (toString_utf8 r1))
            else FFFD +:+ toString_utf8 r
        | EmptyString => FFFD
        end
      else if between 224 239 b then
        match r with
        | String c1 r1 =>
            if between (lower_bound b) (upper_bound b) c1 then
              match r1 with
              | String c2 r2 =>
                  if between 128 191 c2
                  then String b (String c1 (String c2 (toString_utf8 r2)))
                  else FFFD +:+ toString_utf8 r1
              | EmptyString => FFFD
              end
            else FFFD +:+ toString_utf8 r
        | EmptyString => FFFD
        end
      else if between 240 244 b then
        match r with
        | String c1 r1 =>
            if between (lower_bound b) (upper_bound b) c1 then
              match r1 with
              | String c2 r2 =>
                  if between 128 191 c2 then
                    match r2 with
                    | String c3 r3 =>
                        if between 128 191 c3
                        then String b (String c1 (String c2 (String c3
                               (toString_utf8 r3))))
                        else FFFD +:+ toString_utf8 r2
                    | EmptyString => FFFD
                    end
                  else FFFD +:+ toString_utf8 r1
              | EmptyString => FFFD
              end
            else FFFD +:+ toString_utf8 r
        | EmptyString => FFFD
        end
      else FFFD +:+ toString_utf8 r
  end.

(** The value of a base64 character; both alphabets are accepted. *)
Definition unbase64 (c : ascii) : option nat :=
  if between 65 90 c then Some (code c - 65)
  else if between 97 122 c then Some (code c - 97 + 26)
  else if between 48 57 c then Some (code c - 48 + 52)
  else if Ascii.eqb c "+" || Ascii.eqb c "-" then Some 62
  else if Ascii.eqb c "/" || Ascii.eqb c "_" then Some 63
  else None.

(** The legal characters before the first [=]: a character outside the
    alphabet is skipped, [=] ends the input. *)
Fixpoint sextets (s : string) : list nat :=
  match s with
  | EmptyString => []
  | String c r =>
      if Ascii.eqb c "=" then []
      else match unbase64 c with
           | Some v => v :: sextets r
           | None => sextets r
           end
  end.

Fixpoint octets (l : list nat) : string :=
  match l with
  | a :: b :: c :: d :: r =>
      String (ascii_of_nat (a * 4 + b / 16))
        (String (ascii_of_nat (b mod 16 * 16 + c / 4))
           (String (ascii_of_nat (c mod 4 * 64 + d)) (octets r)))
  | [a; b; c] =>
      String (ascii_of_nat (a * 4 + b / 16))
        (String (ascii_of_nat (b mod 16 * 16 + c / 4)) EmptyString)
  | [a; b] => String (ascii_of_nat (a * 4 + b / 16)) EmptyString
  | _ => EmptyString
  end.

(** [Buffer.from(s, 'base64')]: Node's decoder is forgiving and total; it
    has no failure case. *)
Definition Buffer_from_base64 (s : string) : string := octets (sextets s).

(** ** URI decoding *)

Definition hex_val (c : ascii) : option nat :=
  if between 48 57 c then Some (code c - 48)
  else if between 65 70 c then Some (code c - 55)
  else if between 97 102 c then Some (code c - 87)
  else None.

(** A character of the input: literal, or an escape [%XX]. *)
Inductive uchar : Type :=
| Lit (c : ascii)
| Esc (b : ascii).

(** Reads the escapes; [None] when a [%] is not followed by two hex
    digits. *)
Fixpoint unescape (s : string) : option (list uchar) :=
  match s with
  | EmptyString => Some []
  | String "%" r =>
      match r with
      | String h (String l r2) =>
          match hex_val h, hex_val l with
          | Some x, Some y =>
              cons (Esc (ascii_of_nat (16 * x + y))) <$> unescape r2
          | _, _ => None
          end
      | _ => None
      end
  | String c r => cons (Lit c) <$> unescape r
  end.

(** An escape of a byte above 0x7F must start a well-formed UTF-8 sequence
    written entirely with escapes. *)
Fixpoint decode_uchars (l : list uchar) : option string :=
  match l with
  | [] => Some EmptyString
  | Lit c :: r => String c <$> decode_uchars r
  | Esc b :: r =>
      if between 0 127 b then String b <$> decode_uchars r
      else if between 194 223 b then
        match r with
        | Esc c1 :: r1 =>
            if between 128 191 c1
            then (λ t, String b (String c1 t)) <$> decode_uchars r1
            else None
        | _ => None
        end
      else if between 224 239 b then
        match r with
        | Esc c1 :: Esc c2 :: r2 =>
            if between (lower_bound b) (upper_bound b) c1 && between 128 191 c2
            then (λ t, String b (String c1 (String c2 t))) <$> decode_uchars r2
            else None
        | _ => None
        end
      else if between 240 244 b then
        match r with
        | Esc c1 :: Esc c2 :: Esc c3 :: r3 =>
            if between (lower_bound b) (upper_bound b) c1
               && between 128 191 c2 && between 128 191 c3
            then (λ t, String b (String c1 (String c2 (String c3 t))))
                   <$> decode_uchars r3
            else None
        | _ => None
        end
      else None
  end.

(** [decodeURIComponent(s)] *)
Definition decodeURIComponent (s : string) : result string :=
  match unescape s ≫= decode_uchars with
  | Some t => Ok t
  | None => Throw (URIError "URI malformed")
  end.

(** The percent-decoding of [URLSearchParams]: a [%] that is not followed
    by two hex digits is kept. *)
Fixpoint percent_decode (s : string) : string :=
  match s with
  | EmptyString => EmptyString
  | String c r =>
      match r with
      | String h (String l r2) =>
          match Ascii.eqb c "%", hex_val h, hex_val l with
          | true, Some x, Some y =>
              String (ascii_of_nat (16 * x + y)) (percent_decode r2)
          | _, _, _ => String c (percent_decode r)
          end
      | _ => String c (percent_decode r)
      end
  end.

Fixpoint plus_to_space (s : string) : string :=
  match s with
  | EmptyString => EmptyString
  | String c r => String (if Ascii.eqb c "+" then " "%char else c) (plus_to_space r)
  end.

Definition form_decode (s : string) : string :=
  toString_utf8 (percent_decode (plus_to_space s)).

(** Splits at the first [=]; the value is empty without one. *)
Fixpoint name_value (s : string) : string * string :=
  match s with
  | EmptyString => (EmptyString, EmptyString)
  | String c r =>
      if Ascii.eqb c "=" then (EmptyString, r)
      else let '(n, v) := name_value r in (String c n, v)
  end.

(** [new URLSearchParams(init)]: the list of name-value pairs, decoded as
    the URL standard says.  Node decodes the same way when the text is
    ASCII; the statements about parameters stay within such text. *)
Definition URLSearchParams (init : string) : list (string * string) :=
  let init := match init with String "?" r => r | _ => init end in
  (λ seq, let '(n, v) := name_value seq in (form_decode n, form_decode v))
    <$> filter (λ seq, seq ≠ EmptyString) (split init "&").

(** [params.get(name)]; [None] is [null]. *)
Fixpoint URLSearchParams_get (params : list (string * string)) (name : string)
  : option string :=
  match params with
  | [] => None
  | (n, v) :: r => if String.eqb n name then Some v else URLSearchParams_get r name
  end.

(** ** Values *)

(** The values the converter handles: what [JSON.parse] returns, plus
    [undefined].  An object is the list of its own properties in insertion
    order, with distinct keys. *)
#[warnings="-register-all"] Inductive jsval : Type :=
| VUndef
| VNull
| VBool (b : bool)
| VNum (n : jsnum)
| VStr (s : string)
| VArr (elems : list jsval)
| VObj (props : list (string * jsval)).

Abbreviation obj := (list (string * jsval)).

(** [o[k]] on an object: [undefined] when [k] is not a property. *)
Fixpoint obj_get (o : obj) (k : string) : jsval :=
  match o with
  | [] => VUndef
  | (k', v) :: r => if String.eqb k' k then v else obj_get r k
  end.

Definition has_own (o : obj) (k : string) : bool :=
  existsb (λ p, String.eqb p.1 k) o.

(** Defines or overwrites property [k]; an existing property keeps its
    place. *)
Fixpoint obj_set (o : obj) (k : string) (v : jsval) : obj :=
  match o with
  | [] => [(k, v)]
  | (k', v') :: r =>
      if String.eqb k' k then (k', v) :: r else (k', v') :: obj_set r k v
  end.

(** An object literal [{ k1: v1, k2: v2, ... }]: the properties are defined
    from left to right, so a key written twice keeps its last value. *)
Definition object_literal (l : list (string * jsval)) : obj :=
  fold_left (λ o p, obj_set o p.1 p.2) l [].

(** [o[k] = v] with a computed key on an ordinary object: assigning a
    primitive to [__proto__] goes to the inherited setter, which ignores it. *)
Definition obj_assign (o : obj) (k : string) (v : jsval) : obj :=
  if String.eqb k "__proto__" then o else obj_set o k v.

(** [Object.keys(o).length] *)
Definition Object_keys_length (o : obj) : nat := List.length o.

(** Truthiness: [!!v] *)
Definition truthy (v : jsval) : bool :=
  match v with
  | VUndef | VNull => false
  | VBool b => b
  | VNum NaN => false
  | VNum (Int z) => negb (z =? 0)%Z
  | VStr s => negb (String.eqb s EmptyString)
  | VArr _ | VObj _ => true
  end.

(** [a || b] *)
Definition or_else (a b : jsval) : jsval := if truthy a then a else b.

(** [v === 's'] for a string literal ['s'] *)
Definition is_str (v : jsval) (s : string) : bool :=
  match v with
  | VStr t => String.eqb t s
  | _ => false
  end.

Definition Boolean_toString (b : bool) : string := if b then "true" else "false".

(** [String(v)], the coercion of a template literal.  An object from
    [JSON.parse] has no callable property, so its own [toString] member, if
    any, hides [Object.prototype.toString] and the coercion fails. *)
Fixpoint ToString (v : jsval) : result string :=
  match v with
  | VUndef => Ok "undefined"
  | VNull => Ok "null"
  | VBool b => Ok (Boolean_toString b)
  | VNum n => Ok (Number_toString n)
  | VStr s => Ok s
  | VArr elems =>
      parts ← (fix each (l : list jsval) : result (list string) :=
                 match l with
                 | [] => Ok []
                 | x :: r =>
                     s ← match x with
                         | VUndef | VNull => Ok EmptyString
                         | _ => ToString x
                         end;
                     t ← each r;
                     Ok (s :: t)
                 end) elems;
      Ok (join "," parts)
  | VObj props =>
      if has_own props "toString"
      then Throw (TypeError "Cannot convert object to primitive value")
      else Ok "[object Object]"
  end.

(** [v.k] for the property names the converter reads ([ps], [id], [add],
    [port], ...): none of them is inherited or built in, so only an own
    property of an object answers; reading from [null] or [undefined]
    throws. *)
Definition prop (v : jsval) (k : string) : result jsval :=
  match v with
  | VUndef | VNull =>
      Throw (TypeError ("Cannot read properties of "
                          +:+ (if v is VNull then "null" else "undefined")
                          +:+ " (reading '" +:+ k +:+ "')"))
  | VObj props => Ok (obj_get props k)
  | _ => Ok VUndef
  end.

(** [parseInt(v, 10)] *)
Definition parseInt (v : jsval) : result jsnum :=
  s ← ToString v; Ok (parseInt_string s).

(** A template literal: the pieces are evaluated and joined from left to
    right. *)
Fixpoint template (parts : list (result string)) : result string :=
  match parts with
  | [] => Ok EmptyString
  | p :: r => s ← p; t ← template r; Ok (s +:+ t)
  end.

(** [xs[i]] of a destructured array of strings; [None] is [undefined]. *)
Definition elem (xs : list string) (i : nat) : option string := xs !! i.

(** The string an absent-or-present string coerces to. *)
Definition String_of (o : option string) : string := default "undefined" o.

(** [o || d] for a string that may be [undefined] *)
Definition or_str (o : option string) (d : string) : string :=
  match o with
  | Some s => if String.eqb s EmptyString then d else s
  | None => d
  end.

(** Calling [.split] on a value that may be [undefined]. *)
Definition receiver (o : option string) (method : string) : result string :=
  match o with
  | Some s => Ok s
  | None =>
      Throw (TypeError ("Cannot read properties of undefined (reading '"
                          +:+ method +:+ "')"))
  end.

End JS.

(* ================================================================== *)
(** * A reader and a printer for compact JSON                          *)
(* ================================================================== *)

(** The converter is stated over any [JSON.parse], [JSON.stringify] and
    [yaml.dump].  The examples need instances: a reader for the compact flat
    objects that vmess links carry (string, integer and literal members, no
    escapes, no white space; [None] outside that grammar), and a compact
    printer (no escapes, no indentation). *)
Module CompactJSON.
Import JS.

Definition dquote : ascii := ascii_of_nat 34.

(** The text up to the closing quote. *)
Fixpoint read_string (s : string) : option (string * string) :=
  match s with
  | EmptyString => None
  | String c r =>
      if Ascii.eqb c dquote then Some (EmptyString, r)
      else if Ascii.eqb c "\" then None
      else '(t, rest) ← read_string r; Some (String c t, rest)
  end.

Fixpoint skip_digits (s : string) : string :=
  match s with
  | String c r => if between 48 57 c then skip_digits r else s
  | EmptyString => s
  end.

Definition read_value (s : string) : option (jsval * string) :=
  match s with
  | String c r =>
      if Ascii.eqb c dquote then
        '(t, rest) ← read_string r; Some (VStr t, rest)
      else if String.prefix "true" s then Some (VBool true, drop_chars 4 s)
      else if String.prefix "false" s then Some (VBool false, drop_chars 5 s)
      else if String.prefix "null" s then Some (VNull, drop_chars 4 s)
      else if Ascii.eqb c "-" && starts_with_digit r then
        Some (VNum (Int (- digits_from r 0)), skip_digits r)
      else if starts_with_digit s then
        Some (VNum (Int (digits_from s 0)), skip_digits s)
      else None
  | EmptyString => None
  end.

Fixpoint read_members (fuel : nat) (s : string) (acc : obj) : option obj :=
  match fuel with
  | O => None
  | S fuel =>
      match s with
      | String q r =>
          if Ascii.eqb q dquote then
            '(k, r) ← read_string r;
            match r with
            | String ":" r =>
                '(v, r) ← read_value r;
                match r with
                | String "," r => read_members fuel r (obj_set acc k v)
                | String "}" EmptyString => Some (obj_set acc k v)
                | _ => None
                end
            | _ => None
            end
          else None
      | EmptyString => None
      end
  end.

Definition parse (s : string) : option jsval :=
  match s with
  | String "{" (String "}" EmptyString) => Some (VObj [])
  | String "{" r => VObj <$> read_members (String.length r) r []
  | _ => None
  end.

Definition quoted (s : string) : string :=
  String dquote (s +:+ String dquote EmptyString).

Fixpoint print (v : jsval) : string :=
  match v with
  | VUndef | VNull => "null"
  | VBool b => Boolean_toString b
  | VNum NaN => "null"
  | VNum n => Number_toString n
  | VStr s => quoted s
  | VArr elems =>
      "[" +:+ join "," ((fix each (l : list jsval) : list string :=
                           match l with
                           | [] => []
                           | x :: r => print x :: each r
                           end) elems) +:+ "]"
  | VObj props =>
      "{" +:+ join "," ((fix each (l : list (string * jsval)) : list string :=
                           match l with
                           | [] => []
                           | (_, VUndef) :: r => each r
                           | (k, x) :: r => (quoted k +:+ ":" +:+ print x) :: each r
                           end) props) +:+ "}"
  end.

(** [print] as an instance of [yaml.dump]: compact JSON is YAML. *)
Definition dump (v : jsval) : result string := Ok (print v).

End CompactJSON.

Import JS.

Notation "o @ k" := (obj_get o k) (at level 9, k at level 0, format "o @ k").

(* ================================================================== *)
(** * Parsers                                                          *)
(* ================================================================== *)

Definition of_opt (o : option string) : jsval :=
  match o with
  | Some s => VStr s
  | None => VUndef
  end.

Definition str_truthy (o : option string) : bool :=
  match o with
  | Some s => negb (String.eqb s EmptyString)
  | None => false
  end.

(** [try { name = decodeURIComponent(text) } catch (e) { name = text }] *)
Definition decode_or_raw (text : string) : string :=
  match decodeURIComponent text with
  | Ok name => name
  | Throw _ => text
  end.

(** [params[k] = v] on the plain object [params] of a parser *)
Definition param_set (params : gmap string string) (k v : string)
  : gmap string string :=
  if String.eqb k "__proto__" then params else <[k := v]> params.

(** The callback of [queryParams.split('&').forEach] in [parseVLESS]. *)
Definition vless_pair (params : gmap string string) (pair : string)
  : result (gmap string string) :=
  let key := elem (split pair "=") 0 in
  let value := elem (split pair "=") 1 in
  if str_truthy key then
    k ← decodeURIComponent (String_of key);
    v ← decodeURIComponent (or_str value EmptyString);
    Ok (param_set params k v)
  else Ok params.

Fixpoint forEach {A} (f : A → string → result A) (xs : list string) (a : A)
  : result A :=
  match xs with
  | [] => Ok a
  | x :: rest => a' ← f a x; forEach f rest a'
  end.

(** The part of [parseVLESS] before the record is built: identifier, host,
    port text, query parameters and fragment. *)
Definition vless_fields (link : string)
  : result (option string * option string * option string
            * gmap string string * string) :=
  let clean := replace link "vless://" EmptyString in
  let userinfo := elem (split clean "@") 0 in
  let rest := elem (split clean "@") 1 in
  userinfo ← receiver userinfo "split";
  let uuid := elem (split userinfo ":") 0 in
  rest ← receiver rest "split";
  let hostport := elem (split rest "?") 0 in
  let paramString := elem (split rest "?") 1 in
  hostport ← receiver hostport "split";
  let host := elem (split hostport ":") 0 in
  let port := elem (split hostport ":") 1 in
  if str_truthy paramString then
    let paramParts := split (String_of paramString) "#" in
    let queryParams := elem paramParts 0 in
    let fragmentName := or_str (elem paramParts 1) EmptyString in
    params ← (if str_truthy queryParams
              then forEach vless_pair (split (String_of queryParams) "&") ∅
              else Ok ∅);
    Ok (uuid, host, port, params, fragmentName)
  else Ok (uuid, host, port, ∅, EmptyString).

Definition parseVLESS (link : string) : result obj :=
  if negb (startsWith link "vless://") then Throw (Error "Bukan link VLESS")
  else
    '(uuid, host, port, params, fragmentName) ← vless_fields link;
    let name :=
      if negb (String.eqb fragmentName EmptyString)
      then decode_or_raw fragmentName else "VLESS Server" in
    Ok (object_literal
          [ ("type", VStr "vless");
            ("uuid", of_opt uuid);
            ("host", of_opt host);
            ("port", VNum (parseInt_string (String_of port)));
            ("security", VStr (or_str (params !! "security") "none"));
            ("flow", VStr (or_str (params !! "flow") EmptyString));
            ("network", VStr (or_str (params !! "type") "tcp"));
            ("path", VStr (or_str (params !! "path")
                             (if bool_decide (params !! "type" = Some "ws")
                              then "/" else EmptyString)));
            ("host_header", VStr (or_str (params !! "host") EmptyString));
            ("sni", or_else (of_opt (params !! "sni"))
                      (or_else (of_opt (params !! "host")) (of_opt host)));
            ("fp", VStr (or_str (params !! "fp") EmptyString));
            ("pbk", VStr (or_str (params !! "pbk") EmptyString));
            ("sid", VStr (or_str (params !! "sid") EmptyString));
            ("spx", VStr (or_str (params !! "spx") EmptyString));
            ("alpn", VStr (or_str (params !! "alpn") EmptyString));
            ("allowInsecure",
              VBool (bool_decide (params !! "allowInsecure" = Some "1")
                     || bool_decide (params !! "allowInsecure" = Some "true")
                     || false));
            ("name", VStr name) ]).

(** The callback of [paramString.split('&').forEach] in [parseTrojan]; the
    default [value = ''] replaces a missing value. *)
Definition trojan_pair (params : gmap string string) (pair : string)
  : result (gmap string string) :=
  if negb (String.eqb pair EmptyString) then
    let key := elem (split pair "=") 0 in
    let value := default EmptyString (elem (split pair "=") 1) in
    if str_truthy key then
      k ← decodeURIComponent (String_of key);
      v ← decodeURIComponent value;
      Ok (param_set params k v)
    else Ok params
  else Ok params.

(** The three parts [parseTrojan] cuts the link into:
    [userinfo_and_serverinfo], [paramString] and [fragment]. *)
Definition trojan_cut (cleanLink : string) : string * string * string :=
  let paramStartIndex := indexOf cleanLink "?" in
  let fragmentStartIndex := indexOf cleanLink "#" in
  if (paramStartIndex =? -1)%Z && (fragmentStartIndex =? -1)%Z then
    (cleanLink, EmptyString, EmptyString)
  else if negb (paramStartIndex =? -1)%Z && (fragmentStartIndex =? -1)%Z then
    (substring cleanLink 0 paramStartIndex,
     substring_from cleanLink (paramStartIndex + 1), EmptyString)
  else if (paramStartIndex =? -1)%Z && negb (fragmentStartIndex =? -1)%Z then
    (substring cleanLink 0 fragmentStartIndex, EmptyString,
     substring_from cleanLink (fragmentStartIndex + 1))
  else
    let userinfo_and_serverinfo := substring cleanLink 0 paramStartIndex in
    if (fragmentStartIndex >? paramStartIndex)%Z then
      (userinfo_and_serverinfo,
       substring cleanLink (paramStartIndex + 1) fragmentStartIndex,
       substring_from cleanLink (fragmentStartIndex + 1))
    else
      (userinfo_and_serverinfo,
       substring_from cleanLink (paramStartIndex + 1), EmptyString).

Definition parseTrojan (link : string) : result obj :=
  if negb (startsWith link "trojan://") then Throw (Error "Bukan link Trojan")
  else
    let cleanLink := substring_from link (Z.of_nat (String.length "trojan://")) in
    let '(userinfo_and_serverinfo, paramString, fragment) := trojan_cut cleanLink in
    let userinfo := elem (split userinfo_and_serverinfo "@") 0 in
    let serverinfo := elem (split userinfo_and_serverinfo "@") 1 in
    if negb (str_truthy userinfo) || negb (str_truthy serverinfo) then
      Throw (Error "Invalid Trojan link format: Missing userinfo or serverinfo")
    else
      let host := elem (split (String_of serverinfo) ":") 0 in
      let portStr := elem (split (String_of serverinfo) ":") 1 in
      let port := parseInt_string (String_of portStr) in
      if isNaN port then Throw (Error "Invalid Trojan link format: Invalid port")
      else
        params ← (if negb (String.eqb paramString EmptyString)
                  then forEach trojan_pair (split paramString "&") ∅
                  else Ok ∅);
        let name :=
          if negb (String.eqb fragment EmptyString)
          then decode_or_raw fragment else "Trojan Server" in
        password ← decodeURIComponent (String_of userinfo);
        Ok (object_literal
              [ ("type", VStr "trojan");
                ("password", VStr password);
                ("host", of_opt host);
                ("port", VNum port);
                ("security", VStr "tls");
                ("network", VStr (or_str (params !! "type") "tcp"));
                ("path", VStr (or_str (params !! "path")
                                 (if bool_decide (params !! "type" = Some "ws")
                                  then "/" else EmptyString)));
                ("host_header", or_else (of_opt (params !! "host")) (of_opt host));
                ("sni", or_else (of_opt (params !! "sni"))
                          (or_else (of_opt (params !! "host")) (of_opt host)));
                ("alpn", VStr (or_str (params !! "alpn") EmptyString));
                ("fp", VStr (or_str (params !! "fp") EmptyString));
                ("allowInsecure",
                  VBool (bool_decide (params !! "allowInsecure" = Some "1")
                         || bool_decide (params !! "allowInsecure" = Some "true")
                         || false));
                ("name", VStr name) ]).

(** The [try] block of [parseSS]: method and password out of the userinfo. *)
Definition ss_credentials (userinfo : string) : result (jsval * jsval) :=
  try_catch
    (let decoded := toString_utf8 (Buffer_from_base64 userinfo) in
     let m := elem (split_limit decoded ":" 2) 0 in
     let p := elem (split_limit decoded ":" 2) 1 in
     Ok (of_opt m, of_opt p))
    (λ _, Throw (Error "Invalid Shadowsocks base64 encoding")).

Definition parseSS (link : string) : result obj :=
  if negb (startsWith link "ss://") then Throw (Error "Not a Shadowsocks link")
  else
    let fragmentIndex := indexOf link "#" in
    let fragment :=
      if negb (fragmentIndex =? -1)%Z
      then substring_from link (fragmentIndex + 1) else EmptyString in
    let clean :=
      replace (substring link 0
                 (if negb (fragmentIndex =? -1)%Z then fragmentIndex
                  else Z.of_nat (String.length link)))
        "ss://" EmptyString in
    let userinfo := elem (split clean "@") 0 in
    let hostport := elem (split clean "@") 1 in
    hostport ← receiver hostport "split";
    let host := elem (split hostport ":") 0 in
    let portWithParams := elem (split hostport ":") 1 in
    portWithParams ← receiver portWithParams "split";
    let portPart := elem (split portWithParams "?") 0 in
    let paramParts := List.tl (split portWithParams "?") in
    let port := parseInt_string (String_of portPart) in
    '(method, password) ← ss_credentials (String_of userinfo);
    let params := URLSearchParams (join "?" paramParts) in
    let has_params := negb (Nat.eqb (List.length paramParts) 0) in
    let rawPlugin :=
      if has_params then or_str (URLSearchParams_get params "plugin") EmptyString
      else EmptyString in
    let parts := split rawPlugin ";" in
    let plugin :=
      if negb (String.eqb rawPlugin EmptyString)
      then String_of (elem parts 0) else EmptyString in
    let plugin_opts :=
      if negb (String.eqb rawPlugin EmptyString)
      then join ";" (List.tl parts) else EmptyString in
    let obfs :=
      if has_params then or_str (URLSearchParams_get params "obfs") EmptyString
      else EmptyString in
    let obfsHost :=
      if has_params
      then or_str (URLSearchParams_get params "obfs-host") EmptyString
      else EmptyString in
    let name :=
      if negb (String.eqb fragment EmptyString)
      then decode_or_raw fragment else "SS Server" in
    Ok (object_literal
          [ ("type", VStr "ss");
            ("method", method);
            ("password", password);
            ("host", of_opt host);
            ("port", VNum port);
            ("plugin", VStr plugin);
            ("plugin_opts", VStr plugin_opts);
            ("obfs", VStr obfs);
            ("obfsHost", VStr obfsHost);
            ("name", VStr name) ]).

(* ================================================================== *)
(** * The converter, over the libraries it calls                       *)
(* ================================================================== *)

Section Converter.

(** [JSON.parse]: [None] when it throws. *)
Context (JSON_parse : string → option jsval).
(** [yaml.dump(value, { indent: 2 })] of js-yaml. *)
Context (yaml_dump : jsval → result string).
(** [JSON.stringify(value, null, 2)]; it has no failure case on the values
    of [jsval]. *)
Context (JSON_stringify : jsval → string).

(** The text [parseVMess] hands to [JSON.parse]:
    [Buffer.from(base64, 'base64').toString('utf8')]. *)
Definition vmess_json (link : string) : string :=
  let base64 := replace link "vmess://" EmptyString in
  toString_utf8 (Buffer_from_base64 base64).

(** The rest of the [try] block of [parseVMess], from the parsed payload to
    the record.  The literal of the source writes the key [type] twice. *)
Definition vmess_record (obj : jsval) : result (list (string * jsval)) :=
  ps ← prop obj "ps";
  name ← (if truthy ps
          then try_catch (s ← ToString ps; t ← decodeURIComponent s; Ok (VStr t))
                 (λ _, Ok ps)
          else Ok (VStr "VMess Server"));
  id ← prop obj "id";
  add ← prop obj "add";
  port ← prop obj "port" ≫= parseInt;
  aid ← prop obj "aid" ≫= parseInt;
  sc ← prop obj "sc";
  cipher ← prop obj "cipher";
  net ← prop obj "net";
  type ← prop obj "type";
  path ← prop obj "path";
  host ← prop obj "host";
  sni ← prop obj "sni";
  tls ← prop obj "tls";
  alpn ← prop obj "alpn";
  fp ← prop obj "fp";
  Ok (object_literal
        [ ("type", VStr "vmess");
          ("uuid", id);
          ("host", add);
          ("port", VNum port);
          ("alterId", or_else (VNum aid) (VNum (Int 0)));
          ("security", or_else sc (or_else cipher (VStr "auto")));
          ("network", or_else net (VStr "tcp"));
          ("type", or_else type (VStr "none"));
          ("path", or_else path
                     (VStr (if is_str net "ws" then "/" else EmptyString)));
          ("host_header", or_else host add);
          ("sni", or_else sni (or_else host add));
          ("tls", VBool (is_str tls "tls"));
          ("alpn", or_else alpn (VStr EmptyString));
          ("fp", or_else fp (VStr EmptyString));
          ("name", name) ]).

Definition parseVMess (link : string) : result obj :=
  if negb (startsWith link "vmess://") then Throw (Error "Bukan link VMess")
  else
    try_catch
      (obj ← match JSON_parse (vmess_json link) with
             | Some v => Ok v
             | None => Throw (SyntaxError "Unexpected token in JSON")
             end;
       vmess_record obj)
      (λ _, Throw (Error "Invalid VMess base64 JSON")).

Definition parseAnyLink (link : string) : result obj :=
  if String.eqb link EmptyString then
    Throw (Error "Link must be a non-empty string")
  else if (2000 <? JS.length link)%nat then Throw (Error "Link is too long")
  else if startsWith link "vless://" then parseVLESS link
  else if startsWith link "vmess://" then parseVMess link
  else if startsWith link "trojan://" then parseTrojan link
  else if startsWith link "ss://" then parseSS link
  else Throw (Error "Unsupported protocol. Supported: vless, vmess, trojan, ss").

(* ------------------------------------------------------------------ *)
(** ** Serialisers                                                     *)
(* ------------------------------------------------------------------ *)

(** [v.split(',')] on a record field: only a string has the method. *)
Definition field_split (v : jsval) (sep : ascii) (what : string)
  : result (list string) :=
  match v with
  | VStr s => Ok (split s sep)
  | _ => Throw (TypeError (what +:+ ".split is not a function"))
  end.

(** [config.alpn.split(',').map(a => a.trim())] *)
Definition alpn_trimmed (alpn : jsval) : result jsval :=
  l ← field_split alpn "," "config.alpn";
  Ok (VArr ((λ a, VStr (trim a)) <$> l)).

(** [config.alpn.split(',').map(a => a.trim()).filter(a => a)] *)
Definition alpn_trimmed_nonempty (alpn : jsval) : result jsval :=
  l ← field_split alpn "," "config.alpn";
  Ok (VArr (VStr <$> filter (λ a, a ≠ EmptyString) (trim <$> l))).

(** The block [if (config.network === 'ws') { ... }] that closes the vless,
    vmess and trojan cases of [toClash]. *)
Definition clash_ws (config clashConfig : obj) : obj :=
  if is_str config@"network" "ws" then
    let clashConfig := obj_set clashConfig "network" (VStr "ws") in
    let clashConfig :=
      obj_set clashConfig "ws-path" (or_else config@"path" (VStr "/")) in
    if truthy config@"host_header"
    then obj_set clashConfig "ws-headers" (VObj [("host", config@"host_header")])
    else clashConfig
  else clashConfig.

Definition set_if (c : bool) (o : obj) (k : string) (v : jsval) : obj :=
  if c then obj_set o k v else o.

(** The callback of [config.plugin_opts.split(';').forEach] in [toClash]. *)
Definition clash_plugin_opt (opts : obj) (part : string) : result obj :=
  if negb (String.eqb part EmptyString) then
    let key := String_of (elem (split part "=") 0) in
    let value := join "=" (List.tl (split part "=")) in
    if String.eqb key "tls" then Ok (obj_assign opts key (VBool true))
    else if negb (String.eqb value EmptyString)
         then Ok (obj_assign opts key (VStr value))
         else Ok opts
  else Ok opts.

(** The object [toClash] hands to [yaml.dump]. *)
Definition toClash_config (config : obj) : result obj :=
  let clashConfig :=
    object_literal
      [ ("name", config@"name");
        ("type", config@"type");
        ("server", config@"host");
        ("port", config@"port");
        ("udp", VBool true);
        ("skip-cert-verify", VBool (truthy config@"allowInsecure")) ] in
  if is_str config@"type" "vless" then
    let clashConfig := obj_set clashConfig "uuid" config@"uuid" in
    let tls := is_str config@"security" "tls"
               || is_str config@"security" "reality" in
    let clashConfig := obj_set clashConfig "tls" (VBool tls) in
    clashConfig ←
      (if tls then
         let clashConfig :=
           set_if (truthy config@"sni") clashConfig "servername" config@"sni" in
         clashConfig ←
           (if truthy config@"alpn"
            then l ← alpn_trimmed config@"alpn"; Ok (obj_set clashConfig "alpn" l)
            else Ok clashConfig);
         let clashConfig :=
           set_if (truthy config@"fp") clashConfig "fingerprint" config@"fp" in
         if is_str config@"security" "reality" then
           let clashConfig :=
             obj_set clashConfig "client-fingerprint" config@"fp" in
           let clashConfig :=
             set_if (truthy config@"pbk") clashConfig "public-key" config@"pbk" in
           let clashConfig :=
             set_if (truthy config@"sid") clashConfig "short-id" config@"sid" in
           Ok (set_if (truthy config@"spx") clashConfig "spider-x" config@"spx")
         else if is_str config@"security" "tls" then
           Ok (set_if (truthy config@"flow") clashConfig "flow" config@"flow")
         else Ok clashConfig
       else Ok clashConfig);
    Ok (clash_ws config clashConfig)
  else if is_str config@"type" "vmess" then
    let clashConfig := obj_set clashConfig "uuid" config@"uuid" in
    let clashConfig := obj_set clashConfig "alterId" config@"alterId" in
    let clashConfig := obj_set clashConfig "cipher" config@"security" in
    let clashConfig := obj_set clashConfig "tls" (VBool (truthy config@"tls")) in
    clashConfig ←
      (if truthy config@"tls" then
         let clashConfig :=
           set_if (truthy config@"sni") clashConfig "servername" config@"sni" in
         clashConfig ←
           (if truthy config@"alpn"
            then l ← alpn_trimmed config@"alpn"; Ok (obj_set clashConfig "alpn" l)
            else Ok clashConfig);
         Ok (set_if (truthy config@"fp") clashConfig "fingerprint" config@"fp")
       else Ok clashConfig);
    Ok (clash_ws config clashConfig)
  else if is_str config@"type" "trojan" then
    let clashConfig := obj_set clashConfig "password" config@"password" in
    let clashConfig := obj_set clashConfig "tls" (VBool true) in
    let clashConfig :=
      set_if (truthy config@"sni") clashConfig "sni" config@"sni" in
    clashConfig ←
      (if truthy config@"alpn"
       then l ← alpn_trimmed config@"alpn"; Ok (obj_set clashConfig "alpn" l)
       else Ok clashConfig);
    let clashConfig :=
      set_if (truthy config@"fp") clashConfig "fingerprint" config@"fp" in
    Ok (clash_ws config clashConfig)
  else if is_str config@"type" "ss" then
    let clashConfig := obj_set clashConfig "cipher" config@"method" in
    let clashConfig := obj_set clashConfig "password" config@"password" in
    if truthy config@"plugin" then
      let clashConfig := obj_set clashConfig "plugin" config@"plugin" in
      opts ←
        (if truthy config@"plugin_opts"
         then parts ← field_split config@"plugin_opts" ";" "config.plugin_opts";
              forEach clash_plugin_opt parts []
         else Ok []);
      if (0 <? Object_keys_length opts)%nat then
        Ok (obj_set clashConfig "plugin-opts" (VObj opts))
      else if truthy config@"obfs" then
        Ok (obj_set clashConfig "plugin-opts"
              (VObj [("mode", config@"obfs"); ("host", config@"obfsHost")]))
      else Ok clashConfig
    else Ok clashConfig
  else
    msg ← template [Ok "Tidak dapat mengkonversi protokol '";
                    ToString config@"type"; Ok "' ke format Clash."];
    Throw (Error msg).

(** [yaml.dump([clashConfig], { indent: 2 }).trim()] *)
Definition toClash (config : obj) : result string :=
  clashConfig ← toClash_config config;
  text ← yaml_dump (VArr [VObj clashConfig]);
  Ok (trim text).

(** [opts += `...`] *)
Definition add (opts : string) (parts : list (result string)) : result string :=
  s ← template parts; Ok (opts +:+ s).

Definition add_if (c : bool) (opts : string) (parts : list (result string))
  : result string :=
  if c then add opts parts else Ok opts.

Definition skip_cert_verify (config : obj) : string :=
  "skip-cert-verify=" +:+ Boolean_toString (truthy config@"allowInsecure").

(** The [ws] options of a Surge or Quantumult line; [header] is
    [ws-headers] for Surge and [ws-header] for Quantumult. *)
Definition line_ws (header : string) (config : obj) (opts : string)
  : result string :=
  if is_str config@"network" "ws" then
    opts ← add opts [Ok ", ws=true, ws-path="; ToString config@"path"];
    add_if (truthy config@"host_header") opts
      [Ok (", " +:+ header +:+ "=host:"); ToString config@"host_header"]
  else Ok opts.

Definition toSurge (config : obj) : result string :=
  if is_str config@"type" "vless" then
    let vlessOpts := skip_cert_verify config in
    vlessOpts ←
      (if is_str config@"security" "tls" then
         vlessOpts ← add vlessOpts [Ok ", tls=true, sni="; ToString config@"sni"];
         vlessOpts ← add_if (truthy config@"alpn") vlessOpts
                       [Ok ", alpn="; ToString config@"alpn"];
         add_if (truthy config@"fp") vlessOpts
           [Ok ", server-cert-fingerprint-sha256="; ToString config@"fp"]
       else if is_str config@"security" "reality" then
         add vlessOpts [Ok ", tls=true, sni="; ToString config@"sni"]
       else Ok vlessOpts);
    vlessOpts ← add_if (truthy config@"flow") vlessOpts
                  [Ok ", flow="; ToString config@"flow"];
    vlessOpts ← line_ws "ws-headers" config vlessOpts;
    template [ToString config@"name"; Ok " = vless, "; ToString config@"host";
              Ok ", "; ToString config@"port"; Ok ", username=";
              ToString config@"uuid"; Ok ", "; Ok vlessOpts]
  else if is_str config@"type" "vmess" then
    let vmessOpts := skip_cert_verify config in
    vmessOpts ←
      (if truthy config@"tls" then
         vmessOpts ← add vmessOpts [Ok ", tls=true, sni="; ToString config@"sni"];
         vmessOpts ← add_if (truthy config@"alpn") vmessOpts
                       [Ok ", alpn="; ToString config@"alpn"];
         add_if (truthy config@"fp") vmessOpts
           [Ok ", server-cert-fingerprint-sha256="; ToString config@"fp"]
       else Ok vmessOpts);
    vmessOpts ← line_ws "ws-headers" config vmessOpts;
    template [ToString config@"name"; Ok " = vmess, "; ToString config@"host";
              Ok ", "; ToString config@"port"; Ok ", username=";
              ToString config@"uuid"; Ok ", "; Ok vmessOpts]
  else if is_str config@"type" "trojan" then
    let trojanOpts := skip_cert_verify config in
    trojanOpts ← add trojanOpts [Ok ", sni="; ToString config@"sni"];
    trojanOpts ← add_if (truthy config@"alpn") trojanOpts
                   [Ok ", alpn="; ToString config@"alpn"];
    trojanOpts ← add_if (truthy config@"fp") trojanOpts
                   [Ok ", server-cert-fingerprint-sha256="; ToString config@"fp"];
    trojanOpts ← line_ws "ws-headers" config trojanOpts;
    template [ToString config@"name"; Ok " = trojan, "; ToString config@"host";
              Ok ", "; ToString config@"port"; Ok ", password=";
              ToString config@"password"; Ok ", "; Ok trojanOpts]
  else if is_str config@"type" "ss" then
    if truthy config@"plugin" then
      template [ToString config@"name"; Ok " = custom, "; ToString config@"host";
                Ok ", "; ToString config@"port"; Ok ", ";
                ToString config@"method"; Ok ", "; ToString config@"password";
                Ok ", https://raw.githubusercontent.com/ConnersHua/SSEncrypt/master/SSEncrypt.module"]
    else
      template [ToString config@"name"; Ok " = ss, "; ToString config@"host";
                Ok ", "; ToString config@"port"; Ok ", ";
                ToString config@"method"; Ok ", "; ToString config@"password"]
  else
    msg ← template [Ok "Unsupported type for Surge: "; ToString config@"type"];
    Throw (Error msg).

Definition toQuantumult (config : obj) : result string :=
  if is_str config@"type" "vless" then
    let vlessParams := skip_cert_verify config in
    vlessParams ←
      (if is_str config@"security" "tls" then
         vlessParams ← add vlessParams
                         [Ok ", tls=true, sni="; ToString config@"sni"];
         vlessParams ← add_if (truthy config@"alpn") vlessParams
                         [Ok ", alpn="; ToString config@"alpn"];
         add_if (truthy config@"fp") vlessParams
           [Ok ", tls-cert-sha256="; ToString config@"fp"]
       else if is_str config@"security" "reality" then
         add vlessParams [Ok ", tls=true, sni="; ToString config@"sni"]
       else Ok vlessParams);
    vlessParams ← add_if (truthy config@"flow") vlessParams
                    [Ok ", flow="; ToString config@"flow"];
    vlessParams ← line_ws "ws-header" config vlessParams;
    template [Ok "vmess="; ToString config@"host"; Ok ":"; ToString config@"port";
              Ok ", method=none, password="; ToString config@"uuid"; Ok ", ";
              Ok vlessParams; Ok ", tag="; ToString config@"name"]
  else if is_str config@"type" "vmess" then
    let vmessParams := skip_cert_verify config in
    vmessParams ←
      (if truthy config@"tls" then
         vmessParams ← add vmessParams
                         [Ok ", tls="; ToString config@"tls"; Ok ", sni=";
                          ToString config@"sni"];
         vmessParams ← add_if (truthy config@"alpn") vmessParams
                         [Ok ", alpn="; ToString config@"alpn"];
         add_if (truthy config@"fp") vmessParams
           [Ok ", tls-cert-sha256="; ToString config@"fp"]
       else Ok vmessParams);
    vmessParams ← line_ws "ws-header" config vmessParams;
    template [Ok "vmess="; ToString config@"host"; Ok ":"; ToString config@"port";
              Ok ", method=none, password="; ToString config@"uuid"; Ok ", ";
              Ok vmessParams; Ok ", tag="; ToString config@"name"]
  else if is_str config@"type" "trojan" then
    let trojanParams := skip_cert_verify config in
    trojanParams ← add trojanParams
                     [Ok ", over-tls=true, tls-host="; ToString config@"sni"];
    trojanParams ← add_if (truthy config@"alpn") trojanParams
                     [Ok ", alpn="; ToString config@"alpn"];
    trojanParams ← add_if (truthy config@"fp") trojanParams
                     [Ok ", tls-cert-sha256="; ToString config@"fp"];
    trojanParams ← line_ws "ws-header" config trojanParams;
    template [Ok "trojan="; ToString config@"host"; Ok ":"; ToString config@"port";
              Ok ", password="; ToString config@"password"; Ok ", ";
              Ok trojanParams; Ok ", tag="; ToString config@"name"]
  else if is_str config@"type" "ss" then
    ssParams ← template [Ok "encrypt-method="; ToString config@"method";
                         Ok ", password="; ToString config@"password"];
    ssParams ← add_if (truthy config@"obfs") ssParams
                 [Ok ", obfs="; ToString config@"obfs"; Ok ", obfs-host=";
                  ToString config@"obfsHost"];
    template [Ok "shadowsocks="; ToString config@"host"; Ok ":";
              ToString config@"port"; Ok ", method="; ToString config@"method";
              Ok ", password="; ToString config@"password"; Ok ", ";
              Ok ssParams; Ok ", tag="; ToString config@"name"]
  else
    msg ← template [Ok "Unsupported type for Quantumult: "; ToString config@"type"];
    Throw (Error msg).

(** The [transport] object of a websocket outbound. *)
Definition singbox_ws (config : obj) : jsval :=
  VObj [ ("type", VStr "ws");
         ("path", or_else config@"path" (VStr "/"));
         ("headers", if truthy config@"host_header"
                     then VObj [("host", config@"host_header")] else VObj []) ].

(** [{ enabled: true, fingerprint: config.fp || "chrome" }] *)
Definition singbox_utls (config : obj) : jsval :=
  VObj [ ("enabled", VBool true);
         ("fingerprint", or_else config@"fp" (VStr "chrome")) ].

(** The object [toSingBox] hands to [JSON.stringify]. *)
Definition toSingBox_base (config : obj) : result obj :=
  let base :=
    object_literal
      [ ("tag", config@"name");
        ("type", if is_str config@"type" "ss" then VStr "shadowsocks"
                 else config@"type");
        ("server", config@"host");
        ("server_port", config@"port") ] in
  if is_str config@"type" "vless" || is_str config@"type" "vmess" then
    let base := obj_set base "uuid" config@"uuid" in
    let base :=
      set_if (is_str config@"type" "vmess") base "alter_id" config@"alterId" in
    let base :=
      set_if (is_str config@"network" "ws") base "transport" (singbox_ws config) in
    let base :=
      set_if (is_str config@"network" "grpc") base "transport"
        (VObj [ ("type", VStr "grpc");
                ("service_name", or_else config@"serviceName" (VStr EmptyString)) ]) in
    base ←
      (if is_str config@"security" "tls" || is_str config@"security" "reality"
          || truthy config@"tls" then
         let tls :=
           object_literal
             [ ("enabled", VBool true);
               ("server_name", or_else config@"sni" config@"host");
               ("insecure", VBool (truthy config@"allowInsecure")) ] in
         tls ← (if truthy config@"alpn"
                then l ← alpn_trimmed_nonempty config@"alpn";
                     Ok (obj_set tls "alpn" l)
                else Ok tls);
         let tls :=
           if is_str config@"security" "reality" then
             let tls := obj_set tls "utls" (singbox_utls config) in
             let tls :=
               obj_set tls "reality"
                 (VObj [ ("enabled", VBool true);
                         ("public_key", config@"pbk");
                         ("short_id", config@"sid") ]) in
             obj_set tls "flow" (or_else config@"flow" (VStr EmptyString))
           else if is_str config@"security" "tls" then
             let tls := obj_set tls "utls" (singbox_utls config) in
             set_if (truthy config@"flow") tls "flow" config@"flow"
           else tls in
         Ok (obj_set base "tls" (VObj tls))
       else Ok (obj_set base "tls" (VObj [("enabled", VBool false)])));
    Ok (set_if (is_str config@"security" "none" && negb (truthy config@"tls"))
          base "tls" (VObj [("enabled", VBool false)]))
  else if is_str config@"type" "trojan" then
    let base := obj_set base "password" config@"password" in
    let base :=
      set_if (is_str config@"network" "ws") base "transport" (singbox_ws config) in
    let tls :=
      object_literal
        [ ("enabled", VBool true);
          ("server_name", or_else config@"sni" config@"host");
          ("insecure", VBool (truthy config@"allowInsecure"));
          ("utls", singbox_utls config) ] in
    tls ← (if truthy config@"alpn"
           then l ← alpn_trimmed_nonempty config@"alpn"; Ok (obj_set tls "alpn" l)
           else Ok tls);
    Ok (obj_set base "tls" (VObj tls))
  else if is_str config@"type" "ss" then
    let base := obj_set base "method" config@"method" in
    let base := obj_set base "password" config@"password" in
    if truthy config@"plugin" then
      let base := obj_set base "plugin" config@"plugin" in
      Ok (set_if (truthy config@"plugin_opts") base "plugin_opts"
            config@"plugin_opts")
    else Ok base
  else Ok base.

(** [JSON.stringify(base, null, 2)] *)
Definition toSingBox (config : obj) : result string :=
  base ← toSingBox_base config;
  Ok (JSON_stringify (VObj base)).

(* ------------------------------------------------------------------ *)
(** ** Link extraction and batch processing                            *)
(* ------------------------------------------------------------------ *)

(** The [for] loop of [extractLinks]: [extractedLinks.push(link)] for the
    links that pass the test. *)
Fixpoint extractLinks_loop (potentialLinks extractedLinks : list string)
  : list string :=
  match potentialLinks with
  | [] => extractedLinks
  | link :: rest =>
      if (30 <? JS.length link)%nat && (includes link "@" || includes link "#")
      then extractLinks_loop rest (extractedLinks ++ [link])
      else extractLinks_loop rest extractedLinks
  end.

Definition extractLinks (rawInput : string) : result (list string) :=
  if String.eqb rawInput EmptyString then Throw (Error "Input link tidak valid.")
  else
    let potentialLinks :=
      filter (λ l, (0 < JS.length l)%nat) (trim <$> split rawInput ",") in
    let extractedLinks := extractLinks_loop potentialLinks [] in
    if Nat.eqb (List.length extractedLinks) 0 then
      Throw (Error "Tidak ditemukan link VPN yang valid dalam input GET.")
    else Ok extractedLinks.

(** The four fragments of one link. *)
Record formats : Type := Formats {
  clash : string;
  surge : string;
  quantumult : string;
  singbox : string
}.

(** One element of [results]: [{ original, formats, link, tag }] or
    [{ error, link }]. *)
Inductive entry : Type :=
| Converted (original : obj) (fmts : formats) (link : string) (tag : string)
| Failed (error : string) (link : string).

Definition entry_link (e : entry) : string :=
  match e with
  | Converted _ _ link _ => link
  | Failed _ link => link
  end.

(** [{ ...parsed, name: configName, network: parsed.network || 'tcp' }] *)
Definition batch_config (parsed : obj) (configName : string) : obj :=
  obj_set (obj_set parsed "name" (VStr configName))
    "network" (or_else parsed@"network" (VStr "tcp")).

(** [`${originalName}-${startIndex + i + 1} [vortexVpn]`] *)
Definition tag_of (originalName : string) (position : nat) : string :=
  originalName +:+ "-" +:+ decimal (N.of_nat position) +:+ " [vortexVpn]".

(** The [try] block of [processLinks] for the link at index [i]. *)
Definition convert (startIndex i : nat) (singleLink : string) : result entry :=
  parsed ← parseAnyLink singleLink;
  originalName ← ToString (or_else parsed@"name" (VStr "Proxy Server"));
  let configName := tag_of originalName (startIndex + i + 1) in
  let config := batch_config parsed configName in
  clash ← toClash config;
  surge ← toSurge config;
  quantumult ← toQuantumult config;
  singbox ← toSingBox config;
  Ok (Converted config (Formats clash surge quantumult singbox)
        singleLink configName).

(** One turn of the loop of [processLinks]: the element pushed for the link
    at index [i], by the [try] block or by its [catch]. *)
Definition pushed (startIndex i : nat) (singleLink : string) : entry :=
  match convert startIndex i singleLink with
  | Ok e => e
  | Throw convertError => Failed (message convertError) singleLink
  end.

(** The [for] loop of [processLinks], from index [i] on. *)
Fixpoint processLinks_loop (links : list string) (startIndex i : nat)
  (results : list entry) : list entry :=
  match links with
  | [] => results
  | singleLink :: rest =>
      processLinks_loop rest startIndex (S i)
        (results ++ [pushed startIndex i singleLink])
  end.

Definition processLinks (links : list string) (startIndex : nat) : list entry :=
  processLinks_loop links startIndex 0 [].

End Converter.

(* ================================================================== *)
(** * The batch processor on the array of a request body               *)
(* ================================================================== *)

(** [typeof v === 'string'] *)
Definition is_string (v : jsval) : bool :=
  match v with
  | VStr _ => true
  | _ => false
  end.

(** The elements of [req.body.links] are any values of [JSON.parse]:
    [getLinksFromBody] only checks [Array.isArray(links)].  The functions
    of this module are [parseAnyLink] and [processLinks] on such values;
    on strings they are the functions above. *)
Module Untyped.
Section Untyped.

Context (JSON_parse : string → option jsval).
Context (yaml_dump : jsval → result string).
Context (JSON_stringify : jsval → string).

Local Abbreviation parseAnyLink_text := (parseAnyLink JSON_parse).
Local Abbreviation convert_text := (convert JSON_parse yaml_dump JSON_stringify).

(** [parseAnyLink(link)]: the test [!link || typeof link !== 'string']
    comes first. *)
Definition parseAnyLink (link : jsval) : result obj :=
  match link with
  | VStr text => parseAnyLink_text text
  | _ => Throw (Error "Link must be a non-empty string")
  end.

(** What [singleLink.substring(0, 50)] throws on a value that is not a
    string: the value has no such method. *)
Definition no_substring (singleLink : jsval) : exn :=
  match singleLink with
  | VUndef =>
      TypeError "Cannot read properties of undefined (reading 'substring')"
  | VNull => TypeError "Cannot read properties of null (reading 'substring')"
  | _ => TypeError "singleLink.substring is not a function"
  end.

(** The [try] block of [processLinks]: it starts with
    [parseAnyLink(singleLink)], which throws on a value that is not a
    string. *)
Definition convert (startIndex i : nat) (singleLink : jsval) : result entry :=
  match singleLink with
  | VStr text => convert_text startIndex i text
  | _ => Throw (Error "Link must be a non-empty string")
  end.

(** One turn of the loop.  The [catch] block first logs
    [singleLink.substring(0, 50)], then pushes the failure entry: on a
    value that is not a string the log line throws, out of the [catch]
    block and out of [processLinks]. *)
Definition pushed (startIndex i : nat) (singleLink : jsval) : result entry :=
  match convert startIndex i singleLink with
  | Ok e => Ok e
  | Throw convertError =>
      match singleLink with
      | VStr text => Ok (Failed (message convertError) text)
      | _ => Throw (no_substring singleLink)
      end
  end.

(** The [for] loop of [processLinks], from index [i] on. *)
Fixpoint processLinks_loop (links : list jsval) (startIndex i : nat)
  (results : list entry) : result (list entry) :=
  match links with
  | [] => Ok results
  | singleLink :: rest =>
      e ← pushed startIndex i singleLink;
      processLinks_loop rest startIndex (S i) (results ++ [e])
  end.

Definition processLinks (links : list jsval) (startIndex : nat)
  : result (list entry) :=
  processLinks_loop links startIndex 0 [].

End Untyped.
End Untyped.

(* ================================================================== *)
(** * The template system                                              *)
(* ================================================================== *)

Module TemplateSystem.
Section TemplateSystem.

(** A compiled template, and [Handlebars.compile]. *)
Context {Template : Type} (Handlebars_compile : string → Template).
(** [path.join] and [fs.readFile(path, 'utf8')] of Node. *)
Context (path_join : list string → string) (readFile : string → result string).
(** [this.templatesDir] *)
Context (templatesDir : string).

(** The template system: the cache, and the log of the files read so far
    (the log is not in the source; it records the calls to [fs.readFile]).
    The cache is a NodeCache with [stdTTL: 3600]: within one call no entry
    is lost, and [later] below is the state after time has passed. *)
Record t : Type := Make {
  cache : gmap string Template;
  reads : list string
}.

(** The formats the request handlers accept. *)
Definition known_formats : list string :=
  ["clash"; "surge"; "quantumult"; "singbox"].

(** [extensionMap[format] || 'hbs'] *)
Definition extension (format : string) : string :=
  if String.eqb format "clash" then "yaml.hbs"
  else if String.eqb format "singbox" then "json.hbs"
  else if String.eqb format "surge" then "ini.hbs"
  else if String.eqb format "quantumult" then "ini.hbs"
  else "hbs".

Definition cacheKey (format level : string) : string := format +:+ ":" +:+ level.

Definition templatePath (format level : string) : string :=
  path_join [templatesDir; format; level +:+ "." +:+ extension format].

Definition load_error (format level : string) (error : exn) : exn :=
  Error ("Template for " +:+ format +:+ " at level " +:+ level
           +:+ " could not be loaded. Original error: " +:+ message error).

(** [loadTemplate(format, level)].  The recursion of the source is bounded
    by [fuel]; [None] is an exhausted bound. *)
Fixpoint loadTemplate (fuel : nat) (this : t) (format level : string)
  : option (t * result Template) :=
  match fuel with
  | O => None
  | S fuel =>
      match cache this !! cacheKey format level with
      | Some template => Some (this, Ok template)
      | None =>
          let this := Make (cache this) (reads this ++ [templatePath format level]) in
          match readFile (templatePath format level) with
          | Ok source =>
              let template := Handlebars_compile source in
              Some (Make (<[cacheKey format level := template]> (cache this))
                      (reads this),
                    Ok template)
          | Throw error =>
              if negb (String.eqb level "basic")
              then loadTemplate fuel this format "basic"
              else Some (this, Throw (load_error format level error))
          end
      end
  end.

(** [generateConfig(format, level, data)]: the document, or the error of
    the load or of the rendering. *)
Context {Data : Type} (render : Template → Data → result string).

Definition generateConfig (fuel : nat) (this : t) (format level : string)
  (data : Data) : option (t * result string) :=
  match loadTemplate fuel this format level with
  | Some (this, Ok template) => Some (this, render template data)
  | Some (this, Throw error) => Some (this, Throw error)
  | None => None
  end.

End TemplateSystem.
End TemplateSystem.

(** The template system at a later time: NodeCache has dropped the entries
    whose time to live (3600 s from the [set]) is over, and [alive] tells
    which keys are left. *)
Definition later {Template : Type} (alive : string → bool)
  (this : @TemplateSystem.t Template) : @TemplateSystem.t Template :=
  TemplateSystem.Make
    (filter (λ kv : string * Template, alive kv.1 = true) (TemplateSystem.cache this))
    (TemplateSystem.reads this).

(* ================================================================== *)
(** * Helpers of the request handlers and documents                    *)
(* ================================================================== *)

(** [getLinksFromQuery(req)], on the object [req.query]; [extractLinks]
    rejects what is not a string. *)
Definition getLinksFromQuery (query : obj) : result (list string) :=
  let link := query@"link" in
  if negb (truthy link) then Ok []
  else match link with
       | VStr rawInput => extractLinks rawInput
       | _ => Throw (Error "Input link tidak valid.")
       end.

(** The global [replace] of [parseProxyConfig]: every double quote is
    removed. *)
Fixpoint remove_dquotes (s : string) : string :=
  match s with
  | EmptyString => EmptyString
  | String c r =>
      if Ascii.eqb c CompactJSON.dquote then remove_dquotes r
      else String c (remove_dquotes r)
  end.

(** [const [key, ...valueParts] = text.split(':')] and the assignment to
    [config[key.trim()]] of [valueParts.join(':').trim()] without its double
    quotes. *)
Definition proxy_entry (config : obj) (text : string) : result obj :=
  let valueParts := List.tl (split text ":") in
  key ← receiver (elem (split text ":") 0) "trim";
  let value := trim (join ":" valueParts) in
  Ok (obj_assign config (trim key) (VStr (remove_dquotes value))).

(** The callback of [lines.forEach] in [parseProxyConfig]. *)
Definition proxy_line (config : obj) (line : string) : result obj :=
  let trimmed := trim line in
  if negb (String.eqb trimmed EmptyString) && negb (startsWith trimmed "#") then
    if startsWith trimmed "- " then proxy_entry config (substring_from trimmed 2)
    else if (0 <? List.length (List.tl (split trimmed ":")))%nat
         then proxy_entry config trimmed
         else Ok config
  else Ok config.

Definition parseProxyConfig (configString : string) : result obj :=
  let lines := split configString "010" in
  forEach proxy_line lines [].

(* ------------------------------------------------------------------ *)
(** ** Documents                                                       *)
(* ------------------------------------------------------------------ *)

(** [!r.error] *)
Definition valid (r : entry) : bool :=
  match r with
  | Converted _ _ _ _ => true
  | Failed error _ => String.eqb error EmptyString
  end.

(** [r.formats[k]]: a failure entry has no [formats]. *)
Definition fragment (k : string) (pick : formats → string) (r : entry)
  : result string :=
  match r with
  | Converted _ fmts _ _ => Ok (pick fmts)
  | Failed _ _ =>
      Throw (TypeError ("Cannot read properties of undefined (reading '"
                          +:+ k +:+ "')"))
  end.

(** [r.original.name] *)
Definition original_name (r : entry) : result jsval :=
  match r with
  | Converted original _ _ _ => Ok original@"name"
  | Failed _ _ =>
      Throw (TypeError "Cannot read properties of undefined (reading 'name')")
  end.

(** [r.tag] *)
Definition entry_tag (r : entry) : jsval :=
  match r with
  | Converted _ _ _ tag => VStr tag
  | Failed _ _ => VUndef
  end.

(** [results.map(f)] for a callback that may throw. *)
Fixpoint map_result {A B} (f : A → result B) (l : list A) : result (list B) :=
  match l with
  | [] => Ok []
  | x :: r => y ← f x; ys ← map_result f r; Ok (y :: ys)
  end.

Section Documents.
Context (JSON_parse : string → option jsval).
Context {Template : Type} (Handlebars_compile : string → Template).
Context (path_join : list string → string) (readFile : string → result string).
Context (templatesDir : string).
Context (render : Template → jsval → result string).
(** [new Date().toISOString()] at the call. *)
Context (now : string).

Local Abbreviation generateConfig :=
  (TemplateSystem.generateConfig Handlebars_compile path_join readFile
     templatesDir render).

(** The [data] object of [generateClashConfig]. *)
Definition clash_data (results : list entry) : result obj :=
  proxies ← map_result (fragment "clash" clash) results;
  proxyNames ← map_result original_name results;
  Ok (object_literal
        [ ("proxies", VArr (VStr <$> proxies));
          ("proxyNames", VArr proxyNames);
          ("timestamp", VStr now);
          ("version", VStr "1.0.0") ]).

Definition surge_data (results : list entry) : result obj :=
  proxies ← map_result (fragment "surge" surge) results;
  proxyNames ← map_result original_name results;
  Ok (object_literal
        [ ("proxies", VArr (VStr <$> proxies));
          ("proxyNames", VArr proxyNames);
          ("timestamp", VStr now) ]).

Definition quantumult_data (results : list entry) : result obj :=
  proxies ← map_result (fragment "quantumult" quantumult) results;
  proxyNames ← map_result original_name results;
  Ok (object_literal
        [ ("proxies", VArr (VStr <$> proxies));
          ("proxyNames", VArr proxyNames);
          ("timestamp", VStr now) ]).

(** [JSON.parse(r.formats.singbox)] *)
Definition outbound (r : entry) : result jsval :=
  text ← fragment "singbox" singbox r;
  match JSON_parse text with
  | Some v => Ok v
  | None => Throw (SyntaxError "Unexpected token in JSON")
  end.

Definition singbox_data (results : list entry) : result obj :=
  outbounds ← map_result outbound results;
  let proxyTags := entry_tag <$> results in
  Ok (object_literal
        [ ("outbounds", VArr outbounds);
          ("proxyNames", VArr proxyTags);
          ("timestamp", VStr now);
          ("version", VStr "1.0.0") ]).

Definition generateClashConfig fuel this (results : list entry) (level : string)
  : option (TemplateSystem.t * result string) :=
  match clash_data results with
  | Ok data => generateConfig fuel this "clash" level (VObj data)
  | Throw error => Some (this, Throw error)
  end.

Definition generateSurgeConfig fuel this (results : list entry) (level : string)
  : option (TemplateSystem.t * result string) :=
  match surge_data results with
  | Ok data => generateConfig fuel this "surge" level (VObj data)
  | Throw error => Some (this, Throw error)
  end.

Definition generateQuantumultConfig fuel this (results : list entry)
  (level : string) : option (TemplateSystem.t * result string) :=
  match quantumult_data results with
  | Ok data => generateConfig fuel this "quantumult" level (VObj data)
  | Throw error => Some (this, Throw error)
  end.

Definition generateSingBoxConfig fuel this (results : list entry)
  (level : string) : option (TemplateSystem.t * result string) :=
  match singbox_data results with
  | Ok data => generateConfig fuel this "singbox" level (VObj data)
  | Throw error => Some (this, Throw error)
  end.

Definition generateConfigByFormat fuel this (format level : string)
  (results : list entry) : option (TemplateSystem.t * result string) :=
  let validProxies := List.filter valid results in
  if String.eqb format "clash" then generateClashConfig fuel this validProxies level
  else if String.eqb format "surge"
  then generateSurgeConfig fuel this validProxies level
  else if String.eqb format "quantumult"
  then generateQuantumultConfig fuel this validProxies level
  else if String.eqb format "singbox"
  then generateSingBoxConfig fuel this validProxies level
  else Some (this, Throw (Error ("Unsupported format: " +:+ format))).

End Documents.

(* ================================================================== *)
(** * Vocabulary of the statements                                     *)
(* ================================================================== *)

(** [hay] holds [needle] as a substring. *)
Definition contains (hay needle : string) : Prop :=
  ∃ pre post, hay = pre +:+ needle +:+ post.

(** The test of [extractLinks] in words: longer than 30 characters and
    holding an at sign or a hash sign. *)
Definition passes (l : string) : Prop :=
  (30 < JS.length l)%nat ∧ (includes l "@" = true ∨ includes l "#" = true).

#[local] Instance passes_dec l : Decision (passes l).
Proof. unfold passes. apply _. Defined.

(** The trimmed, non-empty comma-separated segments of the input. *)
Definition segments (rawInput : string) : list string :=
  filter (λ l, (0 < JS.length l)%nat) (trim <$> split rawInput ",").

Fixpoint all_chars (P : ascii → bool) (s : string) : bool :=
  match s with
  | EmptyString => true
  | String c r => P c && all_chars P r
  end.

(** A character of base64 text: the alphabets of [unbase64], or padding. *)
Definition base64_char (c : ascii) : bool :=
  bool_decide (is_Some (unbase64 c)) || Ascii.eqb c "=".

(** The record [parseVLESS] builds, with the name and network that
    [processLinks] sets. *)
Definition vless_record (uuid : option string) (host : string) (port : jsnum)
  (security flow network path host_header sni fp pbk sid spx alpn : string)
  (allowInsecure : bool) (name : string) : obj :=
  [ ("type", VStr "vless"); ("uuid", of_opt uuid); ("host", VStr host);
    ("port", VNum port); ("security", VStr security); ("flow", VStr flow);
    ("network", VStr network); ("path", VStr path);
    ("host_header", VStr host_header); ("sni", VStr sni); ("fp", VStr fp);
    ("pbk", VStr pbk); ("sid", VStr sid); ("spx", VStr spx);
    ("alpn", VStr alpn); ("allowInsecure", VBool allowInsecure);
    ("name", VStr name) ].

(** A vmess link in the usual layout, and the object its payload denotes. *)
Definition vmess_example : string :=
  "vmess://eyJ2IjoiMiIsInBzIjoidGVzdCIsImFkZCI6ImV4YW1wbGUuY29tIiwicG9ydCI6IjQ0MyIsImlkIjoiYjgzMTM4MWQtNjMyNC00ZDUzLWFkNGYtOGNkYTQ4YjMwODExIiwiYWlkIjoiMCIsIm5ldCI6IndzIiwidHlwZSI6Im5vbmUiLCJob3N0IjoiZXhhbXBsZS5jb20iLCJwYXRoIjoiLyIsInRscyI6InRscyJ9".

Definition vmess_example_payload : jsval :=
  VObj [ ("v", VStr "2"); ("ps", VStr "test"); ("add", VStr "example.com");
         ("port", VStr "443"); ("id", VStr "b831381d-6324-4d53-ad4f-8cda48b30811");
         ("aid", VStr "0"); ("net", VStr "ws"); ("type", VStr "none");
         ("host", VStr "example.com"); ("path", VStr "/"); ("tls", VStr "tls") ].


(** A file system with the baseline Clash template only. *)
Definition example_readFile (path : string) : result string :=
  if String.eqb path "templates/clash/basic.yaml.hbs" then Ok "proxies:"
  else Throw (Error ("ENOENT: no such file or directory, open '"
                       +:+ path +:+ "'")).


(** A port text of at most 15 characters: the number [parseInt] reads from
    it is below 10^15, so it is read exactly. *)
Definition short_port (port : string) : bool :=
  Nat.leb (String.length port) 15.

(** [NaN] or a safe integer ([Number.isSafeInteger]): the numbers that
    [parseInt] reads and [String] prints exactly. *)
Definition safe_integer (n : jsnum) : bool :=
  match n with
  | NaN => true
  | Int z => (Z.abs z <=? 9007199254740991)%Z
  end.

(** The port of a record is [NaN] or a safe integer. *)
Definition safe_port (parsed : obj) : bool :=
  match parsed@"port" with
  | VNum n => safe_integer n
  | _ => false
  end.


(** ** Links written from their parts, and the records of the parsers *)

(** A decimal digit. *)
Definition is_digit (c : ascii) : bool := between 48 57 c.

(** The optional tail of a link: the mark, then the text. *)
Definition tail_part (mark : ascii) (o : option string) : string :=
  match o with
  | Some s => String mark s
  | None => EmptyString
  end.

(** A trojan link written from its parts:
    [trojan://userinfo@host:port?query#fragment]. *)
Definition trojan_link (userinfo host port : string) (query fragment : option string)
  : string :=
  "trojan://"
  +:+ (userinfo +:+ String "@" (host +:+ String ":" port))
  +:+ tail_part "?" query +:+ tail_part "#" fragment.

(** [s] holds none of the characters of [marks]. *)
Definition free_of (marks s : string) : bool :=
  all_chars (λ c, negb (includes marks c)) s.

(** The display name a parser derives from a fragment. *)
Definition name_of (fragment : option string) (placeholder : string) : string :=
  match fragment with
  | Some f => if String.eqb f EmptyString then placeholder else decode_or_raw f
  | None => placeholder
  end.

(** The query parameters [parseTrojan] reads. *)
Definition trojan_params (query : option string) : result (gmap string string) :=
  match query with
  | Some q =>
      if String.eqb q EmptyString then Ok ∅
      else forEach trojan_pair (split q "&") ∅
  | None => Ok ∅
  end.

(** A vless link written from its parts:
    [vless://uuid@host:port?query#fragment]. *)
Definition vless_link (uuid host port : string) (query fragment : option string)
  : string :=
  "vless://"
  +:+ (uuid +:+ String "@"
         (host +:+ String ":" (port +:+ tail_part "?" query +:+ tail_part "#" fragment))).

(** The query parameters [parseVLESS] reads. *)
Definition vless_params (query : option string) : result (gmap string string) :=
  match query with
  | Some q =>
      if String.eqb q EmptyString then Ok ∅
      else forEach vless_pair (split q "&") ∅
  | None => Ok ∅
  end.



(** The record [parseTrojan] builds. *)
Definition trojan_record (password host : string) (port : jsnum)
  (network path host_header sni alpn fp : string) (allowInsecure : bool)
  (name : string) : obj :=
  [ ("type", VStr "trojan"); ("password", VStr password); ("host", VStr host);
    ("port", VNum port); ("security", VStr "tls"); ("network", VStr network);
    ("path", VStr path); ("host_header", VStr host_header); ("sni", VStr sni);
    ("alpn", VStr alpn); ("fp", VStr fp); ("allowInsecure", VBool allowInsecure);
    ("name", VStr name) ].

(** The record [parseSS] builds, with the network that [processLinks] adds. *)
Definition ss_record (method : string) (password : option string) (host : string)
  (port : jsnum) (plugin plugin_opts obfs obfsHost name : string) : obj :=
  [ ("type", VStr "ss"); ("method", VStr method); ("password", of_opt password);
    ("host", VStr host); ("port", VNum port); ("plugin", VStr plugin);
    ("plugin_opts", VStr plugin_opts); ("obfs", VStr obfs);
    ("obfsHost", VStr obfsHost); ("name", VStr name); ("network", VStr "tcp") ].

(** The four fragments of a record hold its endpoint. *)
Definition endpoint_in_fragments (config : obj) (h : string) (port : jsnum) : Prop :=
  (∃ clashConfig, toClash_config config = Ok clashConfig
                  ∧ clashConfig@"server" = VStr h ∧ clashConfig@"port" = VNum port)
  ∧ (∃ line, toSurge config = Ok line
             ∧ contains line (h +:+ ", " +:+ Number_toString port))
  ∧ (∃ line, toQuantumult config = Ok line
             ∧ contains line (h +:+ ":" +:+ Number_toString port))
  ∧ (∃ base, toSingBox_base config = Ok base
             ∧ base@"server" = VStr h ∧ base@"server_port" = VNum port).

(** Every property holds a string without a double quote. *)
Definition unquoted (config : obj) : Prop :=
  Forall (λ p, ∃ s, p.2 = VStr s ∧ includes s CompactJSON.dquote = false) config.

(** A success entry whose record is named by its tag. *)
Definition named (r : entry) : Prop :=
  match r with
  | Converted original _ _ tag => original@"name" = VStr tag
  | Failed _ _ => True
  end.

(* ================================================================== *)
(** * Facts about the run time                                         *)
(* ================================================================== *)

Lemma obj_get_set_eq (o : obj) k v : (obj_set o k v)@k = v.
Proof.
  induction o as [|[k' v'] r IH]; simpl.
  - by rewrite String.eqb_refl.
  - destruct (String.eqb k' k) eqn:E; simpl; rewrite E; done.
Qed.

Lemma obj_get_set_ne (o : obj) k k' v : k ≠ k' → (obj_set o k v)@k' = o@k'.
Proof.
  intros Hne. induction o as [|[k0 v0] r IH]; simpl.
  - by apply String.eqb_neq in Hne as ->.
  - destruct (String.eqb k0 k) eqn:E; simpl.
    + apply String.eqb_eq in E as ->. by apply String.eqb_neq in Hne as ->.
    + by rewrite IH.
Qed.

Lemma set_if_get_ne c (o : obj) k k' v : k ≠ k' → (set_if c o k v)@k' = o@k'.
Proof. destruct c; simpl; [apply obj_get_set_ne|done]. Qed.

Lemma clash_ws_get config clashConfig k :
  k ≠ "network" → k ≠ "ws-path" → k ≠ "ws-headers" →
  (clash_ws config clashConfig)@k = clashConfig@k.
Proof.
  intros. unfold clash_ws. destruct (is_str _ _); [|done].
  destruct (truthy _); by rewrite !obj_get_set_ne.
Qed.

Lemma append_cons x (a b : string) : String x a +:+ b = String x (a +:+ b).
Proof. done. Qed.

Lemma append_assoc (a b c : string) : (a +:+ b) +:+ c = a +:+ (b +:+ c).
Proof. induction a as [|x a IH]; [done|]. by rewrite !append_cons, IH. Qed.

Lemma append_nil_r (a : string) : a +:+ EmptyString = a.
Proof. induction a as [|x a IH]; [done|]. by rewrite append_cons, IH. Qed.


Lemma contains_app_r a b n : contains b n → contains (a +:+ b) n.
Proof.
  intros (pre & post & ->). exists (a +:+ pre), post.
  by rewrite !append_assoc.
Qed.



Lemma includes_app s t c : includes (s +:+ t) c = includes s c || includes t c.
Proof. induction s; simpl; [done|]. by rewrite IHs, orb_assoc. Qed.

Lemma prefix_cons_inv a p s :
  String.prefix (String a p) s = true → ∃ r, s = String a r ∧ String.prefix p r = true.
Proof.
  destruct s as [|c r]; simpl; [done|].
  destruct (ascii_dec a c) as [->|]; [eauto|done].
Qed.

Lemma startsWith_nonempty s a p :
  startsWith s (String a p) = true → String.eqb s EmptyString = false.
Proof. intros (r & -> & _)%prefix_cons_inv. done. Qed.

Lemma receiver_throw o method e :
  receiver o method = Throw e →
  e = TypeError ("Cannot read properties of undefined (reading '"
                   +:+ method +:+ "')").
Proof. destruct o; simpl; congruence. Qed.

Lemma or_str_truthy o d : d ≠ EmptyString → or_str o d ≠ EmptyString.
Proof.
  intros Hd. destruct o as [s|]; simpl; [|done].
  destruct (String.eqb_spec s EmptyString); done.
Qed.

Ltac case_conditions :=
  repeat match goal with
         | |- context [if ?c then _ else _] => destruct c eqn:?; simpl
         end.

Ltac get_field :=
  repeat first [ rewrite clash_ws_get by done
               | rewrite set_if_get_ne by done
               | rewrite obj_get_set_ne by done
               | rewrite obj_get_set_eq ];
  try reflexivity.



(* ================================================================== *)
(** * The dispatcher and the batch loop                                *)
(* ================================================================== *)

Section ConverterFacts.

Context (JSON_parse : string → option jsval).
Context (yaml_dump : jsval → result string).
Context (JSON_stringify : jsval → string).

Local Abbreviation parseAnyLink' := (parseAnyLink JSON_parse).
Local Abbreviation parseVMess' := (parseVMess JSON_parse).
Local Abbreviation toClash' := (toClash yaml_dump).
Local Abbreviation toSingBox' := (toSingBox JSON_stringify).
Local Abbreviation convert' := (convert JSON_parse yaml_dump JSON_stringify).
Local Abbreviation pushed' := (pushed JSON_parse yaml_dump JSON_stringify).
Local Abbreviation processLinks' :=
  (processLinks JSON_parse yaml_dump JSON_stringify).
Local Abbreviation processLinks_loop' :=
  (processLinks_loop JSON_parse yaml_dump JSON_stringify).

Lemma parseAnyLink_vmess link :
  startsWith link "vmess://" = true → (JS.length link ≤ 2000)%nat →
  parseAnyLink' link = parseVMess' link.
Proof.
  intros Hp Hl. unfold parseAnyLink.
  rewrite (startsWith_nonempty _ _ _ Hp).
  replace (2000 <? JS.length link)%nat with false
    by (symmetry; apply Nat.ltb_ge; lia).
  rewrite Hp.
  apply prefix_cons_inv in Hp as (r & -> & Hp).
  apply prefix_cons_inv in Hp as (r' & -> & Hp). done.
Qed.

Lemma processLinks_loop_imap links startIndex i results :
  processLinks_loop' links startIndex i results
  = (results ++ imap (λ j, pushed' startIndex (i + j)) links)%list.
Proof.
  revert i results. induction links as [|link rest IH]; intros i results; simpl.
  - by rewrite app_nil_r.
  - rewrite IH, <- app_assoc. simpl. rewrite Nat.add_0_r.
    f_equal. f_equal. apply imap_ext. intros j x _. simpl. f_equal. lia.
Qed.

Lemma processLinks_imap links startIndex :
  processLinks' links startIndex = imap (pushed' startIndex) links.
Proof. unfold processLinks. by rewrite processLinks_loop_imap. Qed.

Lemma processLinks_lookup links startIndex i :
  processLinks' links startIndex !! i = pushed' startIndex i <$> links !! i.
Proof. by rewrite processLinks_imap, list_lookup_imap. Qed.

(** What a successful turn of the loop went through. *)
Lemma convert_inv startIndex i link e :
  convert' startIndex i link = Ok e →
  ∃ parsed originalName c s q b,
    parseAnyLink' link = Ok parsed
    ∧ ToString (or_else parsed@"name" (VStr "Proxy Server")) = Ok originalName
    ∧ let configName := tag_of originalName (startIndex + i + 1) in
      let config := batch_config parsed configName in
      toClash' config = Ok c ∧ toSurge config = Ok s
      ∧ toQuantumult config = Ok q ∧ toSingBox' config = Ok b
      ∧ e = Converted config (Formats c s q b) link configName.
Proof.
  unfold convert. intros H.
  destruct (parseAnyLink' link) as [parsed|] eqn:Hp; simpl in H; [|done].
  destruct (ToString _) as [originalName|] eqn:Hn; simpl in H; [|done].
  destruct (toClash' _) as [c|] eqn:Hc; simpl in H; [|done].
  destruct (toSurge _) as [s|] eqn:Hs; simpl in H; [|done].
  destruct (toQuantumult _) as [q|] eqn:Hq; simpl in H; [|done].
  destruct (toSingBox' _) as [b|] eqn:Hb; simpl in H; [|done].
  inversion H; subst. by exists parsed, originalName, c, s, q, b.
Qed.

Lemma pushed_link startIndex i link : entry_link (pushed' startIndex i link) = link.
Proof.
  unfold pushed.
  destruct (convert' startIndex i link) as [e|] eqn:E; [|done].
  by apply convert_inv in E as (? & ? & ? & ? & ? & ? & _ & _ & _ & _ & _ & _ & ->).
Qed.

(** The entries name the input links, one for one and in order. *)
Lemma processLinks_links links startIndex :
  entry_link <$> processLinks' links startIndex = links.
Proof.
  apply list_eq. intros i.
  rewrite list_lookup_fmap, processLinks_lookup.
  destruct (links !! i); simpl; [|done]. by rewrite pushed_link.
Qed.

(** ** Claims about the batch processor *)

(** On a list of strings the batch processor returns one entry per input link, in input
    order: the list of the entries' links is the input list.  For the link
    at index [i], an error of [parseAnyLink] or of any of the four
    serialisers (each reached only when the ones before it returned) gives
    the failure entry that carries the raw link and the error's message, a
    completed [try] block gives a success entry for that link; in either
    case the loop goes on to the next link. *)
Theorem processLinks_one_entry_per_link links startIndex :
  List.length (processLinks' links startIndex) = List.length links
  ∧ entry_link <$> processLinks' links startIndex = links
  ∧ ∀ i link, links !! i = Some link →
      ∃ e, processLinks' links startIndex !! i = Some e
        ∧ (∀ err, parseAnyLink' link = Throw err →
             e = Failed (message err) link)
        ∧ (∀ parsed originalName err,
             parseAnyLink' link = Ok parsed →
             ToString (or_else parsed@"name" (VStr "Proxy Server")) = Ok originalName →
             let config :=
               batch_config parsed (tag_of originalName (startIndex + i + 1)) in
             toClash' config = Throw err
             ∨ (is_Ok (toClash' config) ∧ toSurge config = Throw err)
             ∨ (is_Ok (toClash' config) ∧ is_Ok (toSurge config)
                ∧ toQuantumult config = Throw err)
             ∨ (is_Ok (toClash' config) ∧ is_Ok (toSurge config)
                ∧ is_Ok (toQuantumult config)
                ∧ toSingBox' config = Throw err) →
             e = Failed (message err) link)
        ∧ (∀ err, convert' startIndex i link = Throw err →
             e = Failed (message err) link)
        ∧ (∀ e', convert' startIndex i link = Ok e' →
             e = e' ∧ ∃ original fmts tag, e = Converted original fmts link tag).
Proof.
  split; [by rewrite processLinks_imap, length_imap|].
  split; [apply processLinks_links|].
  intros i link Hi. exists (pushed' startIndex i link).
  rewrite processLinks_lookup, Hi. split; [done|].
  unfold pushed.
  split; [|split; [|split]].
  - intros err Hp. unfold convert. by rewrite Hp.
  - intros parsed originalName err Hp Hn. simpl. intros Hs.
    unfold convert. rewrite Hp. simpl. rewrite Hn. simpl.
    destruct Hs as [Hc|[[Hc Hs]|[(Hc & Hs & Hq)|(Hc & Hs & Hq & Hb)]]].
    + by rewrite Hc.
    + destruct (toClash' _); [|done]. simpl. by rewrite Hs.
    + destruct (toClash' _); [|done]. destruct (toSurge _); [|done].
      simpl. by rewrite Hq.
    + destruct (toClash' _); [|done]. destruct (toSurge _); [|done].
      destruct (toQuantumult _); [|done]. simpl. by rewrite Hb.
  - intros err ->. done.
  - intros e' He. rewrite He. split; [done|].
    apply convert_inv in He as (p & n & c & s & q & b & _ & _ & _ & _ & _ & _ & ->).
    eauto.
Qed.

(** ** The batch processor on values that are not strings *)

Lemma untyped_pushed_text startIndex i text :
  Untyped.pushed JSON_parse yaml_dump JSON_stringify startIndex i (VStr text)
  = Ok (pushed' startIndex i text).
Proof.
  unfold Untyped.pushed, Untyped.convert, pushed.
  by destruct (convert' startIndex i text).
Qed.

Lemma untyped_loop_texts texts startIndex i results :
  Untyped.processLinks_loop JSON_parse yaml_dump JSON_stringify
    (VStr <$> texts) startIndex i results
  = Ok (processLinks_loop' texts startIndex i results).
Proof.
  revert i results. induction texts as [|text rest IH]; intros i results; [done|].
  cbn [fmap list_fmap Untyped.processLinks_loop processLinks_loop].
  rewrite untyped_pushed_text. simpl. apply IH.
Qed.

Lemma untyped_pushed_value startIndex i v :
  is_string v = false →
  Untyped.pushed JSON_parse yaml_dump JSON_stringify startIndex i v
  = Throw (Untyped.no_substring v).
Proof. by destruct v. Qed.

Lemma untyped_loop_value texts v rest startIndex i results :
  is_string v = false →
  Untyped.processLinks_loop JSON_parse yaml_dump JSON_stringify
    ((VStr <$> texts) ++ v :: rest) startIndex i results
  = Throw (Untyped.no_substring v).
Proof.
  intros Hv. revert i results.
  induction texts as [|text more IH]; intros i results.
  - cbn [fmap list_fmap app Untyped.processLinks_loop].
    by rewrite untyped_pushed_value.
  - cbn [fmap list_fmap app Untyped.processLinks_loop].
    rewrite untyped_pushed_text. simpl. apply IH.
Qed.

(** C4.  The links of a request body are any JSON values.  On strings the
    batch processor never aborts: it returns the entries of [processLinks]
    on the texts, one per link and in input order.  A link
    that is not a string is refused by [parseAnyLink], but the [catch]
    block then calls [singleLink.substring(0, 50)] for its log line, on a
    value without that method: the [TypeError] leaves the [catch] block
    and the batch processor, so the batch is aborted and no entry is
    returned, not even for the links before it. *)
Theorem processLinks_aborts_on_non_string_link texts v rest startIndex :
  is_string v = false →
  Untyped.parseAnyLink JSON_parse v = Throw (Error "Link must be a non-empty string")
  ∧ Untyped.processLinks JSON_parse yaml_dump JSON_stringify
      ((VStr <$> texts) ++ v :: rest) startIndex
    = Throw (TypeError
               match v with
               | VUndef =>
                   "Cannot read properties of undefined (reading 'substring')"
               | VNull => "Cannot read properties of null (reading 'substring')"
               | _ => "singleLink.substring is not a function"
               end)
  ∧ Untyped.processLinks JSON_parse yaml_dump JSON_stringify
      (VStr <$> texts) startIndex
    = Ok (processLinks' texts startIndex)
  ∧ List.length (processLinks' texts startIndex) = List.length texts
  ∧ entry_link <$> processLinks' texts startIndex = texts.
Proof.
  intros Hv. split; [by destruct v|]. split; [|split; [|split]].
  - unfold Untyped.processLinks. rewrite untyped_loop_value by done.
    by destruct v.
  - apply untyped_loop_texts.
  - by rewrite processLinks_imap, length_imap.
  - apply processLinks_links.
Qed.

(** C5.  A successful entry at index [i] of the batch (so at 1-based
    position [i + 1] of the whole input, failures included) has the tag made
    of the display name of its link, a hyphen, the decimal digits of [i + 1]
    and the suffix [" [vortexVpn]"]; the display name is the name the parser
    returned, or "Proxy Server" when that name is empty.  The same text is
    the [name] of the record given to the serialisers. *)
Theorem tag_numbers_input_position links i original fmts link tag :
  processLinks' links 0 !! i = Some (Converted original fmts link tag) →
  links !! i = Some link
  ∧ ∃ parsed displayName,
      parseAnyLink' link = Ok parsed
      ∧ ToString (or_else parsed@"name" (VStr "Proxy Server")) = Ok displayName
      ∧ tag = displayName +:+ "-" +:+ decimal (N.of_nat (i + 1)) +:+ " [vortexVpn]"
      ∧ original@"name" = VStr tag.
Proof.
  rewrite processLinks_lookup. intros H.
  destruct (links !! i) as [l|] eqn:Hl; simpl in H; [|done].
  injection H as H.
  assert (Hlink : l = link) by (rewrite <- (pushed_link 0 i l), H; done).
  subst l. split; [done|].
  unfold pushed in H.
  destruct (convert' 0 i link) as [e|] eqn:He; [|done]. subst e.
  apply convert_inv in He as (p & n & c & s & q & b & Hp & Hn & _ & _ & _ & _ & He).
  inversion He; subst. exists p, n. repeat split; try done.
  unfold batch_config. rewrite obj_get_set_ne by done. apply obj_get_set_eq.
Qed.

(** ** Link extraction *)

Lemma extractLinks_loop_filter potentialLinks extractedLinks :
  extractLinks_loop potentialLinks extractedLinks
  = (extractedLinks ++ filter passes potentialLinks)%list.
Proof.
  revert extractedLinks.
  induction potentialLinks as [|link rest IH]; intros acc; simpl.
  - by rewrite app_nil_r.
  - rewrite filter_cons. destruct (decide (passes link)) as [Hp|Hp].
    + replace ((30 <? JS.length link)%nat && (includes link "@" || includes link "#"))
        with true.
      * by rewrite IH, <- app_assoc.
      * symmetry. destruct Hp as [Hl Hm]. apply andb_true_iff. split.
        -- by apply Nat.ltb_lt.
        -- apply orb_true_iff. done.
    + replace ((30 <? JS.length link)%nat && (includes link "@" || includes link "#"))
        with false; [apply IH|].
      symmetry. apply not_true_is_false. intros H. apply Hp.
      apply andb_true_iff in H as [Hl Hm]. split.
      * by apply Nat.ltb_lt.
      * by apply orb_true_iff.
Qed.

Lemma base64_char_not c d :
  base64_char d = false → base64_char c = true → Ascii.eqb c d = false.
Proof.
  intros Hd Hc. destruct (Ascii.eqb_spec c d) as [->|]; [|done]. congruence.
Qed.

Lemma base64_text_excludes body d :
  base64_char d = false → all_chars base64_char body = true → includes body d = false.
Proof.
  intros Hd. induction body as [|c r IH]; simpl; [done|].
  intros [Hc Hr]%andb_true_iff. by rewrite (base64_char_not c d), IH.
Qed.

(** C10.  On a comma-separated input, [extractLinks] returns exactly the
    trimmed non-empty segments that are longer than 30 characters and hold
    an at sign or a hash sign, in input order (and throws when the input is
    empty or no segment is left).  A vmess link whose body is base64 text is
    never among them.  The batch processor then makes entries for the kept
    segments only, so a dropped segment has no entry, failure or other. *)
Theorem extractLinks_keeps_marked_segments rawInput :
  let kept := filter passes (segments rawInput) in
  extractLinks rawInput
  = (if decide (rawInput = EmptyString) then Throw (Error "Input link tidak valid.")
     else if decide (kept = []) then
       Throw (Error "Tidak ditemukan link VPN yang valid dalam input GET.")
     else Ok kept)
  ∧ (∀ l, l ∈ kept ↔ l ∈ segments rawInput ∧ passes l)
  ∧ (∀ body, all_chars base64_char body = true → "vmess://" +:+ body ∉ kept)
  ∧ entry_link <$> processLinks' kept 0 = kept.
Proof.
  intros kept. split; [|split; [|split]].
  - unfold extractLinks. destruct (String.eqb_spec rawInput EmptyString) as [->|Hne].
    + done.
    + rewrite decide_False by done. rewrite extractLinks_loop_filter. simpl.
      fold (segments rawInput). fold kept.
      destruct kept; simpl; done.
  - intros l. unfold kept. rewrite list_elem_of_filter. tauto.
  - intros body Hb [Hp _]%list_elem_of_filter.
    destruct Hp as [_ Hm]. rewrite !includes_app in Hm.
    rewrite !(base64_text_excludes body) in Hm by done. simpl in Hm.
    destruct Hm; discriminate.
  - apply processLinks_links.
Qed.

(** ** The vmess record *)

Lemma parseVMess_example :
  JSON_parse (vmess_json vmess_example) = Some vmess_example_payload →
  parseVMess' vmess_example
  = Ok [ ("type", VStr "none");
         ("uuid", VStr "b831381d-6324-4d53-ad4f-8cda48b30811");
         ("host", VStr "example.com"); ("port", VNum (Int 443));
         ("alterId", VNum (Int 0)); ("security", VStr "auto");
         ("network", VStr "ws"); ("path", VStr "/");
         ("host_header", VStr "example.com"); ("sni", VStr "example.com");
         ("tls", VBool true); ("alpn", VStr ""); ("fp", VStr "");
         ("name", VStr "test") ].
Proof.
  intros H. unfold parseVMess. rewrite H.
  vm_compute. reflexivity.
Qed.

(** C1.  On a vmess link in the usual layout (header type "none"), and for
    any [JSON.parse] that reads its payload as the object it denotes, the
    parser returns a record with the host and port of the link, but
    [toClash], [toSurge] and [toQuantumult] throw on it, and the batch
    processor returns a failure entry: no fragment holds the host and
    port. *)
Theorem vmess_link_is_not_serialised :
  JSON_parse (vmess_json vmess_example) = Some vmess_example_payload →
  ∃ parsed,
    parseAnyLink' vmess_example = Ok parsed
    ∧ parsed@"host" = VStr "example.com" ∧ parsed@"port" = VNum (Int 443)
    ∧ toClash' (batch_config parsed "test-1 [vortexVpn]")
      = Throw (Error "Tidak dapat mengkonversi protokol 'none' ke format Clash.")
    ∧ toSurge (batch_config parsed "test-1 [vortexVpn]")
      = Throw (Error "Unsupported type for Surge: none")
    ∧ toQuantumult (batch_config parsed "test-1 [vortexVpn]")
      = Throw (Error "Unsupported type for Quantumult: none")
    ∧ processLinks' [vmess_example] 0
      = [Failed "Tidak dapat mengkonversi protokol 'none' ke format Clash."
           vmess_example].
Proof.
  intros H. apply parseVMess_example in H.
  assert (Hany : parseAnyLink' vmess_example = parseVMess' vmess_example).
  { apply parseAnyLink_vmess; vm_compute; [reflexivity|lia]. }
  eexists. split; [by rewrite Hany, H|].
  do 5 (split; [vm_compute; reflexivity|]).
  unfold processLinks, processLinks_loop,
    pushed, convert.
  rewrite Hany, H. vm_compute. reflexivity.
Qed.

Lemma object_literal_type_twice (v1 v2 v3 v4 v5 v6 v7 v8 v9 v10 v11 v12 v13 v14 : jsval) :
  (object_literal
     [ ("type", VStr "vmess"); ("uuid", v1); ("host", v2); ("port", v3);
       ("alterId", v4); ("security", v5); ("network", v6); ("type", v7);
       ("path", v8); ("host_header", v9); ("sni", v10); ("tls", v11);
       ("alpn", v12); ("fp", v13); ("name", v14) ])@"type" = v7.
Proof. reflexivity. Qed.

Lemma vmess_record_type payload parsed :
  vmess_record payload = Ok parsed →
  ∃ type, prop payload "type" = Ok type ∧ parsed@"type" = or_else type (VStr "none").
Proof.
  unfold vmess_record. intros H.
  destruct (prop payload "ps") as [ps|] eqn:Eps; simpl in H; [|done].
  destruct (if truthy ps then _ else _) as [name|]; simpl in H; [|done].
  destruct (prop payload "id") as [id|]; simpl in H; [|done].
  destruct (prop payload "add") as [add|]; simpl in H; [|done].
  destruct (prop payload "port") as [port|]; simpl in H; [|done].
  destruct (parseInt port) as [nport|]; simpl in H; [|done].
  destruct (prop payload "aid") as [aid|]; simpl in H; [|done].
  destruct (parseInt aid) as [naid|]; simpl in H; [|done].
  destruct (prop payload "sc") as [sc|]; simpl in H; [|done].
  destruct (prop payload "cipher") as [cipher|]; simpl in H; [|done].
  destruct (prop payload "net") as [net|]; simpl in H; [|done].
  destruct (prop payload "type") as [type|]; simpl in H; [|done].
  destruct (prop payload "path") as [path|]; simpl in H; [|done].
  destruct (prop payload "host") as [host|]; simpl in H; [|done].
  destruct (prop payload "sni") as [sni|]; simpl in H; [|done].
  destruct (prop payload "tls") as [tls|]; simpl in H; [|done].
  destruct (prop payload "alpn") as [alpn|]; simpl in H; [|done].
  destruct (prop payload "fp") as [fp|]; simpl in H; [|done].
  injection H as <-. exists type. split; [done|].
  apply object_literal_type_twice.
Qed.

(** C2.  The discriminant of a record returned by [parseVMess] is not the
    scheme of the link: it is the [type] member of the payload, or "none"
    when the payload has none (the record literal writes the key [type]
    twice, and the second value stands). *)
Theorem parseVMess_type_is_payload_type link parsed :
  parseVMess' link = Ok parsed →
  ∃ payload type,
    JSON_parse (vmess_json link) = Some payload
    ∧ prop payload "type" = Ok type
    ∧ parsed@"type" = or_else type (VStr "none").
Proof.
  unfold parseVMess.
  destruct (startsWith link "vmess://"); simpl; [|done].
  destruct (JSON_parse (vmess_json link)) as [payload|]; simpl; [|done].
  destruct (vmess_record payload) as [r|] eqn:Hr; simpl; [|done].
  intros [= <-]. apply vmess_record_type in Hr as (type & Ht & Hty).
  by exists payload, type.
Qed.

(** C3.  A vless link whose port text is not a number is accepted: the
    record has the port NaN and every serialiser returns a fragment for it
    (the two line formats print "NaN").  The same port text in a trojan
    link is rejected by [parseTrojan]. *)
Theorem vless_link_with_unparseable_port_is_serialised :
  ∃ parsed config,
    parseAnyLink' "vless://uuid-1@example.com:abc" = Ok parsed
    ∧ parsed@"port" = VNum NaN
    ∧ config = batch_config parsed "VLESS Server-1 [vortexVpn]"
    ∧ (∃ clashConfig, toClash_config config = Ok clashConfig
                      ∧ clashConfig@"port" = VNum NaN)
    ∧ toSurge config
      = Ok "VLESS Server-1 [vortexVpn] = vless, example.com, NaN, username=uuid-1, skip-cert-verify=false"
    ∧ toQuantumult config
      = Ok "vmess=example.com:NaN, method=none, password=uuid-1, skip-cert-verify=false, tag=VLESS Server-1 [vortexVpn]"
    ∧ (∃ base, toSingBox_base config = Ok base ∧ base@"server_port" = VNum NaN)
    ∧ parseAnyLink' "trojan://pw@example.com:abc"
      = Throw (Error "Invalid Trojan link format: Invalid port").
Proof.
  do 2 eexists. split; [vm_compute; reflexivity|].
  split; [reflexivity|]. split; [reflexivity|].
  split; [eexists; split; vm_compute; reflexivity|].
  split; [vm_compute; reflexivity|]. split; [vm_compute; reflexivity|].
  split; [eexists; split; vm_compute; reflexivity|].
  vm_compute. reflexivity.
Qed.

End ConverterFacts.

(* ================================================================== *)
(** * The serialisers on vless records                                 *)
(* ================================================================== *)






(** The record [parseVLESS] returns, read off its fields. *)
Lemma parseVLESS_record link uuid host port params fragmentName parsed :
  vless_fields link = Ok (uuid, host, port, params, fragmentName) →
  parseVLESS link = Ok parsed →
  ∃ name,
    parsed =
    [ ("type", VStr "vless"); ("uuid", of_opt uuid); ("host", of_opt host);
      ("port", VNum (parseInt_string (String_of port)));
      ("security", VStr (or_str (params !! "security") "none"));
      ("flow", VStr (or_str (params !! "flow") EmptyString));
      ("network", VStr (or_str (params !! "type") "tcp"));
      ("path", VStr (or_str (params !! "path")
                       (if bool_decide (params !! "type" = Some "ws")
                        then "/" else EmptyString)));
      ("host_header", VStr (or_str (params !! "host") EmptyString));
      ("sni", or_else (of_opt (params !! "sni"))
                (or_else (of_opt (params !! "host")) (of_opt host)));
      ("fp", VStr (or_str (params !! "fp") EmptyString));
      ("pbk", VStr (or_str (params !! "pbk") EmptyString));
      ("sid", VStr (or_str (params !! "sid") EmptyString));
      ("spx", VStr (or_str (params !! "spx") EmptyString));
      ("alpn", VStr (or_str (params !! "alpn") EmptyString));
      ("allowInsecure",
        VBool (bool_decide (params !! "allowInsecure" = Some "1")
               || bool_decide (params !! "allowInsecure" = Some "true")
               || false));
      ("name", VStr name) ].
Proof.
  intros Hf. unfold parseVLESS. rewrite Hf.
  destruct (startsWith link "vless://"); simpl; [|done].
  intros [= <-]. eexists. reflexivity.
Qed.



(** C8.  On a reality link without [fp], [toClash] writes the absent
    fingerprint itself (the empty string) under [client-fingerprint], while
    [toSingBox] writes "chrome": the default is in one serialiser only. *)
Theorem reality_fingerprint_default_only_in_toSingBox :
  ∃ parsed clashConfig base tls utls,
    parseVLESS "vless://uuid-1@example.com:443?security=reality&pbk=KEY&sid=ab"
    = Ok parsed
    ∧ parsed@"security" = VStr "reality" ∧ parsed@"fp" = VStr ""
    ∧ toClash_config parsed = Ok clashConfig
    ∧ has_own clashConfig "client-fingerprint" = true
    ∧ clashConfig@"client-fingerprint" = VStr ""
    ∧ toSingBox_base parsed = Ok base
    ∧ base@"tls" = VObj tls ∧ tls@"utls" = VObj utls
    ∧ utls@"fingerprint" = VStr "chrome".
Proof.
  do 5 eexists.
  split; [vm_compute; reflexivity|].
  split; [reflexivity|]. split; [reflexivity|].
  split; [vm_compute; reflexivity|].
  split; [reflexivity|]. split; [reflexivity|].
  split; [vm_compute; reflexivity|].
  split; [reflexivity|]. split; reflexivity.
Qed.

(** C9.  [parseSS] has no failure for a userinfo that is not base64: on
    such a link it returns a record with an empty method and no password,
    the decoding step returns for every userinfo, and no error of [parseSS]
    carries the message of its [catch] block. *)
Theorem parseSS_never_rejects_userinfo :
  parseSS "ss://!!!!@example.com:8388#bad"
  = Ok [ ("type", VStr "ss"); ("method", VStr ""); ("password", VUndef);
         ("host", VStr "example.com"); ("port", VNum (Int 8388));
         ("plugin", VStr ""); ("plugin_opts", VStr ""); ("obfs", VStr "");
         ("obfsHost", VStr ""); ("name", VStr "bad") ]
  ∧ (∀ userinfo, is_Ok (ss_credentials userinfo) = true)
  ∧ (∀ link e, parseSS link = Throw e →
       message e ≠ "Invalid Shadowsocks base64 encoding").
Proof.
  split; [vm_compute; reflexivity|]. split; [done|].
  intros link e. unfold parseSS.
  destruct (startsWith link "ss://"); simpl; [|by intros [= <-]].
  destruct (receiver _ _) as [hostport|] eqn:E1; simpl.
  2:{ intros [= <-]. apply receiver_throw in E1 as ->. by vm_compute. }
  destruct (receiver (elem (split hostport ":") 1) _) as [pwp|] eqn:E2; simpl.
  2:{ intros [= <-]. apply receiver_throw in E2 as ->. by vm_compute. }
  done.
Qed.

(* ================================================================== *)
(** * The template loader                                              *)
(* ================================================================== *)

Section TemplateFacts.
Import TemplateSystem.
Context {Template : Type} (Handlebars_compile : string → Template).
Context (path_join : list string → string) (readFile : string → result string).
Context (templatesDir : string).
Context {Data : Type} (render : Template → Data → result string).

Local Abbreviation loadTemplate :=
  (loadTemplate Handlebars_compile path_join readFile templatesDir).
Local Abbreviation generateConfig :=
  (generateConfig Handlebars_compile path_join readFile templatesDir render).
Local Abbreviation templatePath := (templatePath path_join templatesDir).

(** The baseline level is loaded without recursion: from the cache, or by
    one read. *)
Lemma loadTemplate_basic fuel (this : @t Template) format :
  loadTemplate (S fuel) this format "basic"
  = Some
      match cache this !! cacheKey format "basic" with
      | Some template => (this, Ok template)
      | None =>
          match readFile (templatePath format "basic") with
          | Ok source =>
              (Make (<[cacheKey format "basic" := Handlebars_compile source]>
                       (cache this))
                 (reads this ++ [templatePath format "basic"]),
               Ok (Handlebars_compile source))
          | Throw error =>
              (Make (cache this) (reads this ++ [templatePath format "basic"]),
               Throw (load_error format "basic" error))
          end
      end.
Proof.
  simpl. destruct (cache this !! _); [done|].
  destruct (readFile _); done.
Qed.

End TemplateFacts.

(* ================================================================== *)
(** * The statements at concrete inputs                                *)
(* ================================================================== *)

Example vmess_example_reads :
  CompactJSON.parse (vmess_json vmess_example) = Some vmess_example_payload.
Proof. vm_compute. reflexivity. Qed.

Lemma vmess_link_is_not_serialised_witness :
  CompactJSON.parse (vmess_json vmess_example) = Some vmess_example_payload
  ∧ processLinks CompactJSON.parse CompactJSON.dump CompactJSON.print
      [vmess_example] 0
    = [Failed "Tidak dapat mengkonversi protokol 'none' ke format Clash."
         vmess_example].
Proof.
  assert (H : CompactJSON.parse (vmess_json vmess_example)
              = Some vmess_example_payload) by (vm_compute; reflexivity).
  split; [exact H|].
  destruct (vmess_link_is_not_serialised CompactJSON.parse CompactJSON.dump
              CompactJSON.print H) as (parsed & _ & _ & _ & _ & _ & _ & Hall).
  exact Hall.
Defined.

Lemma parseVMess_type_is_payload_type_witness :
  ∃ parsed payload type,
    parseVMess CompactJSON.parse vmess_example = Ok parsed
    ∧ CompactJSON.parse (vmess_json vmess_example) = Some payload
    ∧ prop payload "type" = Ok type
    ∧ parsed@"type" = or_else type (VStr "none").
Proof.
  assert (H : ∃ parsed, parseVMess CompactJSON.parse vmess_example = Ok parsed)
    by (eexists; vm_compute; reflexivity).
  destruct H as [parsed H].
  destruct (parseVMess_type_is_payload_type CompactJSON.parse vmess_example
              parsed H) as (payload & type & H1 & H2 & H3).
  by exists parsed, payload, type.
Defined.

Lemma processLinks_one_entry_per_link_witness :
  let links := ["junk"; "vless://uuid-1@example.com:443?security=tls#n"] in
  let entries :=
    processLinks CompactJSON.parse CompactJSON.dump CompactJSON.print links 0 in
  List.length entries = 2
  ∧ entry_link <$> entries = links
  ∧ entries !! 0
    = Some (Failed "Unsupported protocol. Supported: vless, vmess, trojan, ss"
              "junk").
Proof.
  intros links entries.
  destruct (processLinks_one_entry_per_link CompactJSON.parse CompactJSON.dump
              CompactJSON.print links 0) as (Hlen & Hlinks & Hall).
  split; [exact Hlen|]. split; [exact Hlinks|].
  destruct (Hall 0 "junk" eq_refl) as (e & He & Hparse & _).
  rewrite (Hparse (Error "Unsupported protocol. Supported: vless, vmess, trojan, ss")
             eq_refl) in He.
  exact He.
Defined.

Lemma tag_numbers_input_position_witness :
  let links := ["junk"; "vless://uuid-1@example.com:443?security=tls#n"] in
  ∃ original fmts link tag,
    processLinks CompactJSON.parse CompactJSON.dump CompactJSON.print links 0 !! 1
    = Some (Converted original fmts link tag)
    ∧ links !! 1 = Some link
    ∧ tag = "n-2 [vortexVpn]".
Proof.
  intros links.
  assert (H : ∃ original fmts link,
             processLinks CompactJSON.parse CompactJSON.dump CompactJSON.print
               links 0 !! 1
             = Some (Converted original fmts link "n-2 [vortexVpn]"))
    by (do 3 eexists; vm_compute; reflexivity).
  destruct H as (original & fmts & link & H).
  exists original, fmts, link, "n-2 [vortexVpn]".
  split; [exact H|].
  destruct (tag_numbers_input_position CompactJSON.parse CompactJSON.dump
              CompactJSON.print links 1 original fmts link _ H) as [Hl _].
  split; [exact Hl|reflexivity].
Defined.

Lemma extractLinks_keeps_marked_segments_witness :
  let rawInput :=
    " a , vless://uuid-1@example.com:443?security=tls#n,vmess://QUJDRA==" in
  extractLinks rawInput = Ok ["vless://uuid-1@example.com:443?security=tls#n"]
  ∧ "vmess://QUJDRA==" ∉ filter passes (segments rawInput).
Proof.
  intros rawInput.
  destruct (extractLinks_keeps_marked_segments CompactJSON.parse CompactJSON.dump
              CompactJSON.print rawInput) as (Hret & _ & Hvmess & _).
  split.
  - rewrite Hret. vm_compute. reflexivity.
  - apply (Hvmess "QUJDRA=="). vm_compute. reflexivity.
Defined.


Lemma processLinks_aborts_on_non_string_link_witness :
  Untyped.processLinks CompactJSON.parse CompactJSON.dump CompactJSON.print
    [VNum (Int 123); VStr "junk"] 0
  = Throw (TypeError "singleLink.substring is not a function")
  ∧ Untyped.processLinks CompactJSON.parse CompactJSON.dump CompactJSON.print
      [VStr "junk"; VNum (Int 123)] 0
    = Throw (TypeError "singleLink.substring is not a function")
  ∧ Untyped.processLinks CompactJSON.parse CompactJSON.dump CompactJSON.print
      [VStr "junk"] 0
    = Ok [Failed "Unsupported protocol. Supported: vless, vmess, trojan, ss"
            "junk"].
Proof.
  destruct (processLinks_aborts_on_non_string_link CompactJSON.parse
              CompactJSON.dump CompactJSON.print [] (VNum (Int 123))
              [VStr "junk"] 0 eq_refl) as (_ & Hfirst & _).
  destruct (processLinks_aborts_on_non_string_link CompactJSON.parse
              CompactJSON.dump CompactJSON.print ["junk"] (VNum (Int 123))
              [] 0 eq_refl) as (_ & Hlast & Htexts & _).
  split; [exact Hfirst|]. split; [exact Hlast|].
  etrans; [exact Htexts|]. vm_compute. reflexivity.
Defined.

(* ================================================================== *)
(** * Further properties of the converter                              *)
(* ================================================================== *)

(** ** Splitting, joining and searching *)

Lemma split_cons s sep : ∃ x l, split s sep = x :: l.
Proof.
  induction s as [|c r (x & l & IH)]; simpl; [eauto|].
  destruct (Ascii.eqb c sep); [eauto|]. rewrite IH. eauto.
Qed.

Lemma split_first s sep : is_Some (elem (split s sep) 0).
Proof. destruct (split_cons s sep) as (x & l & ->). by eexists. Qed.

Lemma split_without s sep : includes s sep = false → split s sep = [s].
Proof.
  induction s as [|c r IH]; simpl; [done|].
  intros [Hc Hr]%orb_false_iff. by rewrite Hc, IH.
Qed.

Lemma split_app s t sep :
  includes s sep = false →
  split (s +:+ String sep t) sep = s :: split t sep.
Proof.
  induction s as [|c r IH]; simpl.
  - intros _. change (EmptyString +:+ String sep t) with (String sep t).
    simpl. by rewrite Ascii.eqb_refl.
  - intros [Hc Hr]%orb_false_iff. rewrite ?append_cons; simpl.
    by rewrite Hc, IH.
Qed.

(** Joining the pieces with the separator gives the text back. *)
Lemma join_split s sep : join (String sep EmptyString) (split s sep) = s.
Proof.
  induction s as [|c r IH]; simpl; [done|].
  destruct (Ascii.eqb_spec c sep) as [->|Hne].
  - destruct (split_cons r sep) as (x & l & Hx). rewrite Hx in *.
    change (join (String sep "") (EmptyString :: x :: l))
      with (EmptyString +:+ String sep "" +:+ join (String sep "") (x :: l)).
    by rewrite IH.
  - destruct (split_cons r sep) as (x & l & Hx). rewrite Hx in *.
    destruct l as [|y l].
    + simpl in *. by subst.
    + change (join (String sep "") (String c x :: y :: l))
        with (String c x +:+ String sep "" +:+ join (String sep "") (y :: l)).
      change (join (String sep "") (x :: y :: l))
        with (x +:+ String sep "" +:+ join (String sep "") (y :: l)) in IH.
      by rewrite append_cons, IH.
Qed.

Lemma split_pieces_without s sep x : x ∈ split s sep → includes x sep = false.
Proof.
  revert x. induction s as [|c r IH]; simpl; intros x.
  - by intros ->%list_elem_of_singleton.
  - destruct (Ascii.eqb c sep) eqn:E.
    + intros [->|Hin]%elem_of_cons; [done|auto].
    + destruct (split_cons r sep) as (y & l & Hy). rewrite Hy in *.
      intros [->|Hin]%elem_of_cons.
      * simpl. rewrite E. apply IH. left.
      * apply IH. by right.
Qed.

Lemma split_pieces_sub s sep x d :
  x ∈ split s sep → includes x d = true → includes s d = true.
Proof.
  revert x. induction s as [|c r IH]; simpl; intros x.
  - by intros ->%list_elem_of_singleton.
  - destruct (Ascii.eqb c sep) eqn:E.
    + intros [->|Hin]%elem_of_cons; [done|].
      intros H. rewrite (IH _ Hin H). apply orb_true_r.
    + destruct (split_cons r sep) as (y & l & Hy). rewrite Hy in *.
      intros [->|Hin]%elem_of_cons; simpl.
      * intros [H|H]%orb_true_iff; [by rewrite H|].
        rewrite (IH y); [apply orb_true_r|left|done].
      * intros H. rewrite (IH x); [apply orb_true_r|by right|done].
Qed.

Lemma includes_false_app s t c :
  includes (s +:+ t) c = false ↔ includes s c = false ∧ includes t c = false.
Proof. rewrite includes_app. apply orb_false_iff. Qed.

Lemma indexOf_from_without s c i : includes s c = false → indexOf_from c s i = (-1)%Z.
Proof.
  revert i. induction s as [|a r IH]; intros i; simpl; [done|].
  intros [Ha Hr]%orb_false_iff. rewrite Ha. auto.
Qed.

Lemma indexOf_from_app s t c i :
  includes s c = false →
  indexOf_from c (s +:+ String c t) i = (i + Z.of_nat (String.length s))%Z.
Proof.
  revert i. induction s as [|a r IH]; intros i; simpl.
  - intros _. change (EmptyString +:+ String c t) with (String c t). simpl.
    rewrite Ascii.eqb_refl. lia.
  - intros [Ha Hr]%orb_false_iff. rewrite ?append_cons; simpl. rewrite Ha, IH by done.
    lia.
Qed.

Lemma indexOf_without s c : includes s c = false → indexOf s c = (-1)%Z.
Proof. apply indexOf_from_without. Qed.

Lemma indexOf_app s t c :
  includes s c = false → indexOf (s +:+ String c t) c = Z.of_nat (String.length s).
Proof. intros H. unfold indexOf. by rewrite indexOf_from_app. Qed.

Lemma length_append (s t : string) :
  String.length (s +:+ t) = (String.length s + String.length t)%nat.
Proof. induction s as [|a r IH]; [done|]. rewrite ?append_cons; simpl. by rewrite IH. Qed.

Lemma substring_0_length s : String.substring 0 (String.length s) s = s.
Proof. induction s as [|a r IH]; simpl; [done|]. by rewrite IH. Qed.

Lemma substring_0_app s t :
  String.substring 0 (String.length s) (s +:+ t) = s.
Proof.
  induction s as [|a r IH]; simpl.
  - by destruct t.
  - rewrite ?append_cons; simpl. by rewrite IH.
Qed.

Lemma substring_skip s t n :
  String.substring (String.length s) n (s +:+ t) = String.substring 0 n t.
Proof. induction s as [|a r IH]; [done|]. rewrite ?append_cons; simpl. apply IH. Qed.

Lemma substring_in_range s a b :
  (0 ≤ a ≤ b)%Z → (b ≤ Z.of_nat (String.length s))%Z →
  substring s a b = String.substring (Z.to_nat a) (Z.to_nat (b - a)) s.
Proof. intros. unfold substring. cbv zeta. f_equal; [f_equal|]; lia. Qed.

(** [s.substring(0, i)] and [s.substring(i)] on a concatenation. *)
Lemma JS_substring_prefix s t :
  substring (s +:+ t) 0 (Z.of_nat (String.length s)) = s.
Proof.
  rewrite substring_in_range by (rewrite ?length_append; lia).
  rewrite Z.sub_0_r, Nat2Z.id. apply substring_0_app.
Qed.

Lemma JS_substring_from s t :
  substring_from (s +:+ t) (Z.of_nat (String.length s)) = t.
Proof.
  unfold substring_from.
  rewrite substring_in_range by (rewrite ?length_append; lia).
  rewrite length_append, Nat2Z.id.
  replace (Z.to_nat _) with (String.length t) by lia.
  rewrite substring_skip. apply substring_0_length.
Qed.

Lemma JS_substring_from_cons s c t :
  substring_from (s +:+ String c t) (Z.of_nat (String.length s) + 1) = t.
Proof.
  replace (s +:+ String c t) with ((s +:+ String c EmptyString) +:+ t)
    by (by rewrite append_assoc).
  replace (Z.of_nat (String.length s) + 1)%Z
    with (Z.of_nat (String.length (s +:+ String c EmptyString)))
    by (rewrite length_append; simpl; lia).
  apply JS_substring_from.
Qed.

Lemma JS_substring_middle s c m t :
  substring (s +:+ String c (m +:+ t)) (Z.of_nat (String.length s) + 1)
    (Z.of_nat (String.length s) + 1 + Z.of_nat (String.length m)) = m.
Proof.
  rewrite substring_in_range
    by (rewrite ?length_append; simpl; rewrite ?length_append; lia).
  replace (Z.to_nat (Z.of_nat (String.length s) + 1))
    with (String.length (s +:+ String c EmptyString))
    by (rewrite length_append; simpl; lia).
  replace (s +:+ String c (m +:+ t)) with ((s +:+ String c EmptyString) +:+ (m +:+ t))
    by (by rewrite append_assoc).
  rewrite substring_skip.
  replace (Z.to_nat _) with (String.length m) by lia.
  apply substring_0_app.
Qed.

Lemma prefix_app p s : String.prefix p (p +:+ s) = true.
Proof.
  induction p as [|a r IH]; [by destruct s|].
  rewrite append_cons. simpl. destruct (ascii_dec a a); [done|congruence].
Qed.

Lemma startsWith_app p s : startsWith (p +:+ s) p = true.
Proof. apply prefix_app. Qed.

Lemma drop_chars_app p s : drop_chars (String.length p) (p +:+ s) = s.
Proof. induction p as [|a r IH]; [done|]. rewrite ?append_cons; simpl. done. Qed.

(** Removing a prefix with [replace]. *)
Lemma replace_prefix p s : replace (p +:+ s) p EmptyString = s.
Proof.
  destruct (p +:+ s) eqn:E.
  - simpl. destruct p; [|done]. simpl in *. by destruct s.
  - unfold replace; fold replace. rewrite <- E, prefix_app, drop_chars_app. done.
Qed.


Lemma split_app_any s t sep :
  split (s +:+ String sep t) sep = (split s sep ++ split t sep)%list.
Proof.
  induction s as [|c r IH].
  - change (EmptyString +:+ String sep t) with (String sep t).
    simpl. by rewrite Ascii.eqb_refl.
  - rewrite append_cons. simpl. rewrite IH.
    destruct (Ascii.eqb c sep); [done|].
    destruct (split_cons r sep) as (x & l & ->). done.
Qed.

Lemma last_split_app s t sep :
  includes t sep = false → last (split (s +:+ String sep t) sep) = Some t.
Proof.
  intros H. rewrite split_app_any, (split_without t) by done.
  apply last_snoc.
Qed.

Lemma append_inj_r (a b s : string) : a +:+ s = b +:+ s → a = b.
Proof.
  intros H.
  assert (Hl : String.length a = String.length b).
  { apply (f_equal String.length) in H. rewrite !length_append in H. lia. }
  revert b H Hl. induction a as [|x a IH]; intros [|y b] H Hl; try done.
  rewrite !append_cons in H. injection H as -> H. f_equal. apply IH; [done|].
  simpl in Hl. lia.
Qed.

(** ** Decimal digits *)

Lemma digit_char_val (d : N) :
  (d < 10)%N → digit_val (ascii_of_N (48 + d)) = Some (Z.of_N d).
Proof.
  intros H.
  assert (d = 0 ∨ d = 1 ∨ d = 2 ∨ d = 3 ∨ d = 4 ∨ d = 5 ∨ d = 6 ∨ d = 7
          ∨ d = 8 ∨ d = 9)%N as Hd by lia.
  repeat destruct Hd as [->|Hd]; try subst d; reflexivity.
Qed.

Lemma digit_char_is_digit (d : N) : (d < 10)%N → is_digit (ascii_of_N (48 + d)) = true.
Proof.
  intros H.
  assert (d = 0 ∨ d = 1 ∨ d = 2 ∨ d = 3 ∨ d = 4 ∨ d = 5 ∨ d = 6 ∨ d = 7
          ∨ d = 8 ∨ d = 9)%N as Hd by lia.
  repeat destruct Hd as [->|Hd]; try subst d; reflexivity.
Qed.

Lemma decimal_fuel_value fuel n acc :
  (n < 2 ^ N.of_nat fuel)%N →
  digits_from (decimal_fuel fuel n acc) 0 = digits_from acc (Z.of_N n).
Proof.
  revert n acc. induction fuel as [|fuel IH]; intros n acc Hn.
  - simpl in *. assert (n = 0%N) as -> by lia. done.
  - assert (Hmod : (n mod 10 < 10)%N) by (apply N.mod_lt; lia).
    simpl decimal_fuel. destruct (N.ltb_spec n 10) as [Hlt|Hge].
    + simpl. rewrite digit_char_val by done.
      rewrite N.mod_small by done. f_equal.
    + rewrite IH.
      * simpl. rewrite digit_char_val by done. f_equal.
        rewrite (N.div_mod n 10) at 3 by lia. lia.
      * rewrite Nat2N.inj_succ, N.pow_succ_r' in Hn.
        apply N.Div0.div_lt_upper_bound. lia.
Qed.

Lemma fuel_enough n : (n < 2 ^ N.of_nat (S (N.to_nat (N.log2 n))))%N.
Proof.
  rewrite Nat2N.inj_succ, N2Nat.id.
  destruct (N.eq_dec n 0%N) as [->|Hn]; [done|].
  apply N.log2_spec. lia.
Qed.

(** Reading the digits of [decimal n] gives [n] back. *)
Lemma decimal_value n : digits_from (decimal n) 0 = Z.of_N n.
Proof. unfold decimal. by rewrite decimal_fuel_value by apply fuel_enough. Qed.

Lemma decimal_inj n m : decimal n = decimal m → n = m.
Proof.
  intros H. apply (f_equal (λ s, digits_from s 0)) in H.
  rewrite !decimal_value in H. lia.
Qed.

Lemma decimal_fuel_digits fuel n acc :
  all_chars is_digit acc = true → all_chars is_digit (decimal_fuel fuel n acc) = true.
Proof.
  revert n acc. induction fuel as [|fuel IH]; intros n acc Hacc; [done|].
  assert (Hmod : (n mod 10 < 10)%N) by (apply N.mod_lt; lia).
  simpl decimal_fuel. destruct (n <? 10)%N.
  - simpl. by rewrite digit_char_is_digit, Hacc.
  - apply IH. simpl. by rewrite digit_char_is_digit, Hacc.
Qed.

Lemma decimal_digits n : all_chars is_digit (decimal n) = true.
Proof. by apply decimal_fuel_digits. Qed.

Lemma digits_without s c : is_digit c = false → all_chars is_digit s = true → includes s c = false.
Proof.
  intros Hc. induction s as [|a r IH]; simpl; [done|].
  intros [Ha Hr]%andb_true_iff. rewrite IH by done.
  destruct (Ascii.eqb_spec a c) as [->|]; [congruence|done].
Qed.

(** The position can be read back from a tag. *)
Lemma tag_of_inj name1 name2 i j : tag_of name1 i = tag_of name2 j → i = j.
Proof.
  unfold tag_of. intros H.
  rewrite <- !append_assoc in H. apply append_inj_r in H.
  rewrite !append_assoc in H.
  change ("-" +:+ ?d) with (String "-" d) in H.
  assert (Hl : last (split (name1 +:+ String "-" (decimal (N.of_nat i))) "-")
               = last (split (name2 +:+ String "-" (decimal (N.of_nat j))) "-"))
    by (by rewrite H).
  rewrite !last_split_app in Hl
    by (apply digits_without; [done|apply decimal_digits]).
  injection Hl as Hl. apply decimal_inj in Hl. lia.
Qed.


Lemma includes_cons_false a s c :
  includes (String a s) c = false ↔ Ascii.eqb a c = false ∧ includes s c = false.
Proof. simpl. apply orb_false_iff. Qed.

Lemma of_nat_eqb_m1 n : (Z.of_nat n =? -1)%Z = false.
Proof. apply Z.eqb_neq. lia. Qed.

Lemma trojan_cut_parts base query fragment :
  includes base "?" = false → includes base "#" = false →
  (∀ q, query = Some q → includes q "#" = false) →
  (∀ f, fragment = Some f → includes f "?" = false) →
  trojan_cut (base +:+ tail_part "?" query +:+ tail_part "#" fragment)
  = (base, default EmptyString query, default EmptyString fragment).
Proof.
  intros Hb1 Hb2 Hq Hf. unfold trojan_cut.
  destruct query as [q|], fragment as [f|]; simpl tail_part; simpl default.
  - specialize (Hq q eq_refl). rewrite append_cons.
    assert (Hsharp : indexOf (base +:+ String "?" (q +:+ String "#" f)) "#"
                     = Z.of_nat (String.length base + 1 + String.length q)).
    { replace (base +:+ String "?" (q +:+ String "#" f))
        with ((base +:+ String "?" q) +:+ String "#" f)
        by (by rewrite append_assoc, append_cons).
      rewrite indexOf_app
        by (apply includes_false_app; split; [done|]; by apply includes_cons_false).
      rewrite length_append. simpl. f_equal. lia. }
    rewrite (indexOf_app base) by done. rewrite Hsharp, !of_nat_eqb_m1.
    simpl.
    replace (_ >? _)%Z with true by (symmetry; apply Z.gtb_lt; lia).
    rewrite JS_substring_prefix.
    replace (Z.of_nat (String.length base + 1 + String.length q))
      with (Z.of_nat (String.length base) + 1 + Z.of_nat (String.length q))%Z by lia.
    rewrite JS_substring_middle.
    replace (base +:+ String "?" (q +:+ String "#" f))
      with ((base +:+ String "?" q) +:+ String "#" f)
      by (by rewrite append_assoc, append_cons).
    replace (Z.of_nat (String.length base) + 1 + Z.of_nat (String.length q) + 1)%Z
      with (Z.of_nat (String.length (base +:+ String "?" q)) + 1)%Z
      by (rewrite length_append; simpl; lia).
    by rewrite JS_substring_from_cons.
  - specialize (Hq q eq_refl). rewrite append_nil_r.
    rewrite (indexOf_app base) by done.
    rewrite (indexOf_without _ "#")
      by (apply includes_false_app; split; [done|]; by apply includes_cons_false).
    rewrite of_nat_eqb_m1.
    simpl. by rewrite JS_substring_prefix, JS_substring_from_cons.
  - specialize (Hf f eq_refl).
    change (base +:+ EmptyString +:+ String "#" f) with (base +:+ String "#" f).
    rewrite (indexOf_app base) by done.
    rewrite (indexOf_without _ "?")
      by (apply includes_false_app; split; [done|]; by apply includes_cons_false).
    rewrite of_nat_eqb_m1.
    simpl. by rewrite JS_substring_prefix, JS_substring_from_cons.
  - rewrite !append_nil_r. by rewrite !indexOf_without.
Qed.

Lemma free_of_excludes marks s c :
  free_of marks s = true → includes marks c = true → includes s c = false.
Proof.
  intros Hs Hc. induction s as [|a r IH]; simpl in *; [done|].
  apply andb_true_iff in Hs as [Ha Hr]. rewrite IH by done.
  destruct (Ascii.eqb_spec a c) as [->|]; [|done].
  by rewrite Hc in Ha.
Qed.

Ltac excl := eapply free_of_excludes; [eassumption|reflexivity].

(** X1.  A trojan link written as [trojan://userinfo@host:port] with an
    optional [?query] and an optional [#fragment], the parts free of the
    marks that delimit them and the port text at most 15 characters long
    (so that [parseInt] reads it exactly).  [parseTrojan] throws "Invalid
    port" when
    [parseInt] finds no number at the start of the port text; otherwise it
    returns the record whose password is the percent-decoded userinfo, whose
    host and port are those of the link, whose options are read from the
    query and whose name is the decoded fragment ("Trojan Server" without
    one).  A query or a userinfo that cannot be percent-decoded makes it
    throw. *)
Theorem parseTrojan_reads_parts userinfo host port query fragment :
  String.eqb userinfo EmptyString = false →
  free_of "@?#" userinfo = true → free_of "@:?#" host = true →
  free_of "@:?#" port = true → short_port port = true →
  free_of "#" (default EmptyString query) = true →
  free_of "?" (default EmptyString fragment) = true →
  parseTrojan (trojan_link userinfo host port query fragment)
  = match parseInt_string port with
    | NaN => Throw (Error "Invalid Trojan link format: Invalid port")
    | Int z =>
        params ← trojan_params query;
        password ← decodeURIComponent userinfo;
        Ok (object_literal
              [ ("type", VStr "trojan");
                ("password", VStr password);
                ("host", VStr host);
                ("port", VNum (Int z));
                ("security", VStr "tls");
                ("network", VStr (or_str (params !! "type") "tcp"));
                ("path", VStr (or_str (params !! "path")
                                 (if bool_decide (params !! "type" = Some "ws")
                                  then "/" else EmptyString)));
                ("host_header", or_else (of_opt (params !! "host")) (VStr host));
                ("sni", or_else (of_opt (params !! "sni"))
                          (or_else (of_opt (params !! "host")) (VStr host)));
                ("alpn", VStr (or_str (params !! "alpn") EmptyString));
                ("fp", VStr (or_str (params !! "fp") EmptyString));
                ("allowInsecure",
                  VBool (bool_decide (params !! "allowInsecure" = Some "1")
                         || bool_decide (params !! "allowInsecure" = Some "true")
                         || false));
                ("name", VStr (name_of fragment "Trojan Server")) ])
    end.
Proof.
  intros Hne Hu Hh Hp _ Hq Hf. unfold parseTrojan, trojan_link.
  pose proof (free_of_excludes _ _ "@" Hu eq_refl) as Hu1.
  pose proof (free_of_excludes _ _ "?" Hu eq_refl) as Hu2.
  pose proof (free_of_excludes _ _ "#" Hu eq_refl) as Hu3.
  pose proof (free_of_excludes _ _ "@" Hh eq_refl) as Hh1.
  pose proof (free_of_excludes _ _ ":" Hh eq_refl) as Hh2.
  pose proof (free_of_excludes _ _ "?" Hh eq_refl) as Hh3.
  pose proof (free_of_excludes _ _ "#" Hh eq_refl) as Hh4.
  pose proof (free_of_excludes _ _ "@" Hp eq_refl) as Hp1.
  pose proof (free_of_excludes _ _ ":" Hp eq_refl) as Hp2.
  pose proof (free_of_excludes _ _ "?" Hp eq_refl) as Hp3.
  pose proof (free_of_excludes _ _ "#" Hp eq_refl) as Hp4.
  rewrite startsWith_app. cbv beta iota delta [negb].
  rewrite JS_substring_from.
  rewrite trojan_cut_parts.
  2:{ repeat (rewrite ?includes_app; simpl). by rewrite Hu2, Hh3, Hp3. }
  2:{ repeat (rewrite ?includes_app; simpl). by rewrite Hu3, Hh4, Hp4. }
  2:{ intros q ->. eapply free_of_excludes; [exact Hq|done]. }
  2:{ intros f ->. eapply free_of_excludes; [exact Hf|done]. }
  rewrite split_app by done.
  rewrite (split_without (host +:+ String ":" port))
    by (repeat (rewrite ?includes_app; simpl); by rewrite Hh1, Hp1).
  simpl elem. unfold str_truthy.
  rewrite Hne.
  assert (Hs : String.eqb (host +:+ String ":" port) EmptyString = false)
    by (by destruct host).
  rewrite Hs. simpl negb. simpl orb. cbv iota.
  unfold String_of, default, from_option, id. rewrite split_app by done.
  rewrite (split_without port) by done. simpl elem.
  destruct (parseInt_string port) as [|z]; simpl isNaN; cbv iota; [done|].
  unfold trojan_params, name_of.
  destruct query as [q|]; [destruct (String.eqb q EmptyString)|];
    (destruct fragment as [f|]; [destruct (String.eqb f EmptyString)|]);
    reflexivity.
Qed.


Lemma includes_tail_part mark o c :
  Ascii.eqb mark c = false → (∀ s, o = Some s → includes s c = false) →
  includes (tail_part mark o) c = false.
Proof. intros Hm Ho. destruct o as [s|]; simpl; [|done]. by rewrite Hm, Ho. Qed.

Lemma vless_fields_built uuid host port q fragment :
  free_of "@:" uuid = true → free_of "@:?#" host = true →
  free_of "@:?#" port = true → free_of "@?#" q = true →
  (∀ f, fragment = Some f → free_of "@?#" f = true) →
  vless_fields (vless_link uuid host port (Some q) fragment)
  = (params ← vless_params (Some q);
     Ok (Some uuid, Some host, Some port, params, default EmptyString fragment)).
Proof.
  intros Hu Hh Hp Hq Hf. unfold vless_fields, vless_link.
  pose proof (free_of_excludes _ _ "@" Hu eq_refl) as Hu1.
  pose proof (free_of_excludes _ _ ":" Hu eq_refl) as Hu2.
  pose proof (free_of_excludes _ _ "@" Hh eq_refl) as Hh1.
  pose proof (free_of_excludes _ _ ":" Hh eq_refl) as Hh2.
  pose proof (free_of_excludes _ _ "?" Hh eq_refl) as Hh3.
  pose proof (free_of_excludes _ _ "@" Hp eq_refl) as Hp1.
  pose proof (free_of_excludes _ _ ":" Hp eq_refl) as Hp2.
  pose proof (free_of_excludes _ _ "?" Hp eq_refl) as Hp3.
  pose proof (free_of_excludes _ _ "@" Hq eq_refl) as Hq1.
  pose proof (free_of_excludes _ _ "?" Hq eq_refl) as Hq2.
  pose proof (free_of_excludes _ _ "#" Hq eq_refl) as Hq3.
  assert (Hf1 : ∀ c, includes "@?#" c = true →
                     ∀ f, fragment = Some f → includes f c = false).
  { intros c Hc f ->. eapply free_of_excludes; [by apply Hf|done]. }
  rewrite replace_prefix. simpl tail_part.
  rewrite split_app by done.
  rewrite (split_without (host +:+ _))
    by (repeat (rewrite ?includes_app; simpl);
        rewrite Hh1, Hp1, Hq1, (includes_tail_part "#" fragment "@") by auto; done).
  simpl elem. simpl receiver. simpl mbind.
  rewrite (split_without uuid) by done. simpl elem.
  replace (host +:+ String ":" (port +:+ String "?" q +:+ tail_part "#" fragment))
    with ((host +:+ String ":" port) +:+ String "?" (q +:+ tail_part "#" fragment))
    by (by rewrite ?append_assoc, ?append_cons, ?append_assoc).
  rewrite split_app
    by (repeat (rewrite ?includes_app; simpl); by rewrite Hh3, Hp3).
  rewrite (split_without (q +:+ _))
    by (repeat (rewrite ?includes_app; simpl);
        rewrite Hq2, (includes_tail_part "#" fragment "?") by auto; done).
  simpl elem. simpl receiver. simpl mbind.
  rewrite split_app by done. rewrite (split_without port) by done. simpl elem.
  unfold str_truthy, String_of, default, from_option, id, vless_params.
  destruct fragment as [f|]; simpl tail_part.
  - rewrite split_app by done.
    rewrite (split_without f) by (apply (Hf1 "#"%char); done).
    simpl elem. 
    assert (Hne : String.eqb (q +:+ String "#" f) EmptyString = false)
      by (by destruct q).
    rewrite Hne. simpl negb. cbv iota.
    destruct (String.eqb q EmptyString) eqn:Eq; simpl negb; cbv iota.
    + simpl. by destruct (String.eqb_spec f EmptyString) as [->|].
    + destruct (forEach _ _ _); simpl; [|done].
      by destruct (String.eqb_spec f EmptyString) as [->|].
  - rewrite append_nil_r. rewrite (split_without q) by done. simpl elem.
    destruct (String.eqb q EmptyString) eqn:Eq; simpl negb; cbv iota.
    + done.
    + destruct (forEach _ _ _); simpl; rewrite ?Eq; done.
Qed.




Lemma vless_fields_no_query uuid host port f :
  free_of "@:" uuid = true → free_of "@:?" host = true →
  free_of "@:?" port = true → free_of "@:?" f = true →
  vless_fields (vless_link uuid host port None (Some f))
  = Ok (Some uuid, Some host, Some (port +:+ String "#" f), ∅, EmptyString).
Proof.
  intros Hu Hh Hp Hf. unfold vless_fields, vless_link.
  pose proof (free_of_excludes _ _ "@" Hu eq_refl) as Hu1.
  pose proof (free_of_excludes _ _ ":" Hu eq_refl) as Hu2.
  pose proof (free_of_excludes _ _ "@" Hh eq_refl) as Hh1.
  pose proof (free_of_excludes _ _ ":" Hh eq_refl) as Hh2.
  pose proof (free_of_excludes _ _ "?" Hh eq_refl) as Hh3.
  pose proof (free_of_excludes _ _ "@" Hp eq_refl) as Hp1.
  pose proof (free_of_excludes _ _ ":" Hp eq_refl) as Hp2.
  pose proof (free_of_excludes _ _ "?" Hp eq_refl) as Hp3.
  pose proof (free_of_excludes _ _ "@" Hf eq_refl) as Hf1.
  pose proof (free_of_excludes _ _ ":" Hf eq_refl) as Hf2.
  pose proof (free_of_excludes _ _ "?" Hf eq_refl) as Hf3.
  rewrite replace_prefix. simpl tail_part.
  change (port +:+ EmptyString +:+ String "#" f) with (port +:+ String "#" f).
  rewrite split_app by done.
  rewrite (split_without (host +:+ _))
    by (repeat (rewrite ?includes_app; simpl); by rewrite Hh1, Hp1, Hf1).
  simpl elem. simpl receiver. simpl mbind.
  rewrite (split_without uuid) by done. simpl elem.
  rewrite (split_without (host +:+ _))
    by (repeat (rewrite ?includes_app; simpl); by rewrite Hh3, Hp3, Hf3).
  simpl elem. simpl receiver. simpl mbind.
  rewrite split_app by done.
  rewrite (split_without (port +:+ _))
    by (repeat (rewrite ?includes_app; simpl); by rewrite Hp2, Hf2).
  done.
Qed.



Lemma contains_prefix3 a b c rest : contains (a +:+ b +:+ c +:+ rest) (a +:+ b +:+ c).
Proof. exists EmptyString, rest. by rewrite !append_assoc. Qed.

Ltac find_endpoint :=
  rewrite ?append_nil_r;
  repeat first [ apply contains_prefix3 | apply contains_app_r ].

Lemma vless_record_endpoint uuid h port security flow network path host_header sni
    fp pbk sid spx alpn allowInsecure name :
  let config := vless_record uuid h port security flow network path host_header
                  sni fp pbk sid spx alpn allowInsecure name in
  (∃ clashConfig, toClash_config config = Ok clashConfig
                  ∧ clashConfig@"server" = VStr h ∧ clashConfig@"port" = VNum port)
  ∧ (∃ line, toSurge config = Ok line
             ∧ contains line (h +:+ ", " +:+ Number_toString port))
  ∧ (∃ line, toQuantumult config = Ok line
             ∧ contains line (h +:+ ":" +:+ Number_toString port))
  ∧ (∃ base, toSingBox_base config = Ok base
             ∧ base@"server" = VStr h ∧ base@"server_port" = VNum port).
Proof.
  intros config. unfold config. split; [|split; [|split]].
  - unfold toClash_config, vless_record. simpl.
    case_conditions; (eexists; split; [reflexivity|split; get_field]).
  - unfold toSurge, vless_record, line_ws, add_if, add, skip_cert_verify.
    destruct uuid; simpl;
      case_conditions; (eexists; split; [reflexivity|find_endpoint]).
  - unfold toQuantumult, vless_record, line_ws, add_if, add, skip_cert_verify.
    destruct uuid; simpl;
      case_conditions; (eexists; split; [reflexivity|find_endpoint]).
  - unfold toSingBox_base, vless_record, alpn_trimmed_nonempty. simpl.
    case_conditions; (eexists; split; [reflexivity|split; get_field]).
Qed.

Lemma trojan_record_endpoint password h port network path host_header sni alpn fp
    allowInsecure name :
  let config := trojan_record password h port network path host_header sni alpn
                  fp allowInsecure name in
  (∃ clashConfig, toClash_config config = Ok clashConfig
                  ∧ clashConfig@"server" = VStr h ∧ clashConfig@"port" = VNum port)
  ∧ (∃ line, toSurge config = Ok line
             ∧ contains line (h +:+ ", " +:+ Number_toString port))
  ∧ (∃ line, toQuantumult config = Ok line
             ∧ contains line (h +:+ ":" +:+ Number_toString port))
  ∧ (∃ base, toSingBox_base config = Ok base
             ∧ base@"server" = VStr h ∧ base@"server_port" = VNum port).
Proof.
  intros config. unfold config. split; [|split; [|split]].
  - unfold toClash_config, trojan_record. simpl.
    case_conditions; (eexists; split; [reflexivity|split; get_field]).
  - unfold toSurge, trojan_record, line_ws, add_if, add, skip_cert_verify. simpl.
    case_conditions; (eexists; split; [reflexivity|find_endpoint]).
  - unfold toQuantumult, trojan_record, line_ws, add_if, add, skip_cert_verify.
    simpl. case_conditions; (eexists; split; [reflexivity|find_endpoint]).
  - unfold toSingBox_base, trojan_record, alpn_trimmed_nonempty. simpl.
    case_conditions; (eexists; split; [reflexivity|split; get_field]).
Qed.

Lemma forEach_clash_plugin_opt parts opts :
  ∃ o, forEach clash_plugin_opt parts opts = Ok o.
Proof.
  revert opts. induction parts as [|part rest IH]; intros opts; simpl; [eauto|].
  assert (∃ o, clash_plugin_opt opts part = Ok o) as [o ->].
  { unfold clash_plugin_opt.
    repeat match goal with
           | |- context [if ?c then _ else _] => destruct c
           end; eauto. }
  apply IH.
Qed.

Lemma ss_record_endpoint method password h port plugin plugin_opts obfs obfsHost
    name :
  let config := ss_record method password h port plugin plugin_opts obfs obfsHost
                  name in
  (∃ clashConfig, toClash_config config = Ok clashConfig
                  ∧ clashConfig@"server" = VStr h ∧ clashConfig@"port" = VNum port)
  ∧ (∃ line, toSurge config = Ok line
             ∧ contains line (h +:+ ", " +:+ Number_toString port))
  ∧ (∃ line, toQuantumult config = Ok line
             ∧ contains line (h +:+ ":" +:+ Number_toString port))
  ∧ (∃ base, toSingBox_base config = Ok base
             ∧ base@"server" = VStr h ∧ base@"server_port" = VNum port).
Proof.
  intros config. unfold config. split; [|split; [|split]].
  - unfold toClash_config, ss_record. simpl.
    destruct (negb (String.eqb plugin EmptyString)); simpl.
    2:{ eexists. split; [reflexivity|split; get_field]. }
    destruct (negb (String.eqb plugin_opts EmptyString)); simpl.
    + destruct (forEach_clash_plugin_opt (split plugin_opts ";") []) as [o ->].
      simpl. case_conditions; (eexists; split; [reflexivity|split; get_field]).
    + case_conditions; (eexists; split; [reflexivity|split; get_field]).
  - unfold toSurge, ss_record. simpl.
    destruct password; simpl;
      case_conditions; (eexists; split; [reflexivity|find_endpoint]).
  - unfold toQuantumult, ss_record, add_if, add. simpl.
    destruct password; simpl;
      case_conditions; (eexists; split; [reflexivity|find_endpoint]).
  - unfold toSingBox_base, ss_record. simpl.
    case_conditions; (eexists; split; [reflexivity|split; get_field]).
Qed.


Lemma or_else_VStr a b : ∃ s, or_else (VStr a) (VStr b) = VStr s.
Proof. unfold or_else. destruct (truthy _); eauto. Qed.

Lemma or_else_of_opt o b : ∃ s, or_else (of_opt o) (VStr b) = VStr s.
Proof. destruct o; [apply or_else_VStr|]. by exists b. Qed.

Ltac step_bind H :=
  match type of H with
  | mbind _ ?r = Ok _ => destruct r eqn:?; simpl in H; [|discriminate H]
  end.

Lemma vless_fields_host link uuid host port params fragmentName :
  vless_fields link = Ok (uuid, host, port, params, fragmentName) → is_Some host.
Proof.
  unfold vless_fields. intros H.
  do 3 step_bind H.
  destruct (str_truthy _).
  - step_bind H. injection H as _ <- _ _ _. apply split_first.
  - injection H as _ <- _ _ _. apply split_first.
Qed.

(** Every record of [parseVLESS], as [processLinks] hands it on. *)
Lemma parseVLESS_shape link parsed configName :
  parseVLESS link = Ok parsed →
  ∃ uuid h port security flow network path host_header sni fp pbk sid spx alpn
    allowInsecure,
    parsed@"host" = VStr h ∧ parsed@"port" = VNum port
    ∧ (∃ name, parsed@"name" = VStr name)
    ∧ batch_config parsed configName
      = vless_record uuid h port security flow network path host_header sni fp
          pbk sid spx alpn allowInsecure configName.
Proof.
  intros Hp.
  destruct (vless_fields link) as [[[[[uuid host] port] params] frag]|] eqn:Hf.
  2:{ unfold parseVLESS in Hp. rewrite Hf in Hp.
      by destruct (negb _) in Hp. }
  destruct (vless_fields_host _ _ _ _ _ _ Hf) as [h ->].
  destruct (parseVLESS_record _ _ _ _ _ _ _ Hf Hp) as [name ->].
  destruct (or_else_of_opt (params !! "sni") h) as [sni1 Hsni1].
  destruct (or_else_of_opt (params !! "host") h) as [sni2 Hsni2].
  destruct (or_else_VStr (or_str (params !! "type") "tcp") "tcp") as [net Hnet].
  assert (∃ sni, or_else (of_opt (params !! "sni"))
                   (or_else (of_opt (params !! "host")) (of_opt (Some h)))
                 = VStr sni) as [sni Hsni].
  { simpl of_opt at 3. rewrite Hsni2. apply or_else_of_opt. }
  rewrite Hsni. unfold batch_config. simpl obj_get. rewrite Hnet.
  do 15 eexists. split; [reflexivity|]. split; [reflexivity|].
  split; [by eexists|]. reflexivity.
Qed.

Lemma parseTrojan_shape link parsed configName :
  parseTrojan link = Ok parsed →
  ∃ password h port network path host_header sni alpn fp allowInsecure,
    parsed@"host" = VStr h ∧ parsed@"port" = VNum port
    ∧ (∃ z, port = Int z)
    ∧ (∃ name, parsed@"name" = VStr name)
    ∧ batch_config parsed configName
      = trojan_record password h port network path host_header sni alpn fp
          allowInsecure configName.
Proof.
  unfold parseTrojan. intros H.
  destruct (negb (startsWith _ _)); [done|].
  destruct (trojan_cut _) as [[usi paramString] fragment].
  destruct (negb (str_truthy _) || negb (str_truthy _)); [done|].
  destruct (split_first (String_of (elem (split usi "@") 1)) ":") as [h Hh].
  rewrite Hh in H.
  destruct (parseInt_string _) as [|z] eqn:Hport; simpl in H; [done|].
  step_bind H. rename select (gmap string string) into params.
  step_bind H. injection H as <-.
  destruct (or_else_of_opt (params !! "host") h) as [hh Hhh].
  assert (∃ sni, or_else (of_opt (params !! "sni"))
                   (or_else (of_opt (params !! "host")) (of_opt (Some h)))
                 = VStr sni) as [sni Hsni].
  { simpl of_opt at 3. rewrite Hhh. apply or_else_of_opt. }
  destruct (or_else_VStr (or_str (params !! "type") "tcp") "tcp") as [net Hnet].
  simpl of_opt at 1 in Hhh.
  unfold batch_config. 
  change (of_opt (Some h)) with (VStr h) in *.
  rewrite Hsni, Hhh. simpl obj_get. rewrite Hnet.
  do 10 eexists. split; [reflexivity|]. split; [reflexivity|].
  split; [by eexists|]. split; [by eexists|]. reflexivity.
Qed.

Lemma parseSS_shape link parsed configName :
  parseSS link = Ok parsed →
  ∃ method password h port plugin plugin_opts obfs obfsHost,
    parsed@"host" = VStr h ∧ parsed@"port" = VNum port
    ∧ (∃ name, parsed@"name" = VStr name)
    ∧ batch_config parsed configName
      = ss_record method password h port plugin plugin_opts obfs obfsHost
          configName.
Proof.
  unfold parseSS. intros H.
  destruct (negb (startsWith _ _)); [done|].
  step_bind H. rename select string into hostport.
  step_bind H.
  destruct (split_first hostport ":") as [h Hh]. rewrite Hh in H.
  unfold ss_credentials, try_catch, split_limit in H. simpl in H.
  set (decoded := toString_utf8 _) in H.
  assert (∃ m, elem (take 2 (split decoded ":")) 0 = Some m) as [m Hm].
  { destruct (split_cons decoded ":") as (x & l & ->). by exists x. }
  rewrite Hm in H. injection H as <-.
  unfold batch_config. do 8 eexists.
  split; [reflexivity|]. split; [reflexivity|]. split; [by eexists|]. reflexivity.
Qed.

Lemma batch_config_get parsed configName k :
  k ≠ "name" → k ≠ "network" → (batch_config parsed configName)@k = parsed@k.
Proof.
  intros H1 H2. unfold batch_config.
  rewrite obj_get_set_ne by done. by rewrite obj_get_set_ne by done.
Qed.

Section Accepted.
Context (JSON_parse : string → option jsval).
Context (yaml_dump : jsval → result string).
Context (JSON_stringify : jsval → string).

Lemma parseAnyLink_cases link parsed :
  parseAnyLink JSON_parse link = Ok parsed → startsWith link "vmess://" = false →
  (startsWith link "vless://" = true ∧ parseVLESS link = Ok parsed)
  ∨ (startsWith link "trojan://" = true ∧ parseTrojan link = Ok parsed)
  ∨ (startsWith link "ss://" = true ∧ parseSS link = Ok parsed).
Proof.
  unfold parseAnyLink. intros H Hv. rewrite Hv in H.
  destruct (String.eqb link EmptyString); [done|].
  destruct (2000 <? JS.length link)%nat; [done|].
  destruct (startsWith link "vless://"); [auto|].
  destruct (startsWith link "trojan://"); [auto|].
  destruct (startsWith link "ss://"); [auto|done].
Qed.

Lemma accepted_shape link parsed :
  parseAnyLink JSON_parse link = Ok parsed → startsWith link "vmess://" = false →
  ∃ h port name,
    parsed@"host" = VStr h ∧ parsed@"port" = VNum port ∧ parsed@"name" = VStr name
    ∧ ∀ configName, endpoint_in_fragments (batch_config parsed configName) h port.
Proof.
  intros Hp Hv.
  destruct (parseAnyLink_cases _ _ Hp Hv) as [[_ H]|[[_ H]|[_ H]]].
  - destruct (parseVLESS_shape _ _ EmptyString H)
      as (uuid & h & port & security & flow & network & path & hh & sni & fp
          & pbk & sid & spx & alpn & ai & Hh & Hport & [name Hn] & _).
    exists h, port, name. do 3 (split; [done|]). intros configName.
    destruct (parseVLESS_shape _ _ configName H)
      as (? & h' & port' & ? & ? & ? & ? & ? & ? & ? & ? & ? & ? & ? & ?
          & Hh' & Hport' & _ & ->).
    rewrite Hh in Hh'. rewrite Hport in Hport'.
    injection Hh' as <-. injection Hport' as <-. apply vless_record_endpoint.
  - destruct (parseTrojan_shape _ _ EmptyString H)
      as (pw & h & port & network & path & hh & sni & alpn & fp & ai
          & Hh & Hport & _ & [name Hn] & _).
    exists h, port, name. do 3 (split; [done|]). intros configName.
    destruct (parseTrojan_shape _ _ configName H)
      as (? & h' & port' & ? & ? & ? & ? & ? & ? & ?
          & Hh' & Hport' & _ & _ & ->).
    rewrite Hh in Hh'. rewrite Hport in Hport'.
    injection Hh' as <-. injection Hport' as <-. apply trojan_record_endpoint.
  - destruct (parseSS_shape _ _ EmptyString H)
      as (m & pw & h & port & plugin & popts & obfs & obfsHost
          & Hh & Hport & [name Hn] & _).
    exists h, port, name. do 3 (split; [done|]). intros configName.
    destruct (parseSS_shape _ _ configName H)
      as (? & ? & h' & port' & ? & ? & ? & ?
          & Hh' & Hport' & _ & ->).
    rewrite Hh in Hh'. rewrite Hport in Hport'.
    injection Hh' as <-. injection Hport' as <-. apply ss_record_endpoint.
Qed.

(** X7.  Every vless, trojan or shadowsocks link that [parseAnyLink]
    accepts with a port that is [NaN] or a safe integer (the numbers that
    [parseInt] reads and [String] prints exactly) is serialised by all four
    serialisers, whatever name [processLinks] gives it, and each fragment
    holds the host and the port of the record: [server] and [port] of the Clash object, [host, port] in
    the Surge line, [host:port] in the Quantumult line, [server] and
    [server_port] of the sing-box object. *)
Theorem accepted_link_endpoint_in_fragments link parsed configName :
  parseAnyLink JSON_parse link = Ok parsed → startsWith link "vmess://" = false →
  safe_port parsed = true →
  ∃ h port,
    parsed@"host" = VStr h ∧ parsed@"port" = VNum port
    ∧ safe_integer port = true
    ∧ endpoint_in_fragments (batch_config parsed configName) h port.
Proof.
  intros Hp Hv Hsafe.
  destruct (accepted_shape _ _ Hp Hv) as (h & port & name & Hh & Hport & _ & He).
  exists h, port. unfold safe_port in Hsafe. rewrite Hport in Hsafe. auto.
Qed.

(** X8.  When [yaml.dump] returns, [processLinks] makes a success entry
    for every vless, trojan or shadowsocks link that [parseAnyLink] accepts:
    for these links a failure entry can only come from the parser. *)
Theorem accepted_link_is_converted link parsed startIndex i :
  parseAnyLink JSON_parse link = Ok parsed → startsWith link "vmess://" = false →
  (∀ v, is_Ok (yaml_dump v) = true) →
  ∃ original fmts tag,
    pushed JSON_parse yaml_dump JSON_stringify startIndex i link
    = Converted original fmts link tag.
Proof.
  intros Hp Hv Hy. unfold pushed, convert. rewrite Hp. simpl.
  destruct (accepted_shape _ _ Hp Hv) as (h & port & name & _ & _ & Hname & He).
  rewrite Hname.
  destruct (or_else_VStr name "Proxy Server") as [n ->]. simpl.
  destruct (He (tag_of n (startIndex + i + 1)))
    as ((c & Hc & _) & (s & Hs & _) & (q & Hq & _) & (b & Hb & _)).
  unfold toClash, toSingBox. rewrite Hc, Hs, Hq, Hb. simpl.
  specialize (Hy (VArr [VObj c])). destruct (yaml_dump _); [|done].
  simpl. eauto.
Qed.

(** X6.  The record that [parseAnyLink] returns for a link that does not
    start with [vmess://] has the scheme of the link as its [type]: "vless",
    "trojan" or "ss". *)
Theorem accepted_type_is_scheme link parsed :
  parseAnyLink JSON_parse link = Ok parsed → startsWith link "vmess://" = false →
  ∃ scheme,
    scheme ∈ ["vless"; "trojan"; "ss"]
    ∧ startsWith link (scheme +:+ "://") = true
    ∧ parsed@"type" = VStr scheme.
Proof.
  intros Hp Hv.
  destruct (parseAnyLink_cases _ _ Hp Hv) as [[Hs H]|[[Hs H]|[Hs H]]].
  - exists "vless". split; [set_solver|]. split; [done|].
    destruct (parseVLESS_shape _ _ EmptyString H)
      as (? & ? & ? & ? & ? & ? & ? & ? & ? & ? & ? & ? & ? & ? & ? & _ & _ & _ & Hr).
    rewrite <- (batch_config_get parsed EmptyString) by done. by rewrite Hr.
  - exists "trojan". split; [set_solver|]. split; [done|].
    destruct (parseTrojan_shape _ _ EmptyString H)
      as (? & ? & ? & ? & ? & ? & ? & ? & ? & ? & _ & _ & _ & _ & Hr).
    rewrite <- (batch_config_get parsed EmptyString) by done. by rewrite Hr.
  - exists "ss". split; [set_solver|]. split; [done|].
    destruct (parseSS_shape _ _ EmptyString H)
      as (? & ? & ? & ? & ? & ? & ? & ? & _ & _ & _ & Hr).
    rewrite <- (batch_config_get parsed EmptyString) by done. by rewrite Hr.
Qed.
End Accepted.

(** X2.  Every record that [parseTrojan] returns has a port that is a
    number other than [NaN] (a link whose port text starts with no digit is
    refused), and the security "tls". *)
Theorem parseTrojan_port_is_not_NaN link parsed :
  parseTrojan link = Ok parsed →
  (∃ port, parsed@"port" = VNum port ∧ isNaN port = false)
  ∧ parsed@"security" = VStr "tls".
Proof.
  intros H.
  destruct (parseTrojan_shape _ _ EmptyString H)
    as (? & ? & port & ? & ? & ? & ? & ? & ? & ? & _ & Hport & [z ->] & _ & Hr).
  split; [by exists (Int z)|].
  rewrite <- (batch_config_get parsed EmptyString) by done. by rewrite Hr.
Qed.


Lemma name_of_default fragment placeholder :
  (if negb (String.eqb (default EmptyString fragment) EmptyString)
   then decode_or_raw (default EmptyString fragment) else placeholder)
  = name_of fragment placeholder.
Proof.
  destruct fragment as [f|]; simpl; [|done]. by destruct (String.eqb f EmptyString).
Qed.

(** X3.  A vless link written as [vless://uuid@host:port?query] with an
    optional [#fragment], the parts free of the marks that delimit them and
    the port text at most 15 characters long (so that [parseInt] reads it
    exactly): [parseVLESS] returns the record with the identifier, host and
    port of the link, the options read from the query, and the decoded
    fragment as name ("VLESS Server" without one); it throws only when a
    query parameter cannot be percent-decoded. *)
Theorem parseVLESS_reads_parts uuid host port q fragment :
  free_of "@:" uuid = true → free_of "@:?#" host = true →
  free_of "@:?#" port = true → short_port port = true →
  free_of "@?#" q = true →
  free_of "@?#" (default EmptyString fragment) = true →
  parseVLESS (vless_link uuid host port (Some q) fragment)
  = (params ← vless_params (Some q);
     Ok (object_literal
           [ ("type", VStr "vless");
             ("uuid", VStr uuid);
             ("host", VStr host);
             ("port", VNum (parseInt_string port));
             ("security", VStr (or_str (params !! "security") "none"));
             ("flow", VStr (or_str (params !! "flow") EmptyString));
             ("network", VStr (or_str (params !! "type") "tcp"));
             ("path", VStr (or_str (params !! "path")
                              (if bool_decide (params !! "type" = Some "ws")
                               then "/" else EmptyString)));
             ("host_header", VStr (or_str (params !! "host") EmptyString));
             ("sni", or_else (of_opt (params !! "sni"))
                       (or_else (of_opt (params !! "host")) (VStr host)));
             ("fp", VStr (or_str (params !! "fp") EmptyString));
             ("pbk", VStr (or_str (params !! "pbk") EmptyString));
             ("sid", VStr (or_str (params !! "sid") EmptyString));
             ("spx", VStr (or_str (params !! "spx") EmptyString));
             ("alpn", VStr (or_str (params !! "alpn") EmptyString));
             ("allowInsecure",
               VBool (bool_decide (params !! "allowInsecure" = Some "1")
                      || bool_decide (params !! "allowInsecure" = Some "true")
                      || false));
             ("name", VStr (name_of fragment "VLESS Server")) ])).
Proof.
  intros Hu Hh Hp _ Hq Hf. unfold parseVLESS.
  rewrite vless_fields_built; try done.
  2:{ by intros f ->. }
  unfold vless_link at 1. rewrite startsWith_app. cbv beta iota delta [negb].
  destruct (vless_params (Some q)) as [params|e]; [|done].
  simpl mbind. cbv beta iota.
  by rewrite <- (name_of_default fragment "VLESS Server").
Qed.

Lemma digits_from_app s c t acc :
  all_chars is_digit s = true → is_digit c = false →
  digits_from (s +:+ String c t) acc = digits_from s acc.
Proof.
  intros Hs Hc. revert acc. induction s as [|a r IH]; intros acc.
  - change (EmptyString +:+ String c t) with (String c t). simpl.
    unfold digit_val. unfold is_digit in Hc. by rewrite Hc.
  - rewrite append_cons. simpl in *. apply andb_true_iff in Hs as [Ha Hr].
    unfold digit_val. unfold is_digit in Ha. rewrite Ha. by apply IH.
Qed.

Lemma trimStart_digit a r : is_digit a = true → trimStart (String a r) = String a r.
Proof.
  intros Ha. unfold is_digit, between in Ha.
  apply andb_true_iff in Ha as [Hlo Hhi].
  apply Nat.leb_le in Hlo, Hhi.
  assert (H1 : ws1 a = false).
  { unfold ws1, between.
    destruct (Nat.leb_spec 9 (code a)), (Nat.leb_spec (code a) 13),
      (Nat.eqb_spec (code a) 32); simpl; try done; lia. }
  simpl. rewrite H1.
  destruct r as [|b r]; [done|].
  assert (H2 : ∀ b, ws2 a b = false).
  { intros b'. unfold ws2. destruct (Nat.eqb_spec (code a) 194); [lia|done]. }
  rewrite H2. destruct r as [|c r]; [done|].
  assert (H3 : ws3 a b c = false).
  { unfold ws3.
    destruct (Nat.eqb_spec (code a) 225), (Nat.eqb_spec (code a) 226),
      (Nat.eqb_spec (code a) 227), (Nat.eqb_spec (code a) 239); lia || done. }
  by rewrite H3.
Qed.

(** [parseInt] stops at the first character that is no digit. *)
Lemma parseInt_string_app s c t :
  s ≠ EmptyString → all_chars is_digit s = true → is_digit c = false →
  parseInt_string (s +:+ String c t) = parseInt_string s.
Proof.
  intros Hne Hs Hc. destruct s as [|a r]; [done|].
  rewrite append_cons. simpl in Hs. apply andb_true_iff in Hs as [Ha Hr].
  unfold parseInt_string. rewrite !trimStart_digit by done.
  assert (a ≠ "-"%char ∧ a ≠ "+"%char) as [Hm Hp].
  { split; intros ->; done. }
  assert (Hsign : ∀ r',
    match String a r' with
    | String "-" r0 => ((-1)%Z, r0)
    | String "+" r0 => (1%Z, r0)
    | _ => (1%Z, String a r')
    end = (1%Z, String a r')).
  { intros r'. destruct a as [[] [] [] [] [] [] [] []]; done. }
  rewrite !Hsign. simpl starts_with_digit.
  rewrite <- append_cons.
  by rewrite (digits_from_app (String a r)) by (simpl; by rewrite ?Ha, ?Hr).
Qed.

Lemma digits_free_of s : all_chars is_digit s = true → free_of "@:?" s = true.
Proof.
  unfold free_of. induction s as [|a r IH]; [done|].
  cbn [all_chars]. intros [Ha Hr]%andb_true_iff. rewrite IH by done.
  rewrite andb_true_r. cbn [includes].
  destruct (Ascii.eqb_spec "@" a) as [<-|]; [done|].
  destruct (Ascii.eqb_spec ":" a) as [<-|]; [done|].
  destruct (Ascii.eqb_spec "?" a) as [<-|]; [done|]. done.
Qed.

(** X4.  A vless link without a query: [parseVLESS] looks for the fragment
    in the text after the question mark only, so the fragment of
    [vless://uuid@host:port#fragment] is not read.  The name is the
    placeholder "VLESS Server", and the port (of at most 15 digits) is
    still the number written before the hash sign. *)
Theorem parseVLESS_fragment_needs_query uuid host port f :
  free_of "@:" uuid = true → free_of "@:?" host = true →
  free_of "@:?" f = true →
  String.eqb port EmptyString = false → all_chars is_digit port = true →
  short_port port = true →
  ∃ parsed,
    parseVLESS (vless_link uuid host port None (Some f)) = Ok parsed
    ∧ parsed@"uuid" = VStr uuid
    ∧ parsed@"host" = VStr host
    ∧ parsed@"port" = VNum (parseInt_string port)
    ∧ parsed@"name" = VStr "VLESS Server".
Proof.
  intros Hu Hh Hf Hne Hp _. unfold parseVLESS.
  rewrite vless_fields_no_query; try done.
  2:{ by apply digits_free_of. }
  unfold vless_link at 1. rewrite startsWith_app. cbv beta iota delta [negb].
  simpl mbind. cbv beta iota. eexists. split; [reflexivity|].
  split; [reflexivity|]. split; [reflexivity|]. split; [|reflexivity].
  simpl. f_equal. unfold String_of. simpl.
  apply parseInt_string_app; [|done..].
  apply String.eqb_neq in Hne. done.
Qed.


Lemma is_str_VStr t s : is_str (VStr t) s = String.eqb t s.
Proof. done. Qed.

Lemma is_str_true v s : is_str v s = true → v = VStr s.
Proof.
  destruct v; simpl; try done. intros H. by apply String.eqb_eq in H as ->.
Qed.

(** X9.  A record whose [type] is a string other than "vless", "vmess",
    "trojan" and "ss": [toClash], [toSurge] and [toQuantumult] throw an
    error that names the type, while [toSingBox] has no such case and
    returns the four common properties. *)
Theorem unknown_type_only_toSingBox_returns (config : obj) t :
  config@"type" = VStr t → t ∉ ["vless"; "vmess"; "trojan"; "ss"] →
  toClash_config config
  = Throw (Error ("Tidak dapat mengkonversi protokol '" +:+ t
                    +:+ "' ke format Clash."))
  ∧ toSurge config = Throw (Error ("Unsupported type for Surge: " +:+ t))
  ∧ toQuantumult config
    = Throw (Error ("Unsupported type for Quantumult: " +:+ t))
  ∧ toSingBox_base config
    = Ok [ ("tag", config@"name"); ("type", VStr t);
           ("server", config@"host"); ("server_port", config@"port") ].
Proof.
  intros Ht Hn.
  assert (H1 : String.eqb t "vless" = false)
    by (apply String.eqb_neq; intros ->; apply Hn; set_solver).
  assert (H2 : String.eqb t "vmess" = false)
    by (apply String.eqb_neq; intros ->; apply Hn; set_solver).
  assert (H3 : String.eqb t "trojan" = false)
    by (apply String.eqb_neq; intros ->; apply Hn; set_solver).
  assert (H4 : String.eqb t "ss" = false)
    by (apply String.eqb_neq; intros ->; apply Hn; set_solver).
  unfold toClash_config, toSurge, toQuantumult, toSingBox_base.
  rewrite Ht, !is_str_VStr, H1, H2, H3, H4. simpl.
  rewrite ?append_nil_r. done.
Qed.

(** X10.  The object that [toSingBox] builds for a vless or vmess record
    (with an [alpn] that is empty or a string) always has a [tls] property,
    and [tls.enabled] is true exactly when the security is "tls" or
    "reality" or the record's [tls] flag is set; when it is false the [tls]
    object holds nothing else. *)
Theorem toSingBox_tls_block (config : obj) :
  is_str config@"type" "vless" || is_str config@"type" "vmess" = true →
  truthy config@"alpn" = false ∨ (∃ s, config@"alpn" = VStr s) →
  let on := is_str config@"security" "tls" || is_str config@"security" "reality"
            || truthy config@"tls" in
  ∃ base tls,
    toSingBox_base config = Ok base
    ∧ base@"tls" = VObj tls
    ∧ tls@"enabled" = VBool on
    ∧ (on = false → tls = [("enabled", VBool false)]).
Proof.
  intros Hty Halpn on. unfold toSingBox_base. rewrite Hty.
  set (base0 := set_if _ (set_if _ (set_if _ (obj_set _ _ _) _ _) _ _) _ _).
  fold on. destruct on eqn:Hon.
  - assert (Hnone : is_str config@"security" "none" && negb (truthy config@"tls")
                    = false).
    { destruct (is_str config@"security" "none") eqn:Hs; [|done].
      apply is_str_true in Hs. unfold on in Hon. rewrite Hs in Hon. simpl in Hon.
      by rewrite Hon. }
    rewrite Hnone.
    assert (Hfin : ∀ tls : obj, tls@"enabled" = VBool true →
      ∃ base tls',
        Ok (set_if false
              (obj_set base0 "tls"
                 (VObj
                    (if is_str config@"security" "reality" then
                       obj_set
                         (obj_set (obj_set tls "utls" (singbox_utls config))
                            "reality"
                            (VObj [ ("enabled", VBool true);
                                    ("public_key", config@"pbk");
                                    ("short_id", config@"sid") ]))
                         "flow" (or_else config@"flow" (VStr EmptyString))
                     else if is_str config@"security" "tls" then
                       set_if (truthy config@"flow")
                         (obj_set tls "utls" (singbox_utls config))
                         "flow" config@"flow"
                     else tls)))
              "tls" (VObj [("enabled", VBool false)]))
        = Ok base
        ∧ base@"tls" = VObj tls' ∧ tls'@"enabled" = VBool true
        ∧ (true = false → tls' = [("enabled", VBool false)])).
    { intros tls Htls. eexists _, _. split; [reflexivity|].
      unfold set_if at 1. rewrite obj_get_set_eq.
      split; [reflexivity|]. split; [|done].
      destruct (is_str config@"security" "reality");
        [|destruct (is_str config@"security" "tls")];
        repeat first [rewrite obj_get_set_ne by done
                     |rewrite set_if_get_ne by done];
        done. }
    set (tls0 := object_literal
                   [ ("enabled", VBool true);
                     ("server_name", or_else config@"sni" config@"host");
                     ("insecure", VBool (truthy config@"allowInsecure")) ]).
    destruct Halpn as [Ha|[s Ha]]; rewrite Ha.
    + exact (Hfin tls0 eq_refl).
    + destruct (truthy (VStr s)).
      * exact (Hfin (obj_set tls0 "alpn"
                       (VArr (VStr <$> filter (λ a, a ≠ EmptyString)
                                         (trim <$> split s ","))))
                 eq_refl).
      * exact (Hfin tls0 eq_refl).
  - cbn [mbind result_bind].
    destruct (_ && _); unfold set_if at 1;
      (eexists _, [("enabled", VBool false)]; split; [reflexivity|]);
      rewrite obj_get_set_eq; done.
Qed.


(** ** Trimming keeps a part of the string *)

Lemma trimStart_sub_aux n : ∀ s c,
  (String.length s ≤ n)%nat → includes (trimStart s) c = true → includes s c = true.
Proof.
  induction n as [|n IH]; intros s c Hn.
  - destruct s; [done|simpl in Hn; lia].
  - destruct s as [|c1 r1]; [done|]. simpl in Hn. simpl trimStart.
    destruct (ws1 c1).
    { intros H. simpl. rewrite (IH r1) by (done || lia). apply orb_true_r. }
    destruct r1 as [|c2 r2]; [done|]. simpl in Hn.
    destruct (ws2 c1 c2).
    { intros H. simpl. rewrite (IH r2) by (done || lia). by rewrite !orb_true_r. }
    destruct r2 as [|c3 r3]; [done|]. simpl in Hn.
    destruct (ws3 c1 c2 c3); [|done].
    intros H. simpl. rewrite (IH r3) by (done || lia). by rewrite !orb_true_r.
Qed.

Lemma trimStart_sub s c : includes (trimStart s) c = true → includes s c = true.
Proof. by apply (trimStart_sub_aux (String.length s)). Qed.

Lemma trimStart_rev_sub_aux n : ∀ s c,
  (String.length s ≤ n)%nat → includes (trimStart_rev s) c = true
  → includes s c = true.
Proof.
  induction n as [|n IH]; intros s c Hn.
  - destruct s; [done|simpl in Hn; lia].
  - destruct s as [|c1 r1]; [done|]. simpl in Hn. simpl trimStart_rev.
    destruct (ws1 c1).
    { intros H. simpl. rewrite (IH r1) by (done || lia). apply orb_true_r. }
    destruct r1 as [|c2 r2]; [done|]. simpl in Hn.
    destruct (ws2 c2 c1).
    { intros H. simpl. rewrite (IH r2) by (done || lia). by rewrite !orb_true_r. }
    destruct r2 as [|c3 r3]; [done|]. simpl in Hn.
    destruct (ws3 c3 c2 c1); [|done].
    intros H. simpl. rewrite (IH r3) by (done || lia). by rewrite !orb_true_r.
Qed.

Lemma includes_rev_onto s acc c :
  includes (rev_onto s acc) c = includes s c || includes acc c.
Proof.
  revert acc. induction s as [|a r IH]; intros acc; simpl; [done|].
  rewrite IH. simpl. destruct (Ascii.eqb a c), (includes r c); done.
Qed.

Lemma includes_rev s c : includes (rev s) c = includes s c.
Proof. unfold rev. rewrite includes_rev_onto. simpl. apply orb_false_r. Qed.

Lemma trimEnd_sub s c : includes (trimEnd s) c = true → includes s c = true.
Proof.
  unfold trimEnd. rewrite includes_rev. intros H.
  apply (trimStart_rev_sub_aux (String.length (rev s))) in H; [|done].
  by rewrite includes_rev in H.
Qed.

Lemma trim_sub s c : includes (trim s) c = true → includes s c = true.
Proof. unfold trim. intros H. by apply trimStart_sub, trimEnd_sub. Qed.

Lemma extractLinks_inv rawInput links :
  extractLinks rawInput = Ok links →
  links ≠ [] ∧ links = filter passes (segments rawInput).
Proof.
  unfold extractLinks. destruct (String.eqb rawInput EmptyString); [done|].
  rewrite extractLinks_loop_filter. simpl.
  destruct (Nat.eqb _ 0) eqn:Hlen; [done|].
  intros [= <-]. split; [|done].
  intros H. rewrite H in Hlen. done.
Qed.

(** X11.  The list [extractLinks] returns is never empty, and no link in it
    holds a comma: a link with a comma in it is cut at the comma.  Every
    link in it is longer than 30 characters. *)
Theorem extractLinks_links_have_no_comma rawInput links :
  extractLinks rawInput = Ok links →
  links ≠ []
  ∧ ∀ link, link ∈ links →
      includes link "," = false ∧ (30 < JS.length link)%nat.
Proof.
  intros [Hne ->]%extractLinks_inv. split; [done|].
  intros link [[Hl _] [_ Hin]%list_elem_of_filter]%list_elem_of_filter.
  split; [|done].
  apply list_elem_of_fmap in Hin as (piece & -> & Hin).
  apply not_true_is_false. intros H. apply trim_sub in H.
  by rewrite (split_pieces_without _ _ _ Hin) in H.
Qed.

Section BatchFacts.
Context (JSON_parse : string → option jsval).
Context (yaml_dump : jsval → result string).
Context (JSON_stringify : jsval → string).

Lemma pushed_shift startIndex k i link :
  pushed JSON_parse yaml_dump JSON_stringify startIndex (k + i) link
  = pushed JSON_parse yaml_dump JSON_stringify (startIndex + k) i link.
Proof.
  unfold pushed, convert.
  by replace (startIndex + (k + i) + 1) with (startIndex + k + i + 1) by lia.
Qed.

(** X13.  A batch can be processed in chunks: the entries of a list are
    the entries of its first part followed by those of the rest, processed
    with the start index moved by the length of the first part. *)
Theorem processLinks_in_chunks links1 links2 startIndex :
  processLinks JSON_parse yaml_dump JSON_stringify (links1 ++ links2) startIndex
  = (processLinks JSON_parse yaml_dump JSON_stringify links1 startIndex
     ++ processLinks JSON_parse yaml_dump JSON_stringify links2
          (startIndex + List.length links1))%list.
Proof.
  rewrite !processLinks_imap, imap_app. f_equal.
  apply imap_ext. intros i link _. simpl. apply pushed_shift.
Qed.

Lemma converted_tag links startIndex i original fmts link tag :
  processLinks JSON_parse yaml_dump JSON_stringify links startIndex !! i
  = Some (Converted original fmts link tag) →
  ∃ name, tag = tag_of name (startIndex + i + 1).
Proof.
  rewrite processLinks_lookup. intros H.
  destruct (links !! i) as [l|]; simpl in H; [|done].
  injection H as H. unfold pushed in H.
  destruct (convert _ _ _ _ _ l) as [e|] eqn:He; [|done]. subst e.
  apply convert_inv in He as (p & n & c & s & q & b & _ & _ & _ & _ & _ & _ & He).
  inversion He; subst. by exists n.
Qed.

(** X14.  The tags of the success entries of a batch are pairwise
    distinct, whatever the names of the links. *)
Theorem processLinks_tags_distinct links startIndex i j
    original1 fmts1 link1 tag1 original2 fmts2 link2 tag2 :
  processLinks JSON_parse yaml_dump JSON_stringify links startIndex !! i
  = Some (Converted original1 fmts1 link1 tag1) →
  processLinks JSON_parse yaml_dump JSON_stringify links startIndex !! j
  = Some (Converted original2 fmts2 link2 tag2) →
  i ≠ j → tag1 ≠ tag2.
Proof.
  intros [n1 ->]%converted_tag [n2 ->]%converted_tag Hij Heq.
  apply tag_of_inj in Heq. lia.
Qed.
End BatchFacts.


Section TemplateCache.
Import TemplateSystem.
Context {Template : Type} (Handlebars_compile : string → Template).
Context (path_join : list string → string) (readFile : string → result string).
Context (templatesDir : string).

Local Abbreviation loadTemplate :=
  (loadTemplate Handlebars_compile path_join readFile templatesDir).
Local Abbreviation templatePath := (templatePath path_join templatesDir).

Lemma cacheKey_inj format level1 level2 :
  cacheKey format level1 = cacheKey format level2 → level1 = level2.
Proof.
  unfold cacheKey. intros H. apply String.app_inj in H.
  by apply (String.app_inj ":") in H.
Qed.

Lemma loadTemplate_step fuel (this : @t Template) format level :
  loadTemplate (S fuel) this format level
  = match cache this !! cacheKey format level with
    | Some template => Some (this, Ok template)
    | None =>
        let missed := Make (cache this) (reads this ++ [templatePath format level]) in
        match readFile (templatePath format level) with
        | Ok source =>
            Some (Make (<[cacheKey format level := Handlebars_compile source]>
                          (cache this)) (reads missed),
                  Ok (Handlebars_compile source))
        | Throw error =>
            if negb (String.eqb level "basic")
            then loadTemplate fuel missed format "basic"
            else Some (missed, Throw (load_error format level error))
        end
    end.
Proof. reflexivity. Qed.

(** X17.  [loadTemplate] calls itself at most once: two units of fuel give
    the result of any larger bound, and with two units there is always a
    result. *)
Theorem loadTemplate_recursion_depth fuel (this : @t Template) format level :
  loadTemplate (S (S fuel)) this format level = loadTemplate 2 this format level
  ∧ is_Some (loadTemplate 2 this format level).
Proof.
  rewrite !(loadTemplate_step _ this).
  destruct (cache this !! cacheKey format level); [by split|].
  cbv zeta. destruct (readFile (templatePath format level)); [by split|].
  destruct (negb (String.eqb level "basic")); [|by split].
  rewrite !loadTemplate_basic. by split.
Qed.

Lemma later_lookup (alive : string → bool) (this : @t Template) key :
  cache (later alive this) !! key
  = if alive key then cache this !! key else None.
Proof.
  unfold later. simpl. destruct (alive key) eqn:Ha.
  - destruct (cache this !! key) as [template|] eqn:Hc.
    + apply map_lookup_filter_Some. by split.
    + apply map_lookup_filter_None. left. done.
  - apply map_lookup_filter_None. right. intros template _. simpl. by rewrite Ha.
Qed.

(** X18.  Loading again what was loaded, with the files unchanged and the
    cache entry of the template still alive (NodeCache keeps an entry for
    3600 s): the same template comes back and the cache is left as it is.
    No file is read when the level itself was loaded (from the cache or
    from its file), since it is cached under its own key; after a fallback
    the missing file of the level is read once more and nothing else, since
    the baseline template is cached under the baseline key only. *)
Theorem loadTemplate_again fuel fuel' (this this1 : @t Template) format level
    template alive :
  loadTemplate fuel this format level = Some (this1, Ok template) →
  let fallback :=
    match cache this !! cacheKey format level,
          readFile (templatePath format level) with
    | None, Throw _ => true
    | _, _ => false
    end in
  alive (cacheKey format (if fallback then "basic" else level)) = true →
  loadTemplate (S (S fuel')) (later alive this1) format level
  = Some (Make (cache (later alive this1))
            (reads this1 ++ if fallback then [templatePath format level] else []),
          Ok template)
  ∧ cache this1 !! cacheKey format (if fallback then "basic" else level)
    = Some template
  ∧ (fallback = true → cache this1 !! cacheKey format level = None).
Proof.
  destruct fuel as [|fuel]; [done|]. rewrite loadTemplate_step.
  destruct (cache this !! cacheKey format level) as [cached|] eqn:Hc.
  { intros [= <- <-] fallback Halive. subst fallback. cbv iota in *.
    rewrite loadTemplate_step, later_lookup, Halive, Hc, app_nil_r.
    split; [done|]. split; done. }
  cbv zeta. destruct (readFile (templatePath format level)) as [source|error] eqn:Hr.
  { intros [= <- <-] Halive. cbv iota in *.
    rewrite loadTemplate_step, later_lookup, Halive. cbn [cache reads].
    rewrite lookup_insert_eq, app_nil_r. split; [done|]. split; done. }
  destruct (String.eqb_spec level "basic") as [->|Hne]; simpl negb; cbv iota; [done|].
  destruct fuel as [|fuel]; [done|]. rewrite loadTemplate_basic. cbn [cache reads].
  assert (Hkey : cacheKey format level ≠ cacheKey format "basic")
    by (intros H; by apply cacheKey_inj in H).
  assert (Hb' : negb (String.eqb level "basic") = true)
    by (apply negb_true_iff; by apply String.eqb_neq).
  destruct (cache this !! cacheKey format "basic") as [baseline|] eqn:Hb.
  - intros [= <- <-] Halive. cbv iota in *.
    rewrite loadTemplate_step, later_lookup. cbn [cache reads].
    rewrite Hc. replace (if alive _ then None else None) with (@None Template)
      by (by destruct (alive (cacheKey format level))).
    rewrite Hr, Hb'. cbv zeta iota.
    rewrite loadTemplate_basic. cbn [cache reads]. rewrite later_lookup.
    cbn [cache reads].
    rewrite Halive, Hb. split; [done|]. split; done.
  - cbn [cache reads].
    destruct (readFile (templatePath format "basic")) as [source|error'] eqn:Hrb;
      [|done].
    intros [= <- <-] Halive. cbv iota in *.
    rewrite loadTemplate_step, later_lookup. cbn [cache reads].
    rewrite lookup_insert_ne by done. rewrite Hc.
    replace (if alive _ then None else None) with (@None Template)
      by (by destruct (alive (cacheKey format level))).
    rewrite Hr, Hb'. cbv zeta iota.
    rewrite loadTemplate_basic. cbn [cache reads]. rewrite later_lookup.
    cbn [cache reads].
    rewrite Halive, lookup_insert_eq, <- app_assoc.
    split; [done|]. split; done.
Qed.
End TemplateCache.


Lemma prefix_empty s : String.prefix EmptyString s = true.
Proof. by destruct s. Qed.

Lemma remove_dquotes_clean s : includes (remove_dquotes s) CompactJSON.dquote = false.
Proof.
  induction s as [|c r IH]; simpl; [done|].
  destruct (Ascii.eqb c CompactJSON.dquote) eqn:E; [done|]. simpl. by rewrite E.
Qed.

Lemma obj_set_unquoted config k s :
  unquoted config → includes s CompactJSON.dquote = false →
  unquoted (obj_set config k (VStr s)).
Proof.
  intros Hc Hs. induction Hc as [|[k' v'] r Hp Hr IH]; simpl.
  - repeat constructor. by exists s.
  - destruct (String.eqb k' k).
    + constructor; [by exists s|done].
    + by constructor.
Qed.

Lemma proxy_entry_unquoted config text :
  unquoted config → ∃ config', proxy_entry config text = Ok config' ∧ unquoted config'.
Proof.
  intros Hc. unfold proxy_entry.
  destruct (split_cons text ":") as (key & rest & ->). simpl.
  eexists. split; [reflexivity|]. unfold obj_assign.
  destruct (String.eqb (trim key) "__proto__"); [done|].
  apply obj_set_unquoted; [done|apply remove_dquotes_clean].
Qed.

Lemma proxy_line_unquoted config line :
  unquoted config → ∃ config', proxy_line config line = Ok config' ∧ unquoted config'.
Proof.
  intros Hc. unfold proxy_line.
  destruct (_ && _); [|by exists config].
  destruct (startsWith _ "- "); [by apply proxy_entry_unquoted|].
  destruct (0 <? _)%nat; [by apply proxy_entry_unquoted|by exists config].
Qed.

(** X19.  [parseProxyConfig] returns on every text, and every property of
    the object it returns holds a string without a double quote. *)
Theorem parseProxyConfig_values_unquoted configString :
  ∃ config,
    parseProxyConfig configString = Ok config
    ∧ ∀ k, config@k = VUndef
           ∨ ∃ s, config@k = VStr s ∧ includes s CompactJSON.dquote = false.
Proof.
  unfold parseProxyConfig.
  assert (H : ∀ lines config, unquoted config →
            ∃ config', forEach proxy_line lines config = Ok config'
                       ∧ unquoted config').
  { induction lines as [|line rest IH]; intros config Hc; simpl.
    - by exists config.
    - destruct (proxy_line_unquoted config line Hc) as (c1 & -> & H1). simpl.
      by apply IH. }
  destruct (H (split configString "010") [] ltac:(constructor))
    as (config & -> & Hc).
  exists config. split; [done|]. intros k.
  induction Hc as [|[k' v'] r (s & Hv & Hs) Hr IH]; simpl; [by left|].
  destruct (String.eqb k' k); [|done]. right. by exists s.
Qed.

(** X20.  A one-line text [key: value], written as a list item ([- key:
    value]) or not: [parseProxyConfig] returns the object with the one
    property named by the trimmed text before the first colon, holding all
    the text after that colon (further colons included), trimmed and without
    its double quotes. *)
Theorem parseProxyConfig_reads_line configString (item : bool) key value :
  includes configString "010" = false →
  trim configString = (if item then "- " else EmptyString) +:+ key +:+ String ":" value →
  includes key ":" = false →
  startsWith key "#" = false →
  (item = false → startsWith key "- " = false) →
  String.eqb (trim key) "__proto__" = false →
  parseProxyConfig configString
  = Ok [(trim key, VStr (remove_dquotes (trim value)))].
Proof.
  intros Hnl Htrim Hkey Hhash Hitem Hproto. unfold parseProxyConfig.
  rewrite split_without by done. cbn [forEach]. unfold proxy_line. rewrite Htrim.
  set (rest := key +:+ String ":" value).
  assert (Hentry : proxy_entry [] rest
                   = Ok [(trim key, VStr (remove_dquotes (trim value)))]).
  { unfold proxy_entry, rest. rewrite split_app by done. simpl.
    unfold obj_assign. rewrite Hproto. simpl. by rewrite join_split. }
  assert (Hne : String.eqb rest EmptyString = false) by (by destruct key).
  destruct item.
  - assert (H1 : String.eqb ("- " +:+ rest) EmptyString = false) by done.
    assert (H2 : startsWith ("- " +:+ rest) "#" = false) by done.
    assert (H3 : startsWith ("- " +:+ rest) "- " = true) by apply startsWith_app.
    assert (H4 : substring_from ("- " +:+ rest) 2 = rest)
      by apply (JS_substring_from "- ").
    rewrite H1, H2, H3, H4. cbv beta iota delta [negb andb].
    by rewrite Hentry.
  - change (EmptyString +:+ rest) with rest. rewrite Hne.
    assert (Hh : startsWith rest "#" = false).
    { unfold rest, startsWith in *. destruct key as [|a r]; [reflexivity|].
      rewrite append_cons. cbn [String.prefix] in *.
      destruct (Ascii.ascii_dec "#" a); [|reflexivity].
      by rewrite prefix_empty in Hhash. }
    rewrite Hh. cbv beta iota delta [negb andb].
    assert (Hd : startsWith rest "- " = false).
    { specialize (Hitem eq_refl). unfold rest, startsWith in *.
      destruct key as [|a [|b r]]; [reflexivity| |].
      - change (String a EmptyString +:+ String ":" value)
          with (String a (String ":" value)).
        cbn [String.prefix]. destruct (Ascii.ascii_dec "-" a); [|done].
        destruct (Ascii.ascii_dec " " ":") as [E|]; [discriminate E|done].
      - rewrite !append_cons. cbn [String.prefix] in *.
        destruct (Ascii.ascii_dec "-" a); [|reflexivity].
        destruct (Ascii.ascii_dec " " b); [|reflexivity].
        by rewrite prefix_empty in Hitem. }
    rewrite Hd. unfold rest at 1. rewrite split_app by done. cbn [List.tl].
    replace (0 <? _)%nat with true.
    2:{ symmetry. apply Nat.ltb_lt. destruct (split_cons value ":") as (x & l & ->).
        simpl. lia. }
    by rewrite Hentry.
Qed.

(** X12.  [getLinksFromQuery] answers the empty list exactly when the
    query has no [link], or a falsy one; otherwise it throws or returns a
    list that is not empty. *)
Theorem getLinksFromQuery_empty_iff (query : obj) :
  getLinksFromQuery query = Ok [] ↔ truthy query@"link" = false.
Proof.
  unfold getLinksFromQuery. cbv zeta.
  destruct (truthy query@"link") eqn:Ht; simpl.
  - split; [|done]. destruct (query@"link"); try done.
    intros H. apply extractLinks_inv in H as [H _]. done.
  - done.
Qed.

Lemma map_result_names k pick results fragments :
  Forall named results →
  map_result (fragment k pick) results = Ok fragments →
  map_result original_name results = Ok (entry_tag <$> results).
Proof.
  intros Hn. revert fragments.
  induction Hn as [|r rest Hr Hrest IH]; intros fragments; simpl; [done|].
  destruct r as [original fmts link tag|error link]; simpl; [|done].
  destruct (map_result (fragment k pick) rest) as [l|] eqn:Hl; simpl; [|done].
  intros _. rewrite (IH l) by done. simpl. simpl in Hr. by rewrite Hr.
Qed.

Section DocumentFacts.
Context (JSON_parse : string → option jsval).
Context (yaml_dump : jsval → result string).
Context (JSON_stringify : jsval → string).
Context (now : string).

Lemma pushed_named startIndex i link :
  named (pushed JSON_parse yaml_dump JSON_stringify startIndex i link).
Proof.
  unfold pushed.
  destruct (convert _ _ _ _ _ link) as [e|] eqn:He; [|done].
  apply convert_inv in He as (p & n & c & s & q & b & _ & _ & _ & _ & _ & _ & ->).
  simpl. unfold batch_config. rewrite obj_get_set_ne by done. apply obj_get_set_eq.
Qed.

Lemma processLinks_named links startIndex :
  Forall named
    (List.filter valid
       (processLinks JSON_parse yaml_dump JSON_stringify links startIndex)).
Proof.
  apply Forall_forall. intros r Hin.
  apply list_elem_of_In, filter_In in Hin as [Hin _].
  apply list_elem_of_In, list_elem_of_lookup in Hin as [i Hi].
  rewrite processLinks_lookup in Hi.
  destruct (links !! i) as [l|]; simpl in Hi; [|done].
  injection Hi as <-. apply pushed_named.
Qed.

(** X15.  In the data of a Clash, Surge or Quantumult document made from
    the entries of [processLinks] that [generateConfigByFormat] keeps, the
    proxy names (read from [original.name]) are the tags of the entries, as
    they are in the data of a sing-box document (read from [tag]). *)
Theorem document_names_are_tags links startIndex :
  let results :=
    List.filter valid
      (processLinks JSON_parse yaml_dump JSON_stringify links startIndex) in
  clash_data now results
  = (proxies ← map_result (fragment "clash" clash) results;
     Ok [ ("proxies", VArr (VStr <$> proxies));
          ("proxyNames", VArr (entry_tag <$> results));
          ("timestamp", VStr now);
          ("version", VStr "1.0.0") ])
  ∧ surge_data now results
    = (proxies ← map_result (fragment "surge" surge) results;
       Ok [ ("proxies", VArr (VStr <$> proxies));
            ("proxyNames", VArr (entry_tag <$> results));
            ("timestamp", VStr now) ])
  ∧ quantumult_data now results
    = (proxies ← map_result (fragment "quantumult" quantumult) results;
       Ok [ ("proxies", VArr (VStr <$> proxies));
            ("proxyNames", VArr (entry_tag <$> results));
            ("timestamp", VStr now) ])
  ∧ (∀ data, singbox_data JSON_parse now results = Ok data →
       data@"proxyNames" = VArr (entry_tag <$> results)).
Proof.
  intros results. pose proof (processLinks_named links startIndex) as Hn.
  fold results in Hn.
  unfold clash_data, surge_data, quantumult_data, singbox_data.
  split; [|split; [|split]].
  - destruct (map_result (fragment "clash" clash) results) as [l|] eqn:Hl; [|done].
    simpl. by rewrite (map_result_names _ _ _ _ Hn Hl).
  - destruct (map_result (fragment "surge" surge) results) as [l|] eqn:Hl; [|done].
    simpl. by rewrite (map_result_names _ _ _ _ Hn Hl).
  - destruct (map_result (fragment "quantumult" quantumult) results) as [l|] eqn:Hl;
      [|done].
    simpl. by rewrite (map_result_names _ _ _ _ Hn Hl).
  - intros data. destruct (map_result _ results); simpl; [|done].
    by intros [= <-].
Qed.
End DocumentFacts.

Section DocumentBound.
Import TemplateSystem.
Context (JSON_parse : string → option jsval).
Context {Template : Type} (Handlebars_compile : string → Template).
Context (path_join : list string → string) (readFile : string → result string).
Context (templatesDir : string).
Context (render : Template → jsval → result string).
Context (now : string).

Lemma loadTemplate_reads fuel (this : @t Template) format level :
  ∃ this' r again,
    loadTemplate Handlebars_compile path_join readFile templatesDir (S (S fuel))
      this format level = Some (this', r)
    ∧ reads this' = (reads this ++ again)%list ∧ (List.length again ≤ 2)%nat.
Proof.
  rewrite loadTemplate_step.
  destruct (cache this !! cacheKey format level).
  { eexists _, _, []. rewrite app_nil_r. split; [done|]. split; [done|simpl; lia]. }
  cbv zeta. destruct (readFile _).
  { eexists _, _, [_]. split; [done|]. split; [done|simpl; lia]. }
  destruct (negb _).
  - rewrite loadTemplate_basic. simpl cache. simpl reads.
    destruct (cache this !! cacheKey format "basic").
    { eexists _, _, [_]. split; [done|]. split; [done|simpl; lia]. }
    destruct (readFile _);
      (eexists _, _, [_; _]; split; [done|]; split;
       [simpl; by rewrite <- app_assoc|simpl; lia]).
  - eexists _, _, [_]. split; [done|]. split; [done|simpl; lia].
Qed.

Lemma generateConfig_reads fuel (this : @t Template) format level data :
  ∃ this' r again,
    generateConfig Handlebars_compile path_join readFile templatesDir render
      (S (S fuel)) this format level data = Some (this', r)
    ∧ reads this' = (reads this ++ again)%list ∧ (List.length again ≤ 2)%nat.
Proof.
  unfold generateConfig.
  destruct (loadTemplate_reads fuel this format level)
    as (this' & r & again & -> & Hr & Hl).
  destruct r; by eexists _, _, again.
Qed.

(** X16.  [generateConfigByFormat] returns (two units of fuel are enough)
    after at most two file reads.  For a format it does not know it reads no
    file, leaves the template system as it is and fails with an error that
    names the format. *)
Theorem generateConfigByFormat_reads_at_most_two fuel (this : @t Template)
    format level results :
  ∃ this' r again,
    generateConfigByFormat JSON_parse Handlebars_compile path_join readFile
      templatesDir render now (S (S fuel)) this format level results
    = Some (this', r)
    ∧ reads this' = (reads this ++ again)%list
    ∧ (List.length again ≤ 2)%nat
    ∧ (format ∉ known_formats →
       this' = this ∧ r = Throw (Error ("Unsupported format: " +:+ format))).
Proof.
  assert (Hsame : ∀ r : result string,
            ∃ this' r' again,
              Some (this, r) = Some (this', r')
              ∧ reads this' = (reads this ++ again)%list
              ∧ (List.length again ≤ 2)%nat).
  { intros r. exists this, r, []. rewrite app_nil_r. simpl. split; [done|]. 
    split; [done|lia]. }
  assert (Hgen : ∀ f (data : result obj),
            f ∈ known_formats →
            ∃ this' r again,
              match data with
              | Ok data =>
                  generateConfig Handlebars_compile path_join readFile templatesDir
                    render (S (S fuel)) this f level (VObj data)
              | Throw error => Some (this, Throw error)
              end = Some (this', r)
              ∧ reads this' = (reads this ++ again)%list
              ∧ (List.length again ≤ 2)%nat
              ∧ (f ∉ known_formats →
                 this' = this ∧ r = Throw (Error ("Unsupported format: " +:+ f)))).
  { intros f data Hf. destruct data as [data|error].
    - destruct (generateConfig_reads fuel this f level (VObj data))
        as (this' & r & again & H1 & H2 & H3).
      exists this', r, again. by repeat split.
    - destruct (Hsame (Throw error)) as (this' & r & again & H1 & H2 & H3).
      exists this', r, again. by repeat split. }
  unfold generateConfigByFormat, generateClashConfig, generateSurgeConfig,
    generateQuantumultConfig, generateSingBoxConfig.
  destruct (String.eqb_spec format "clash") as [->|H1];
    [apply Hgen; unfold known_formats; set_solver|].
  destruct (String.eqb_spec format "surge") as [->|H2];
    [apply Hgen; unfold known_formats; set_solver|].
  destruct (String.eqb_spec format "quantumult") as [->|H3];
    [apply Hgen; unfold known_formats; set_solver|].
  destruct (String.eqb_spec format "singbox") as [->|H4];
    [apply Hgen; unfold known_formats; set_solver|].
  exists this, (Throw (Error ("Unsupported format: " +:+ format))), [].
  rewrite app_nil_r. simpl. split; [done|]. split; [done|]. split; [lia|done].
Qed.
End DocumentBound.

(* ================================================================== *)
(** * The further properties at concrete inputs                        *)
(* ================================================================== *)

Lemma parseTrojan_reads_parts_witness :
  ∃ parsed,
    parseTrojan "trojan://p%40ss%23word@example.com:443#MyTrojan" = Ok parsed
    ∧ parsed@"password" = VStr "p@ss#word"
    ∧ parsed@"host" = VStr "example.com"
    ∧ parsed@"port" = VNum (Int 443)
    ∧ parsed@"name" = VStr "MyTrojan".
Proof.
  pose proof (parseTrojan_reads_parts "p%40ss%23word" "example.com" "443" None
                (Some "MyTrojan") eq_refl eq_refl eq_refl eq_refl eq_refl eq_refl
                eq_refl)
    as H.
  eexists. split; [etrans; [exact H|vm_compute; reflexivity]|].
  vm_compute. repeat split.
Defined.

Lemma parseTrojan_port_is_not_NaN_witness :
  ∃ parsed,
    parseTrojan "trojan://secret@example.com:8443?type=ws" = Ok parsed
    ∧ (∃ port, parsed@"port" = VNum port ∧ isNaN port = false)
    ∧ parsed@"security" = VStr "tls".
Proof.
  eexists. split; [vm_compute; reflexivity|].
  apply (parseTrojan_port_is_not_NaN "trojan://secret@example.com:8443?type=ws").
  vm_compute. reflexivity.
Defined.

Lemma parseVLESS_reads_parts_witness :
  ∃ parsed,
    parseVLESS "vless://uuid-1@example.com:443?security=tls&type=ws#My%20Node"
    = Ok parsed
    ∧ parsed@"uuid" = VStr "uuid-1"
    ∧ parsed@"port" = VNum (Int 443)
    ∧ parsed@"network" = VStr "ws"
    ∧ parsed@"path" = VStr "/"
    ∧ parsed@"name" = VStr "My Node".
Proof.
  pose proof (parseVLESS_reads_parts "uuid-1" "example.com" "443"
                "security=tls&type=ws" (Some "My%20Node")
                eq_refl eq_refl eq_refl eq_refl eq_refl eq_refl) as H.
  eexists. split; [etrans; [exact H|vm_compute; reflexivity]|].
  vm_compute. repeat split.
Defined.

Lemma parseVLESS_fragment_needs_query_witness :
  ∃ parsed,
    parseVLESS "vless://uuid-1@example.com:443#My-Node" = Ok parsed
    ∧ parsed@"uuid" = VStr "uuid-1"
    ∧ parsed@"host" = VStr "example.com"
    ∧ parsed@"port" = VNum (Int 443)
    ∧ parsed@"name" = VStr "VLESS Server".
Proof.
  exact (parseVLESS_fragment_needs_query "uuid-1" "example.com" "443" "My-Node"
           eq_refl eq_refl eq_refl eq_refl eq_refl eq_refl).
Defined.


Lemma accepted_link_endpoint_in_fragments_witness :
  let link := "trojan://secret@example.com:8443?type=ws#t" in
  ∃ parsed,
    parseAnyLink CompactJSON.parse link = Ok parsed
    ∧ endpoint_in_fragments (batch_config parsed "t-1 [vortexVpn]")
        "example.com" (Int 8443).
Proof.
  intros link.
  assert (H : ∃ parsed, parseAnyLink CompactJSON.parse link = Ok parsed
                        ∧ parsed@"host" = VStr "example.com"
                        ∧ parsed@"port" = VNum (Int 8443)
                        ∧ safe_port parsed = true)
    by (eexists; split; [vm_compute; reflexivity|vm_compute; repeat split]).
  destruct H as (parsed & Hp & Hh & Hport & Hsafe). exists parsed.
  split; [exact Hp|].
  destruct (accepted_link_endpoint_in_fragments CompactJSON.parse link parsed
              "t-1 [vortexVpn]" Hp eq_refl Hsafe)
    as (h & port & Hh' & Hport' & _ & He).
  rewrite Hh in Hh'. rewrite Hport in Hport'.
  injection Hh' as <-. injection Hport' as <-. exact He.
Defined.

Lemma accepted_link_is_converted_witness :
  let link := "ss://YWVzLTI1Ni1nY206cGFzczp3b3Jk@example.com:8388#n" in
  ∃ original fmts tag,
    pushed CompactJSON.parse CompactJSON.dump CompactJSON.print 0 0 link
    = Converted original fmts link tag.
Proof.
  intros link.
  assert (H : ∃ parsed, parseAnyLink CompactJSON.parse link = Ok parsed)
    by (eexists; vm_compute; reflexivity).
  destruct H as [parsed Hp].
  exact (accepted_link_is_converted CompactJSON.parse CompactJSON.dump
           CompactJSON.print link parsed 0 0 Hp eq_refl (λ v, eq_refl)).
Defined.

Lemma accepted_type_is_scheme_witness :
  let link := "ss://YWVzLTI1Ni1nY206cGFzczp3b3Jk@example.com:8388#n" in
  ∃ parsed scheme,
    parseAnyLink CompactJSON.parse link = Ok parsed
    ∧ scheme ∈ ["vless"; "trojan"; "ss"]
    ∧ startsWith link (scheme +:+ "://") = true
    ∧ parsed@"type" = VStr scheme.
Proof.
  intros link.
  assert (H : ∃ parsed, parseAnyLink CompactJSON.parse link = Ok parsed)
    by (eexists; vm_compute; reflexivity).
  destruct H as [parsed Hp].
  destruct (accepted_type_is_scheme CompactJSON.parse link parsed Hp eq_refl)
    as (scheme & H1 & H2 & H3).
  by exists parsed, scheme.
Defined.

Lemma unknown_type_only_toSingBox_returns_witness :
  let config := [ ("type", VStr "hysteria2"); ("host", VStr "example.com");
                  ("port", VNum (Int 443)); ("name", VStr "h") ] in
  toSurge config = Throw (Error "Unsupported type for Surge: hysteria2")
  ∧ toSingBox_base config
    = Ok [ ("tag", VStr "h"); ("type", VStr "hysteria2");
           ("server", VStr "example.com"); ("server_port", VNum (Int 443)) ].
Proof.
  intros config.
  destruct (unknown_type_only_toSingBox_returns config "hysteria2" eq_refl
              ltac:(by apply (bool_decide_unpack _)))
    as (_ & Hs & _ & Hb).
  split; [exact Hs|exact Hb].
Defined.

Lemma toSingBox_tls_block_witness :
  let config :=
    vless_record (Some "uuid-1") "example.com" (Int 443) "reality" EmptyString
      "tcp" EmptyString EmptyString "example.com" EmptyString "key" "01"
      EmptyString EmptyString false "n-1 [vortexVpn]" in
  ∃ base tls,
    toSingBox_base config = Ok base
    ∧ base@"tls" = VObj tls
    ∧ tls@"enabled" = VBool true.
Proof.
  intros config.
  destruct (toSingBox_tls_block config eq_refl (or_introl eq_refl))
    as (base & tls & H1 & H2 & H3 & _).
  exists base, tls. split; [exact H1|]. split; [exact H2|exact H3].
Defined.

Lemma extractLinks_links_have_no_comma_witness :
  let rawInput :=
    " a , vless://uuid-1@example.com:443?security=tls&alpn=h2,http/1.1#n" in
  ∃ links,
    extractLinks rawInput = Ok links
    ∧ links = ["vless://uuid-1@example.com:443?security=tls&alpn=h2"]
    ∧ ∀ link, link ∈ links → includes link "," = false.
Proof.
  intros rawInput.
  assert (H : extractLinks rawInput
              = Ok ["vless://uuid-1@example.com:443?security=tls&alpn=h2"])
    by (vm_compute; reflexivity).
  eexists. split; [exact H|]. split; [reflexivity|].
  intros link Hin.
  destruct (extractLinks_links_have_no_comma rawInput _ H) as [_ Hall].
  by destruct (Hall link Hin).
Defined.

Lemma processLinks_tags_distinct_witness :
  let links := [ "vless://uuid-1@example.com:443?security=tls#n";
                 "vless://uuid-2@example.org:443?security=tls#n" ] in
  ∃ original1 fmts1 link1 tag1 original2 fmts2 link2 tag2,
    processLinks CompactJSON.parse CompactJSON.dump CompactJSON.print links 0 !! 0
    = Some (Converted original1 fmts1 link1 tag1)
    ∧ processLinks CompactJSON.parse CompactJSON.dump CompactJSON.print links 0 !! 1
      = Some (Converted original2 fmts2 link2 tag2)
    ∧ tag1 ≠ tag2.
Proof.
  intros links.
  assert (H0 : ∃ original fmts link tag,
             processLinks CompactJSON.parse CompactJSON.dump CompactJSON.print
               links 0 !! 0 = Some (Converted original fmts link tag))
    by (do 4 eexists; vm_compute; reflexivity).
  assert (H1 : ∃ original fmts link tag,
             processLinks CompactJSON.parse CompactJSON.dump CompactJSON.print
               links 0 !! 1 = Some (Converted original fmts link tag))
    by (do 4 eexists; vm_compute; reflexivity).
  destruct H0 as (o1 & f1 & l1 & t1 & H0). destruct H1 as (o2 & f2 & l2 & t2 & H1).
  exists o1, f1, l1, t1, o2, f2, l2, t2. split; [exact H0|]. split; [exact H1|].
  exact (processLinks_tags_distinct CompactJSON.parse CompactJSON.dump
           CompactJSON.print links 0 0 1 _ _ _ _ _ _ _ _ H0 H1 ltac:(lia)).
Defined.

Lemma loadTemplate_again_witness :
  let standard := "templates/clash/standard.yaml.hbs" in
  let basic := "templates/clash/basic.yaml.hbs" in
  let this1 :=
    TemplateSystem.Make {[ "clash:basic" := "proxies:" ]} [standard; basic] in
  let alive key := String.eqb key "clash:basic" in
  TemplateSystem.loadTemplate id (join "/") example_readFile "templates" 2
    (later alive this1) "clash" "standard"
  = Some (TemplateSystem.Make (TemplateSystem.cache (later alive this1))
            [standard; basic; standard],
          Ok "proxies:")
  ∧ TemplateSystem.loadTemplate id (join "/") example_readFile "templates" 2
      (later alive this1) "clash" "basic"
    = Some (later alive this1, Ok "proxies:").
Proof.
  intros standard basic this1 alive.
  assert (H : TemplateSystem.loadTemplate id (join "/") example_readFile
                "templates" 2 (TemplateSystem.Make ∅ []) "clash" "standard"
              = Some (this1, Ok "proxies:"))
    by (vm_compute; reflexivity).
  destruct (loadTemplate_again id (join "/") example_readFile "templates" 2 0
              (TemplateSystem.Make ∅ []) this1 "clash" "standard" "proxies:"
              alive H eq_refl) as (Hload & _ & _).
  assert (H' : TemplateSystem.loadTemplate id (join "/") example_readFile
                 "templates" 2 this1 "clash" "basic"
               = Some (this1, Ok "proxies:"))
    by (vm_compute; reflexivity).
  destruct (loadTemplate_again id (join "/") example_readFile "templates" 2 0
              this1 this1 "clash" "basic" "proxies:" alive H' eq_refl)
    as (Hbasic & _ & _).
  split; [exact Hload|].
  etrans; [exact Hbasic|]. vm_compute. reflexivity.
Defined.

Lemma parseProxyConfig_reads_line_witness :
  let quoted := String CompactJSON.dquote
                  ("example.com:443" +:+ String CompactJSON.dquote EmptyString) in
  parseProxyConfig ("  - server: " +:+ quoted)
  = Ok [("server", VStr "example.com:443")].
Proof.
  intros quoted.
  exact (parseProxyConfig_reads_line ("  - server: " +:+ quoted) true "server"
           (" " +:+ quoted) eq_refl eq_refl eq_refl eq_refl
           (λ H, match H with end) eq_refl).
Defined.
